(** * CAPID annotation tool: a model of [app/main.py]

    The tool is a Streamlit script: every user action runs the script from
    the top against the session state.  This file follows that shape.

    - Part 1 models the Python values the script works on: strings and their
      lines ([str.splitlines]), the insertion-ordered [dict], the JSON values
      a line of the uploaded file decodes to ([json.loads]) and the text they
      are written as ([json.dumps]), and the record dicts.
    - Part 2 gives [highlight_pii] and [refresh_pii_from_context], and what
      [save_current_edits] and the "Add PII" branch make of the content of a
      record.
    - Part 3 models the script: a heap of objects (the dict of a record is
      one object for the script's variables and the session state, and it is
      written in place), the session state, and a monad of state, exceptions
      and [st.rerun()] in which [save_current_edits], the load block, the
      branches of the buttons and the select boxes of the PII editor are
      written in source order.
    - Part 4 names what the properties speak of; Part 5 proves them; Part 6
      runs them on a session of two records.
    - Part 7 proves more of the script: the bounds of the index, the runs
      that raise and the ones that cannot, what "Go", "Update", "Save edits"
      and the download do, and the way from the downloaded file back to the
      session; Part 8 runs these on examples. *)

From Stdlib Require Import Strings.Ascii Sorting.Sorted Sorting.Permutation.
From stdpp Require Import gmap strings list fin_maps pretty.

Open Scope string_scope.
Open Scope list_scope.
Open Scope Z_scope.

(* ===================================================================== *)
(** * Part 1: Python values                                               *)
(* ===================================================================== *)

(** ** Strings

    A Python [str] is a sequence of code points.  A [string] here is a
    sequence of [ascii] characters, each read as the code point of the same
    number, so the model covers the texts whose code points are below 256;
    [len], [in], [replace] and the f-strings do not look at the value of a
    character, [strip] does (through [is_space]). *)

(** [str.isspace] on one code point below 256: TAB..CR, FS..US, SPACE, NEL
    and NBSP. *)
Definition is_space (c : ascii) : bool :=
  let n := N_of_ascii c in
  ((9 <=? n) && (n <=? 13) || (28 <=? n) && (n <=? 32) || (n =? 133) || (n =? 160))%N.

(** [s.lstrip()] *)
Fixpoint lstrip (s : string) : string :=
  match s with
  | String c s' => if is_space c then lstrip s' else s
  | EmptyString => EmptyString
  end.

(** [s.rstrip()] *)
Fixpoint rstrip (s : string) : string :=
  match s with
  | String c s' =>
      match rstrip s' with
      | EmptyString => if is_space c then EmptyString else String c EmptyString
      | r => String c r
      end
  | EmptyString => EmptyString
  end.

(** [s.strip()] *)
Definition strip (s : string) : string := rstrip (lstrip s).

(** [s.startswith(p)] *)
Fixpoint starts_with (p s : string) : bool :=
  match p, s with
  | EmptyString, _ => true
  | String a p', String b s' => if decide (a = b) then starts_with p' s' else false
  | String _ _, EmptyString => false
  end.

(** [sub in s] on strings: [sub] occurs in [s] at some position. *)
Fixpoint str_in (sub s : string) : bool :=
  starts_with sub s ||
  match s with
  | String _ s' => str_in sub s'
  | EmptyString => false
  end.

(** [s.replace(old, new)] for a non-empty [old]: scan left to right; at an
    occurrence of [old] emit [new] and skip the occurrence ([skip] counts the
    characters of it still to pass), so the occurrences replaced do not
    overlap. *)
Fixpoint replace_scan (old new : string) (skip : nat) (s : string) : string :=
  match s with
  | String c s' =>
      match skip with
      | S k => replace_scan old new k s'
      | O =>
          if starts_with old s
          then new +:+ replace_scan old new (Nat.pred (String.length old)) s'
          else String c (replace_scan old new O s')
      end
  | EmptyString => EmptyString
  end.

(** [s.replace("", new)]: [new] goes before every character and at the end. *)
Fixpoint replace_empty (new s : string) : string :=
  match s with
  | String c s' => new +:+ String c (replace_empty new s')
  | EmptyString => new
  end.

(** [s.replace(old, new)] *)
Definition str_replace (old new s : string) : string :=
  match old with
  | EmptyString => replace_empty new s
  | String _ _ => replace_scan old new O s
  end.

(** [str(i)] of an [int], as the f-strings of the widget keys use it. *)
Definition str_of_int (i : Z) : string := pretty i.

(** ** Dicts

    A Python [dict] keeps its keys in insertion order, and [sorted] and the
    two loops over [piis.items()] depend on that order, so a dict is the list
    of its items; its keys are pairwise different ([dict_wf]). *)

Abbreviation dict V := (list (string * V)) (only parsing).

Definition dict_keys {V} (d : dict V) : list string := d.*1.

Definition dict_wf {V} (d : dict V) : Prop := NoDup (dict_keys d).

(** [d.get(k)] / [d[k]] *)
Fixpoint dict_get {V} (k : string) (d : dict V) : option V :=
  match d with
  | (k', v') :: d' => if decide (k = k') then Some v' else dict_get k d'
  | [] => None
  end.

(** [d[k] = v]: an existing key keeps its place and takes the new value, a
    new key goes to the end. *)
Fixpoint dict_set {V} (k : string) (v : V) (d : dict V) : dict V :=
  match d with
  | (k', v') :: d' => if decide (k = k') then (k, v) :: d' else (k', v') :: dict_set k v d'
  | [] => [(k, v)]
  end.

(** [{k: v for k, v in items}], also the loop [d = {}; for k, v in items:
    d[k] = v]. *)
Definition dict_of_items {V} (items : list (string * V)) : dict V :=
  fold_left (fun d kv => dict_set kv.1 kv.2 d) items [].

(** ** JSON values

    What [json.loads] answers.  A number is kept as the text that was
    matched; an object is the [dict] of its pairs. *)

#[warnings="-register-all"] Inductive json : Type :=
  | JNull
  | JBool (b : bool)
  | JNumber (literal : string)
  | JString (s : string)
  | JArray (items : list json)
  | JObject (fields : dict json).

(** ** [json.loads]

    The decoder of Python's [json] module, as its scanner reads a [str]: of
    two equal keys of an object the first keeps its place and the last its
    value.  [fuel] bounds the nesting of values and the number of items of a
    container; [json_loads] gives one more than the length of the text. *)

Definition dquote : ascii := ascii_of_N 34.

Definition is_json_space (c : ascii) : bool :=
  bool_decide (c = " "%char) || (N_of_ascii c =? 9)%N || (N_of_ascii c =? 10)%N || (N_of_ascii c =? 13)%N.

Fixpoint skip_space (s : string) : string :=
  match s with
  | String c s' => if is_json_space c then skip_space s' else s
  | EmptyString => EmptyString
  end.

Definition is_digit (c : ascii) : bool := ((48 <=? N_of_ascii c) && (N_of_ascii c <=? 57))%N.

Definition hex_digit (c : ascii) : option N :=
  let n := N_of_ascii c in
  if ((48 <=? n) && (n <=? 57))%N then Some (n - 48)%N
  else if ((65 <=? n) && (n <=? 70))%N then Some (n - 55)%N
  else if ((97 <=? n) && (n <=? 102))%N then Some (n - 87)%N
  else None.

(** The digits [s] starts with, and what follows them. *)
Fixpoint span_digits (s : string) : string * string :=
  match s with
  | String c s' =>
      if is_digit c then let '(ds, rest) := span_digits s' in (String c ds, rest)
      else (EmptyString, s)
  | EmptyString => (EmptyString, EmptyString)
  end.

(** [NUMBER_RE]: an optional minus sign, then a zero or a digit run that does
    not start with zero, then optionally a point and digits, then optionally
    an exponent (e or E, an optional sign, digits); the longest match at the
    start of [s]. *)
Definition scan_int (s : string) : option (string * string) :=
  match s with
  | String "0" rest => Some ("0", rest)
  | String c _ => if is_digit c then Some (span_digits s) else None
  | EmptyString => None
  end.

Definition scan_frac (s : string) : string * string :=
  match s with
  | String "." rest =>
      match span_digits rest with
      | (EmptyString, _) => (EmptyString, s)
      | (ds, rest') => (String "." ds, rest')
      end
  | _ => (EmptyString, s)
  end.

Definition scan_exp (s : string) : string * string :=
  match s with
  | String e rest =>
      if bool_decide (e = "e"%char) || bool_decide (e = "E"%char) then
        let '(sign, rest1) :=
          match rest with
          | String "+" r => ("+", r)
          | String "-" r => ("-", r)
          | _ => (EmptyString, rest)
          end in
        match span_digits rest1 with
        | (EmptyString, _) => (EmptyString, s)
        | (ds, rest') => (String e (sign +:+ ds), rest')
        end
      else (EmptyString, s)
  | EmptyString => (EmptyString, s)
  end.

Definition scan_number (s : string) : option (string * string) :=
  let '(sign, s1) := match s with String "-" r => ("-", r) | _ => (EmptyString, s) end in
  '(int, s2) ← scan_int s1;
  let '(frac, s3) := scan_frac s2 in
  let '(exp, s4) := scan_exp s3 in
  Some (sign +:+ int +:+ frac +:+ exp, s4).

(** [py_scanstring], after the opening quote, in strict mode.  A [\uXXXX]
    above 255 names a character the strings of this model do not have; the
    answer is [None] there. *)
Fixpoint scan_string (s : string) : option (string * string) :=
  match s with
  | String c rest =>
      if decide (c = dquote) then Some (EmptyString, rest)
      else if decide (c = "\"%char) then
        match rest with
        | String e rest =>
            let continue (c : ascii) (rest : option (string * string)) :=
              '(body, rest') ← rest; Some (String c body, rest') in
            if decide (e = dquote) then continue dquote (scan_string rest)
            else
              match e with
              | "\"%char => continue "\"%char (scan_string rest)
              | "/"%char => continue "/"%char (scan_string rest)
              | "b"%char => continue (ascii_of_N 8) (scan_string rest)
              | "f"%char => continue (ascii_of_N 12) (scan_string rest)
              | "n"%char => continue (ascii_of_N 10) (scan_string rest)
              | "r"%char => continue (ascii_of_N 13) (scan_string rest)
              | "t"%char => continue (ascii_of_N 9) (scan_string rest)
              | "u"%char =>
                  match rest with
                  | String h1 (String h2 (String h3 (String h4 rest'))) =>
                      a ← hex_digit h1; b ← hex_digit h2; c ← hex_digit h3; d ← hex_digit h4;
                      let n := (((a * 16 + b) * 16 + c) * 16 + d)%N in
                      if (n <? 256)%N then continue (ascii_of_N n) (scan_string rest')
                      else None
                  | _ => None
                  end
              | _ => None
              end
        | EmptyString => None
        end
      else if (N_of_ascii c <? 32)%N then None
      else '(body, rest') ← scan_string rest; Some (String c body, rest')
  | EmptyString => None
  end.

Section Containers.
(** [scan_once] for the values inside a container. *)
Variable scan_once : string -> option (json * string).

(** [JSONArray], after the first value's position is reached. *)
Fixpoint scan_items (fuel : nat) (s : string) : option (list json * string) :=
  match fuel with
  | S fuel' =>
      '(v, rest) ← scan_once s;
      match skip_space rest with
      | String "]" rest' => Some ([v], rest')
      | String "," rest' =>
          '(vs, rest'') ← scan_items fuel' (skip_space rest'); Some (v :: vs, rest'')
      | _ => None
      end
  | O => None
  end.

Definition scan_array (fuel : nat) (s : string) : option (json * string) :=
  match skip_space s with
  | String "]" rest => Some (JArray [], rest)
  | s' => '(vs, rest) ← scan_items fuel s'; Some (JArray vs, rest)
  end.

(** [JSONObject], at the quote that opens a key. *)
Fixpoint scan_pairs (fuel : nat) (s : string) : option (list (string * json) * string) :=
  match fuel, s with
  | S fuel', String q rest =>
      if decide (q = dquote) then
        '(key, rest) ← scan_string rest;
        match skip_space rest with
        | String ":" rest =>
            '(v, rest) ← scan_once (skip_space rest);
            match skip_space rest with
            | String "}" rest' => Some ([(key, v)], rest')
            | String "," rest' =>
                '(kvs, rest'') ← scan_pairs fuel' (skip_space rest');
                Some ((key, v) :: kvs, rest'')
            | _ => None
            end
        | _ => None
        end
      else None
  | _, _ => None
  end.

Definition scan_object (fuel : nat) (s : string) : option (json * string) :=
  match skip_space s with
  | String "}" rest => Some (JObject [], rest)
  | s' => '(kvs, rest) ← scan_pairs fuel s'; Some (JObject (dict_of_items kvs), rest)
  end.
End Containers.

Definition scan_literal (word : string) (v : json) (s : string) : option (json * string) :=
  (fix go (w s : string) : option (json * string) :=
     match w, s with
     | EmptyString, _ => Some (v, s)
     | String a w', String b s' => if decide (a = b) then go w' s' else None
     | _, _ => None
     end) word s.

(** [scan_once]: the value that starts at the first character of [s]. *)
Fixpoint scan_once (fuel : nat) (s : string) : option (json * string) :=
  match fuel with
  | S fuel' =>
      match s with
      | String "{" rest => scan_object (scan_once fuel') fuel' rest
      | String "[" rest => scan_array (scan_once fuel') fuel' rest
      | String "n" _ => scan_literal "null" JNull s
      | String "t" _ => scan_literal "true" (JBool true) s
      | String "f" _ => scan_literal "false" (JBool false) s
      | String "N" _ => scan_literal "NaN" (JNumber "NaN") s
      | String "I" _ => scan_literal "Infinity" (JNumber "Infinity") s
      | String c rest =>
          if decide (c = dquote) then
            '(body, rest') ← scan_string rest; Some (JString body, rest')
          else
            match scan_number s with
            | Some (lit, rest) => Some (JNumber lit, rest)
            | None => scan_literal "-Infinity" (JNumber "-Infinity") s
            end
      | EmptyString => None
      end
  | O => None
  end.

(** [json.loads(s)]: one value, white space around it, nothing else. *)
Definition json_loads (s : string) : option json :=
  '(v, rest) ← scan_once (S (String.length s)) (skip_space s);
  match skip_space rest with
  | EmptyString => Some v
  | _ => None
  end.

(** The lines of the examples below are written with ['] where the file
    has the double quote. *)
Fixpoint jsonl (s : string) : string :=
  match s with
  | String c s' => String (if decide (c = "'"%char) then dquote else c) (jsonl s')
  | EmptyString => EmptyString
  end.

(** ** Records

    One line of the uploaded file is a JSON object
    [{"id": .., "context": .., "question": .., "piis": {value: {"type": ..,
    "relevance": ..}}}].  The script reads and writes the fields [context],
    [question] and [piis]; [id] and whatever else the object holds stay as
    they are ([others]).  Of an annotation it reads [type] and [relevance];
    what else an annotation of the file holds ([more]) stays until the
    script builds the annotation anew. *)

Record info := MkInfo {
  type : string;
  relevance : string;
  more : dict json;
}.

(** [{"type": t, "relevance": r}], the dict the script builds. *)
Definition Info (t r : string) : info := MkInfo t r [].

Record entry := Entry {
  others : dict json;
  context : string;
  question : string;
  piis : dict info;
}.

(** [entry["context"] = v], [entry["question"] = v], [entry["piis"] = d] *)
Definition set_context (v : string) (e : entry) : entry :=
  Entry (others e) v (question e) (piis e).
Definition set_question (v : string) (e : entry) : entry :=
  Entry (others e) (context e) v (piis e).
Definition set_piis (d : dict info) (e : entry) : entry :=
  Entry (others e) (context e) (question e) d.

(** *** Reading a JSON value as a record

    [json.loads] answers any JSON value and the script never checks what it
    got.  A value that has the shape of a record is followed field by field,
    as an [entry] ([Rec]); any other value is kept as it is ([Raw]). *)

Definition as_string (j : json) : option string :=
  match j with JString s => Some s | _ => None end.

Definition as_object (j : json) : option (dict json) :=
  match j with JObject fields => Some fields | _ => None end.

(** An object with a string [type] and a string [relevance]; the script reads
    no other field of it, and what else it holds is kept ([more]). *)
Definition as_info (j : json) : option info :=
  fields ← as_object j;
  t ← dict_get "type" fields ≫= as_string;
  r ← dict_get "relevance" fields ≫= as_string;
  Some (MkInfo t r (filter (fun kv => kv.1 ∉ ["type"; "relevance"]) fields)).

Definition as_piis (j : json) : option (dict info) :=
  fields ← as_object j;
  guard (NoDup (dict_keys fields));;
  mapM (fun kv => v ← as_info kv.2; Some (kv.1, v)) fields.

(** A record: an object with a string [context], a string [question] and a
    [piis] of the shape above; the other fields are kept. *)
Definition as_entry (j : json) : option entry :=
  fields ← as_object j;
  c ← dict_get "context" fields ≫= as_string;
  q ← dict_get "question" fields ≫= as_string;
  p ← dict_get "piis" fields ≫= as_piis;
  Some (Entry (filter (fun kv => kv.1 ∉ ["context"; "question"; "piis"]) fields) c q p).

Inductive pyobj : Type :=
  | Rec (e : entry)
  | Raw (j : json).

Definition pyobj_of_json (j : json) : pyobj :=
  match as_entry j with
  | Some e => Rec e
  | None => Raw j
  end.

(** ** [str.splitlines]

    The line boundaries of a [str] below code point 256: LF, VT, FF, CR (a CR
    and the LF after it are one boundary), FS, GS, RS and NEL.  A boundary
    ends a line; the text after the last one is a line when it is not
    empty. *)
Definition is_linebreak (c : ascii) : bool :=
  let n := N_of_ascii c in
  ((10 <=? n) && (n <=? 13) || (28 <=? n) && (n <=? 30) || (n =? 133))%N.

Fixpoint splitlines (s : string) : list string :=
  match s with
  | String c s' =>
      if is_linebreak c then
        match s' with
        | String c' _ =>
            if ((N_of_ascii c =? 13) && (N_of_ascii c' =? 10))%N then splitlines s'
            else EmptyString :: splitlines s'
        | EmptyString => [EmptyString]
        end
      else
        match splitlines s' with
        | line :: lines => String c line :: lines
        | [] => [String c EmptyString]
        end
  | EmptyString => []
  end.

(** ** [json.dumps(v, ensure_ascii=False)]

    The encoder of Python's [json] module with its default separators
    [", "] and [": "]. *)

(** One hexadecimal digit, in lower case. *)
Definition hex_char (n : N) : ascii :=
  if (n <? 10)%N then ascii_of_N (48 + n) else ascii_of_N (87 + n).

(** [ESCAPE_DCT]: the quote, the backslash and the characters below 32. *)
Definition escape_char (c : ascii) : string :=
  let n := N_of_ascii c in
  if decide (c = dquote) then String "\" (String dquote EmptyString)
  else if decide (c = "\"%char) then "\\"
  else if (n =? 8)%N then "\b"
  else if (n =? 12)%N then "\f"
  else if (n =? 10)%N then "\n"
  else if (n =? 13)%N then "\r"
  else if (n =? 9)%N then "\t"
  else if (n <? 32)%N then
    "\u00" +:+ String (hex_char (n / 16)) (String (hex_char (n mod 16)) EmptyString)
  else String c EmptyString.

Fixpoint escape (s : string) : string :=
  match s with
  | String c s' => escape_char c +:+ escape s'
  | EmptyString => EmptyString
  end.

(** [encode_basestring(s)] *)
Definition dumps_string (s : string) : string :=
  String dquote (escape s +:+ String dquote EmptyString).

(** A number that [json.loads] read as a [float]: its text has a fraction or
    an exponent. *)
Definition is_float_literal (lit : string) : bool :=
  existsb (fun c => bool_decide (c = "."%char) || bool_decide (c = "e"%char)
                    || bool_decide (c = "E"%char))
          (String.list_ascii_of_string lit).

Section Dumps.
(** [float.__repr__] of the float a literal denotes. *)
Variable float_repr : string -> string.

(** [int.__repr__], [float.__repr__], and the three names the encoder has
    for the floats that are no numbers. *)
Definition dumps_number (lit : string) : string :=
  if bool_decide (lit ∈ ["NaN"; "Infinity"; "-Infinity"]) then lit
  else if is_float_literal lit then float_repr lit
  else if decide (lit = "-0") then "0"
  else lit.

Fixpoint json_dumps (j : json) : string :=
  match j with
  | JNull => "null"
  | JBool true => "true"
  | JBool false => "false"
  | JNumber lit => dumps_number lit
  | JString s => dumps_string s
  | JArray items => "[" +:+ String.concat ", " (map json_dumps items) +:+ "]"
  | JObject fields =>
      "{" +:+ String.concat ", "
                (map (fun kv => dumps_string kv.1 +:+ ": " +:+ json_dumps kv.2) fields)
          +:+ "}"
  end.

(** The [data] of the download button: ["\n".join(json.dumps(e, ensure_ascii=
    False) for e in entries)], [entries] being the JSON values [js]. *)
Definition download_data (js : list json) : string :=
  String.concat (String (ascii_of_N 10) EmptyString) (map json_dumps js).

End Dumps.

(* ===================================================================== *)
(** * Part 2: the utility functions                                       *)
(* ===================================================================== *)

(** ** [highlight_pii] *)

(** [key=lambda x: -len(x[0])] *)
Definition sort_key (x : string * info) : Z := - Z.of_nat (String.length x.1).

(** [sorted(items, key=sort_key)] is a stable sort: an item goes in front of
    the first item whose key is not smaller than its own, so items of equal
    key keep the order they had. *)
Fixpoint sorted_insert (x : string * info) (l : list (string * info)) : list (string * info) :=
  match l with
  | y :: l' => if sort_key x <=? sort_key y then x :: l else y :: sorted_insert x l'
  | [] => [x]
  end.

Definition sorted_by_key (l : list (string * info)) : list (string * info) :=
  foldr sorted_insert [] l.

(** The f-string of the loop body. *)
Definition span (color pii : string) : string :=
  "<span style='background-color:" +:+ color
    +:+ "; color:white; padding:2px 4px; border-radius:4px'>" +:+ pii +:+ "</span>".

(** One turn of the loop: [text = text.replace(pii, f"<span ..>{pii}</span>")]. *)
Definition highlight_one (text : string) (x : string * info) : string :=
  let color := if decide (relevance x.2 = "high") then "#4a90e2" else "#ffa726" in
  str_replace x.1 (span color x.1) text.

Definition highlight_pii (text : string) (piis : dict info) : string :=
  fold_left highlight_one (sorted_by_key piis) text.

(** ** [refresh_pii_from_context]

    The function writes [entry["piis"]] in place and returns [entry]; here it
    maps the old content of the record to the new one (Part 3 stores it back
    at the same address). *)
Definition refresh_pii_from_context (e : entry) : entry :=
  let ctx := context e in
  set_piis (dict_of_items (filter (fun kv => str_in kv.1 ctx = true) (piis e))) e.

(** ** [save_current_edits], on the content of the record

    [W] is the widget part of the session state: [W !! k] is
    [st.session_state.get(k)].  The keys are the f-strings of the source. *)

Definition context_key (idx : Z) : string := "context_" +:+ str_of_int idx.
Definition question_key (idx : Z) : string := "question_" +:+ str_of_int idx.
Definition type_key (idx : Z) (pii : string) : string :=
  "type_" +:+ str_of_int idx +:+ "_" +:+ pii.
Definition rel_key (idx : Z) (pii : string) : string :=
  "rel_" +:+ str_of_int idx +:+ "_" +:+ pii.

(** One turn of the loop over [entry["piis"].items()]. *)
Definition save_pii (W : gmap string string) (idx : Z)
    (updated_piis : dict info) (x : string * info) : dict info :=
  let t_key := type_key idx x.1 in
  let r_key := rel_key idx x.1 in
  let new_type := default (type x.2) (W !! t_key) in
  let new_rel := default (relevance x.2) (W !! r_key) in
  dict_set x.1 (Info new_type new_rel) updated_piis.

Definition save_entry (W : gmap string string) (idx : Z) (e : entry) : entry :=
  let e := set_context (default (context e) (W !! context_key idx)) e in
  let e := set_question (default (question e) (W !! question_key idx)) e in
  let updated_piis := fold_left (save_pii W idx) (piis e) [] in
  set_piis updated_piis e.

(** ** The body of the "Add PII" branch, on the content of the record:
    [entry["piis"][pii_val] = {..}] and then [refresh_pii_from_context]. *)
Definition add_pii_entry (pii_val new_pii_type new_pii_rel : string) (e : entry) : entry :=
  refresh_pii_from_context
    (set_piis (dict_set pii_val (Info new_pii_type new_pii_rel) (piis e)) e).

(* ===================================================================== *)
(** * Part 3: the script                                                  *)
(* ===================================================================== *)

(** ** The heap, the session state and what a run shows

    The dicts of the records are objects: [entries[idx]], the local [entry]
    and the element of [st.session_state.entries] are one object, written in
    place.  The heap is the list of the objects allocated so far and an
    address is a position in it.  A list of records is the list of their
    addresses; the script never changes which addresses a list holds
    ([entries[idx] = entry] stores back the address it read), so the list
    itself is a value.  So is what a record holds under its fields: the
    dicts below a record are reached through that record only ([json.loads]
    and [copy.deepcopy] build them anew for every record, and
    [save_current_edits] and [refresh_pii_from_context] put a new dict under
    [piis]). *)

Abbreviation loc := nat (only parsing).

(** [st.session_state]: the three attributes the script sets, and the values
    kept under the keys of the widgets.  The script reads and writes the keys
    [context_..], [question_..], [type_..] and [rel_..]; none of them is the
    name of an attribute. *)
Record session_state := SessionState {
  ss_entries : option (list loc);
  ss_original_entries : option (list loc);
  ss_current_idx : option Z;
  ss_widgets : gmap string string;
}.

(** What a run puts on the page, as far as the properties below need it. *)
Inductive output : Type :=
  | WarnEnterValue        (* st.warning("Please enter a PII value before adding.") *)
  | ErrNotInContext       (* st.error("The PII value does not appear in the context. ...") *)
  | AddedPII (pii_val : string) (* st.success(f"Added PII: {pii_val} and updated PII list.") *)
  | PIIsUpdated           (* st.success("PIIs updated to match context.") *)
  | Preview (html : string) (* the highlighted context *)
  | EditsSaved            (* st.success("Edits saved (in memory).") *)
  | ReadyForDownload      (* st.success("Edits saved and file ready for download.") *)
  | OriginalReloaded      (* st.success("Original data reloaded.") *)
  | WarnNoOriginal        (* st.warning("No original data found to restore.") *)
  | InfoUpload.           (* st.info("Upload a .jsonl file to begin annotation.") *)

Record world := World {
  heap : list pyobj;
  session : session_state;
  shown : list output;
}.

Definition empty_session : session_state := SessionState None None None ∅.

(** The world of a fresh browser session. *)
Definition initial_world : world := World [] empty_session [].

(** ** The monad of a script run

    A run changes the world and ends normally, with [st.rerun()], or with an
    exception; what was written before a rerun or an exception stays
    written. *)

Inductive exn : Type :=
  | JSONDecodeError       (* json.loads on a line that is not JSON *)
  | IndexError            (* entries[idx] out of range *)
  | AttributeError        (* st.session_state.<name> that is not set *)
  | KeyError              (* st.session_state[key] that is not set *)
  | ShapeError            (* a field read on a [Raw] object: the KeyError or
                             TypeError Python raises at this read or a later one *)
  | DanglingAddress.      (* no Python counterpart: an address outside the heap *)

Inductive outcome (A : Type) : Type :=
  | Done (a : A)
  | Rerun
  | Raised (e : exn).
Arguments Done {A} a.
Arguments Rerun {A}.
Arguments Raised {A} e.

Definition M (A : Type) : Type := world -> outcome A * world.

#[export] Instance M_ret : MRet M := fun A a w => (Done a, w).

#[export] Instance M_bind : MBind M := fun A B f m w =>
  match m w with
  | (Done a, w') => f a w'
  | (Rerun, w') => (Rerun, w')
  | (Raised e, w') => (Raised e, w')
  end.

Definition raise {A} (e : exn) : M A := fun w => (Raised e, w).

(** [st.rerun()] *)
Definition rerun : M unit := fun w => (Rerun, w).

Definition get_session : M session_state := fun w => (Done (session w), w).

Definition put_session (ss : session_state) : M unit :=
  fun w => (Done tt, World (heap w) ss (shown w)).

Definition get_heap : M (list pyobj) := fun w => (Done (heap w), w).

Definition put_heap (h : list pyobj) : M unit :=
  fun w => (Done tt, World h (session w) (shown w)).

Definition show (o : output) : M unit :=
  fun w => (Done tt, World (heap w) (session w) (shown w ++ [o])).

Definition when (b : bool) (m : M unit) : M unit := if b then m else mret tt.

Definition from_option {A} (e : exn) (o : option A) : M A :=
  match o with Some a => mret a | None => raise e end.

(** *** Session state *)

(** [st.session_state.entries = v] and its two siblings. *)
Definition set_entries (v : list loc) : M unit :=
  ss ← get_session;
  put_session (SessionState (Some v) (ss_original_entries ss) (ss_current_idx ss) (ss_widgets ss)).

Definition set_original_entries (v : list loc) : M unit :=
  ss ← get_session;
  put_session (SessionState (ss_entries ss) (Some v) (ss_current_idx ss) (ss_widgets ss)).

Definition set_current_idx (v : Z) : M unit :=
  ss ← get_session;
  put_session (SessionState (ss_entries ss) (ss_original_entries ss) (Some v) (ss_widgets ss)).

(** [st.session_state.entries] and its two siblings, read. *)
Definition read_entries : M (list loc) :=
  ss ← get_session; from_option AttributeError (ss_entries ss).

Definition read_current_idx : M Z :=
  ss ← get_session; from_option AttributeError (ss_current_idx ss).

(** [st.session_state.clear()] *)
Definition clear_session : M unit := put_session empty_session.

(** [st.session_state[key]] *)
Definition read_widget (key : string) : M string :=
  ss ← get_session; from_option KeyError (ss_widgets ss !! key).

(** [st.session_state[key] = v] *)
Definition set_widget (key v : string) : M unit :=
  ss ← get_session;
  put_session (SessionState (ss_entries ss) (ss_original_entries ss)
                 (ss_current_idx ss) (<[key := v]> (ss_widgets ss))).

(** [if key not in st.session_state: st.session_state[key] = v] *)
Definition init_widget (key v : string) : M unit :=
  ss ← get_session;
  match ss_widgets ss !! key with
  | Some _ => mret tt
  | None =>
      put_session (SessionState (ss_entries ss) (ss_original_entries ss)
                     (ss_current_idx ss) (<[key := v]> (ss_widgets ss)))
  end.

(** *** Lists and the heap *)

(** The position [l[i]] reads and writes: Python counts a negative index
    from the end. *)
Definition py_index (n : nat) (i : Z) : option nat :=
  let len := Z.of_nat n in
  if bool_decide (0 <= i < len) then Some (Z.to_nat i)
  else if bool_decide (- len <= i < 0) then Some (Z.to_nat (len + i))
  else None.

(** [l[i]] *)
Definition list_getitem {A} (l : list A) (i : Z) : M A :=
  from_option IndexError (py_index (length l) i ≫= (l !!.)).

(** [l[i] = x], the list after it. *)
Definition list_setitem {A} (l : list A) (i : Z) (x : A) : M (list A) :=
  k ← from_option IndexError (py_index (length l) i);
  mret (<[k := x]> l).

Definition heap_get (a : loc) : M pyobj :=
  h ← get_heap; from_option DanglingAddress (h !! a).

Definition heap_set (a : loc) (o : pyobj) : M unit :=
  h ← get_heap; put_heap (<[a := o]> h).

(** A new object: it goes to the end of the heap. *)
Definition heap_alloc (o : pyobj) : M loc :=
  h ← get_heap; put_heap (h ++ [o]);; mret (length h).

(** The record at an address, when the script reads a field of it.  The
    model follows the script on records.  On any other object it ends the
    run here, with [ShapeError] and nothing written.  That is what the script
    does on an object that has no [context], the first field every path
    reads.  On an object that has a [context] and is no record the script
    gets further before it raises (it sets the key of the context field, and
    [save_current_edits] writes the context it read), and the model does not
    follow it there: the properties that speak of such objects are stated
    for objects without a [context]. *)
Definition get_record (a : loc) : M entry :=
  o ← heap_get a;
  match o with
  | Rec e => mret e
  | Raw _ => raise ShapeError
  end.

(** [copy.deepcopy(l)] of a list of records: a new object for each. *)
Fixpoint deepcopy (l : list loc) : M (list loc) :=
  match l with
  | a :: l' =>
      o ← heap_get a;
      a' ← heap_alloc o;
      l'' ← deepcopy l';
      mret (a' :: l'')
  | [] => mret []
  end.

(** ** [save_current_edits(idx, entries)]

    The record [entries[idx]] is rewritten in place; the last two lines store
    the same address and the same list back. *)
Definition save_current_edits (idx : Z) (entries : list loc) : M unit :=
  entry ← list_getitem entries idx;
  e ← get_record entry;
  ss ← get_session;
  heap_set entry (Rec (save_entry (ss_widgets ss) idx e));;
  entries ← list_setitem entries idx entry;
  set_entries entries.

(** ** What the user did to start the run

    At most one button is down in a run.  What the number field of "Go" and
    the three inputs of "Add PII" return in that run travels with the
    click. *)
Inductive click : Type :=
  | NoClick
  | Previous
  | Go (goto : Z)
  | Next
  | AddPII (new_pii_val new_pii_type new_pii_rel : string)
  | UpdatePII
  | SaveEdits
  | Download
  | LoadOriginal.

#[export] Instance click_eq_dec : EqDecision click.
Proof. solve_decision. Defined.

(** [st.button(label, disabled=d)]: true in the run the click started, and
    never for a disabled button. *)
Definition button (c label : click) (disabled : bool) : bool :=
  bool_decide (c = label) && negb disabled.

(** [st.number_input(min_value=lo, max_value=hi, value=v)]: the number the
    user left in the field.  The widget takes no number outside its bounds:
    it answers [v] then, as it does when the field was not touched. *)
Definition number_input (lo hi v : Z) (c : click) : Z :=
  match c with
  | Go goto => if bool_decide (lo <= goto <= hi) then goto else v
  | _ => v
  end.

(** [PII_TYPES] *)
Definition PII_TYPES : list string :=
  ["age"; "contact"; "education"; "family"; "finance"; "health"; "location"; "name";
   "nationality"; "occupation"; "public organization"; "sexual orientation"].

(** [l.index(v)], for a [v] that is in [l]. *)
Fixpoint list_index (v : string) (l : list string) : nat :=
  match l with
  | x :: l' => if decide (x = v) then O else S (list_index v l')
  | [] => O
  end.

(** [PII_TYPES.index(v) if v in PII_TYPES else len(PII_TYPES)-1] *)
Definition type_index (v : string) : nat :=
  if bool_decide (v ∈ PII_TYPES) then list_index v PII_TYPES
  else (length PII_TYPES - 1)%nat.

(** [0 if v == "high" else 1] *)
Definition rel_index (v : string) : nat :=
  if decide (v = "high") then 0%nat else 1%nat.

Section Script.

(** The decoder the script calls as [json.loads]; [None] stands for the
    [JSONDecodeError].  The script is read with any decoder in this place;
    [json_loads] above is the one of the examples. *)
Variable loads : string -> option json.

(** *** Load *)

(** [[json.loads(line) for line in lines]]: the first line that does not
    decode ends the comprehension. *)
Fixpoint loads_lines (lines : list string) : M (list loc) :=
  match lines with
  | line :: lines' =>
      j ← from_option JSONDecodeError (loads line);
      a ← heap_alloc (pyobj_of_json j);
      l ← loads_lines lines';
      mret (a :: l)
  | [] => mret []
  end.

(** [uploaded_file] is [None] until a file is chosen; a chosen file is given
    by the lines of its text. *)
Definition load_block (uploaded_file : option (list string)) : M unit :=
  ss ← get_session;
  match uploaded_file with
  | Some lines =>
      when (negb (bool_decide (is_Some (ss_entries ss))))
        (entries ← loads_lines lines;
         copy1 ← deepcopy entries;
         set_entries copy1;;
         copy2 ← deepcopy entries;
         set_original_entries copy2;;
         set_current_idx 0)
  | None => mret tt
  end.

(** *** Navigation *)

Definition previous_button (c : click) (idx : Z) (entries : list loc) : M unit :=
  when (button c Previous (bool_decide (idx = 0)))
    (save_current_edits idx entries;;
     set_current_idx (Z.max 0 (idx - 1));;
     rerun).

Definition go_button (c : click) (idx : Z) (entries : list loc) : M unit :=
  let goto := number_input 1 (Z.of_nat (length entries)) (idx + 1) c in
  when (match c with Go _ => true | _ => false end)
    (save_current_edits idx entries;;
     set_current_idx (goto - 1);;
     rerun).

Definition next_button (c : click) (idx : Z) (entries : list loc) : M unit :=
  when (button c Next (bool_decide (idx = Z.of_nat (length entries) - 1)))
    (save_current_edits idx entries;;
     set_current_idx (Z.min (Z.of_nat (length entries) - 1) (idx + 1));;
     rerun).

(** *** Add new PII *)

Definition add_pii_button (c : click) (idx : Z) (entries : list loc) (entry : loc) : M unit :=
  match c with
  | AddPII new_pii_val new_pii_type new_pii_rel =>
      save_current_edits idx entries;;
      context_text ← read_widget (context_key idx);
      let pii_val := strip new_pii_val in
      if decide (pii_val = "") then show WarnEnterValue
      else if negb (str_in pii_val context_text) then show ErrNotInContext
      else
        e ← get_record entry;
        heap_set entry (Rec (add_pii_entry pii_val new_pii_type new_pii_rel e));;
        entries ← list_setitem entries idx entry;
        set_entries entries;;
        show (AddedPII pii_val);;
        rerun
  | _ => mret tt
  end.

(** *** Update PII list from context *)

Definition update_button (c : click) (idx : Z) (entries : list loc) (entry : loc) : M unit :=
  when (button c UpdatePII false)
    (save_current_edits idx entries;;
     e ← get_record entry;
     heap_set entry (Rec (refresh_pii_from_context e));;
     entries ← list_setitem entries idx entry;
     set_entries entries;;
     show PIIsUpdated;;
     rerun).

(** *** The widgets of the PII editor: the loop over [entry["piis"].items()] *)

(** [st.selectbox(label, options, index=i, key=key)], the session state
    holding a value under [key]: a value that is one of the options stays;
    any other gives way to [options[i]], in the session state too. *)
Definition selectbox (options : list string) (i : nat) (key : string) : M unit :=
  v ← read_widget key;
  when (negb (bool_decide (v ∈ options)))
    (o ← from_option IndexError (options !! i);
     set_widget key o).

Fixpoint init_pii_widgets (idx : Z) (items : list (string * info)) : M unit :=
  match items with
  | (pii, info) :: items' =>
      let t_key := type_key idx pii in
      let r_key := rel_key idx pii in
      init_widget t_key (type info);;
      init_widget r_key (relevance info);;
      t ← read_widget t_key;
      selectbox PII_TYPES (type_index t) t_key;;
      r ← read_widget r_key;
      selectbox ["high"; "low"] (rel_index r) r_key;;
      init_pii_widgets idx items'
  | [] => mret tt
  end.

(** *** Save, download, load original *)

Definition save_button (c : click) (idx : Z) (entries : list loc) : M unit :=
  when (button c SaveEdits false)
    (save_current_edits idx entries;;
     show EditsSaved).

(** The [data] argument of [st.download_button] is computed in every run that
    gets this far, and computing it saves the edits; the text itself is not
    modelled. *)
Definition download_button (c : click) : M unit :=
  idx ← read_current_idx;
  entries ← read_entries;
  save_current_edits idx entries;;
  when (button c Download false) (show ReadyForDownload).

Definition load_original_button (c : click) : M unit :=
  when (button c LoadOriginal false)
    (ss ← get_session;
     match ss_original_entries ss with
     | Some original_entries =>
         original ← deepcopy original_entries;
         clear_session;;
         copy1 ← deepcopy original;
         set_entries copy1;;
         copy2 ← deepcopy original;
         set_original_entries copy2;;
         set_current_idx 0;;
         show OriginalReloaded;;
         rerun
     | None => show WarnNoOriginal
     end).

(** *** The script, top to bottom *)

(** The page of the record [entry = entries[idx]]: everything below
    [entry = entries[idx]]. *)
Definition page_body (c : click) (idx : Z) (entries : list loc) (entry : loc) : M unit :=
  previous_button c idx entries;;
  go_button c idx entries;;
  next_button c idx entries;;
  e ← get_record entry;
  init_widget (context_key idx) (context e);;
  add_pii_button c idx entries entry;;
  update_button c idx entries entry;;
  e ← get_record entry;
  show (Preview (highlight_pii (context e) (piis e)));;
  init_widget (question_key idx) (question e);;
  init_pii_widgets idx (piis e);;
  save_button c idx entries;;
  download_button c;;
  load_original_button c.

(** Everything below the load block. *)
Definition page (c : click) : M unit :=
  ss ← get_session;
  if bool_decide (is_Some (ss_entries ss)) then
    entries ← read_entries;
    idx ← read_current_idx;
    entry ← list_getitem entries idx;
    page_body c idx entries entry
  else
    show InfoUpload.

Definition script (uploaded_file : option (list string)) (c : click) : M unit :=
  load_block uploaded_file;;
  page c.

(** ** Streamlit around the script

    Between two runs the front end writes the values of the widgets the user
    touched, and Streamlit drops the keys of widgets the last run did not
    draw: the widget part of the session state changes, nothing else does.
    A click runs the script on a cleared page; [st.rerun()] stops the run and
    starts another, with no button down. *)

Inductive event : Type :=
  | Widgets (values : gmap string string)
  | Run (uploaded_file : option (list string)) (c : click).

Definition clear_page (w : world) : world := World (heap w) (session w) [].

Definition set_widgets (values : gmap string string) (w : world) : world :=
  World (heap w)
        (SessionState (ss_entries (session w)) (ss_original_entries (session w))
                      (ss_current_idx (session w)) values)
        (shown w).

Definition run (uploaded_file : option (list string)) (c : click) (w : world) : world :=
  match script uploaded_file c (clear_page w) with
  | (Rerun, w') => (script uploaded_file NoClick (clear_page w')).2
  | (_, w') => w'
  end.

Definition step (ev : event) (w : world) : world :=
  match ev with
  | Widgets values => set_widgets values w
  | Run uploaded_file c => run uploaded_file c w
  end.

(** The worlds a browser session can be in. *)
Inductive reachable : world -> Prop :=
  | reachable_initial : reachable initial_world
  | reachable_step ev w : reachable w -> reachable (step ev w).

End Script.

(* ===================================================================== *)
(** * Part 4: the vocabulary of the properties                            *)
(* ===================================================================== *)

(** [sub] is a literal substring of [s]. *)
Definition substring_of (sub s : string) : Prop :=
  exists pre post, s = pre +:+ sub +:+ post.

(** What the loop of [save_current_edits] makes of one item. *)
Definition saved_info (W : gmap string string) (idx : Z) (x : string * info) : string * info :=
  (x.1, Info (default (type x.2) (W !! type_key idx x.1))
             (default (relevance x.2) (W !! rel_key idx x.1))).

(** The order [sorted] leaves the items in: longer keys first. *)
Definition longer_first (x y : string * info) : Prop :=
  (String.length y.1 <= String.length x.1)%nat.

(** The items whose key has [n] characters. *)
Definition of_length (n : nat) (l : list (string * info)) : list (string * info) :=
  filter (fun x => String.length x.1 = n) l.

(** The record of the example: "Smith" goes into the dict before
    "John Smith". *)
Definition john_smith_piis : dict info :=
  [("Smith", Info "name" "high"); ("John Smith", Info "name" "high")].

Definition blue (pii : string) : string := span "#4a90e2" pii.

(** Only white space. *)
Definition all_space (s : string) : Prop :=
  Forall (fun c => is_space c = true) (String.list_ascii_of_string s).

(** The first, the last character is white space. *)
Definition first_is_space (s : string) : bool :=
  match s with
  | String c _ => is_space c
  | EmptyString => false
  end.

Fixpoint last_is_space (s : string) : bool :=
  match s with
  | String c EmptyString => is_space c
  | String _ s' => last_is_space s'
  | EmptyString => false
  end.

(** [entries[idx]] is the object at [a]. *)
Definition at_index (entries : list loc) (idx : Z) (a : loc) : Prop :=
  exists k, py_index (length entries) idx = Some k /\ entries !! k = Some a.

(** [entries[idx]] is the object at [a], and that object is the record [e]. *)
Definition record_at (w : world) (entries : list loc) (idx : Z) (a : loc) (e : entry) : Prop :=
  at_index entries idx a /\ heap w !! a = Some (Rec e).

(** The world after [save_current_edits(idx, entries)], [entries[idx]] being
    the record [e] at [a]. *)
Definition saved_world (idx : Z) (entries : list loc) (a : loc) (e : entry) (w : world) : world :=
  World (<[a := Rec (save_entry (ss_widgets (session w)) idx e)]> (heap w))
        (SessionState (Some entries) (ss_original_entries (session w))
                      (ss_current_idx (session w)) (ss_widgets (session w)))
        (shown w).

Definition with_current_idx (v : Z) (w : world) : world :=
  World (heap w)
        (SessionState (ss_entries (session w)) (ss_original_entries (session w))
                      (Some v) (ss_widgets (session w)))
        (shown w).

Definition with_shown (o : output) (w : world) : world :=
  World (heap w) (session w) (shown w ++ [o]).

Definition with_record (a : loc) (e : entry) (w : world) : world :=
  World (<[a := Rec e]> (heap w)) (session w) (shown w).

(** [hoare P m Q X]: from a world in [P], the run of [m] ends normally in a
    world in [Q a], [a] being its value, or it ends with a rerun or an
    exception in a world in [X]. *)
Definition hoare {A} (P : world -> Prop) (m : M A)
    (Q : A -> world -> Prop) (X : world -> Prop) : Prop :=
  forall w, P w ->
    match m w with
    | (Done a, w') => Q a w'
    | (_, w') => X w'
    end.

(** A command keeps [I] when every way it ends leaves the world in [I]. *)
Definition keeps {A} (I : world -> Prop) (m : M A) : Prop :=
  hoare I m (fun _ => I) I.

(** [frame entries w0 w]: since [w0] the list of records is [entries], the
    original list is the one of [w0], the heap differs from the heap of [w0]
    at most at the addresses of [entries], and the warning about missing
    original data was not shown. *)
Definition frame (entries : list loc) (w0 w : world) : Prop :=
  ss_entries (session w) = Some entries /\
  ss_original_entries (session w) = ss_original_entries (session w0) /\
  length (heap w) = length (heap w0) /\
  (forall b, b ∉ entries -> heap w !! b = heap w0 !! b) /\
  (WarnNoOriginal ∈ shown w -> WarnNoOriginal ∈ shown w0).

(** The objects at the addresses [l] are [rs]. *)
Definition contents (w : world) (l : list loc) (rs : list pyobj) : Prop :=
  Forall2 (fun a r => heap w !! a = Some r) l rs.

Definition with_heap (h : list pyobj) (w : world) : world :=
  World h (session w) (shown w).

(** The world "Load Original" leaves: three copies of the original records
    were made, the second is the new list of records and the third the new
    original list; the session state holds nothing else. *)
Definition reloaded_world (rs : list pyobj) (w : world) : world :=
  let n := length (heap w) in
  let k := length rs in
  World (heap w ++ rs ++ rs ++ rs)
        (SessionState (Some (seq (n + k) k)) (Some (seq (n + k + k) k)) (Some 0) ∅)
        (shown w ++ [OriginalReloaded]).

(** [live_session rs w]: the session state holds a list of records and an
    original list, no record of the one is a record of the other, the
    original records are [rs], and the warning about missing original data is
    not on the page. *)
Definition live_session (rs : list pyobj) (w : world) : Prop :=
  exists es os,
    ss_entries (session w) = Some es /\
    ss_original_entries (session w) = Some os /\
    (forall a, a ∈ es -> a ∉ os) /\
    contents w os rs /\
    WarnNoOriginal ∉ shown w.

(** The world the load block leaves: the decoded lines [rs], a copy of them
    as the list of records and a second copy as the original list. *)
Definition loaded_world (rs : list pyobj) (w : world) : world :=
  let n := length (heap w) in
  let k := length rs in
  World (heap w ++ rs ++ rs ++ rs)
        (SessionState (Some (seq (n + k) k)) (Some (seq (n + k + k) k)) (Some 0)
                      (ss_widgets (session w)))
        (shown w).

(** No session yet: no list of records, and no warning about missing
    original data on the page. *)
Definition no_session (w : world) : Prop :=
  ss_entries (session w) = None /\ WarnNoOriginal ∉ shown w.

(** The worlds of a session that began with loading the records [rs]: the
    run that loaded them, and every step after it. *)
Inductive loaded_from (loads : string -> option json) (rs : list pyobj) : world -> Prop :=
  | loaded_first w lines js c :
      ss_entries (session w) = None ->
      mapM loads lines = Some js ->
      rs = pyobj_of_json <$> js ->
      loaded_from loads rs (step loads (Run (Some lines) c) w)
  | loaded_step ev w :
      loaded_from loads rs w -> loaded_from loads rs (step loads ev w).

(** In every world a session can be in there is no session yet or a live
    one. *)
Definition session_ok (w : world) : Prop :=
  no_session w \/ exists rs, live_session rs w.

(** [if key not in st.session_state: st.session_state[key] = v], on the
    widget values. *)
Definition init_value (key v : string) (W : gmap string string) : gmap string string :=
  match W !! key with
  | Some _ => W
  | None => <[key := v]> W
  end.

(** What a select box makes of the value [v] it finds under its key. *)
Definition selected (options : list string) (i : nat) (v : string) : string :=
  if bool_decide (v ∈ options) then v else default v (options !! i).

Definition selected_type (v : string) : string := selected PII_TYPES (type_index v) v.
Definition selected_rel (v : string) : string := selected ["high"; "low"] (rel_index v) v.

(** The select box of [key], its index computed by [index] from the value
    under the key, on the widget values. *)
Definition select_value (options : list string) (index : string -> nat) (key : string)
    (W : gmap string string) : gmap string string :=
  match W !! key with
  | Some v =>
      if bool_decide (v ∈ options) then W else <[key := selected options (index v) v]> W
  | None => W
  end.

(** One turn of the loop of the PII editor, on the widget values. *)
Definition pii_widget_value (idx : Z) (W : gmap string string) (x : string * info)
    : gmap string string :=
  select_value ["high"; "low"] rel_index (rel_key idx x.1)
    (select_value PII_TYPES type_index (type_key idx x.1)
       (init_value (rel_key idx x.1) (relevance x.2)
          (init_value (type_key idx x.1) (type x.2) W))).

Definition pii_widget_values (idx : Z) (items : list (string * info))
    (W : gmap string string) : gmap string string :=
  fold_left (pii_widget_value idx) items W.

(** The annotation a drawn page and the save of its values make of an
    annotation: type and relevance as the select boxes have them, and
    nothing else. *)
Definition shown_info (i : info) : info :=
  Info (selected_type (type i)) (selected_rel (relevance i)).

(** The record a drawn page and the save of its values make of a record no
    widget held a value for. *)
Definition drawn_entry (e : entry) : entry :=
  set_piis (prod_map id shown_info <$> piis e) e.

(** An annotation of the data model: a type of [PII_TYPES], the relevance
    "high" or "low", no other field. *)
Definition plain_info (i : info) : Prop :=
  type i ∈ PII_TYPES /\ relevance i ∈ ["high"; "low"] /\ more i = [].

Definition plain_entry (e : entry) : Prop := Forall plain_info (piis e).*2.

(** The widget values once the page of the record [e] is drawn. *)
Definition page_widgets (idx : Z) (e : entry) (W : gmap string string) : gmap string string :=
  pii_widget_values idx (piis e)
    (init_value (question_key idx) (question e)
       (init_value (context_key idx) (context e) W)).

(** The world after the script has drawn the page of the record [e] at [a]
    with no button down: the widgets have their values, and the [data] of the
    download button has saved them into the record. *)
Definition drawn_world (idx : Z) (entries : list loc) (a : loc) (e : entry) (w : world) : world :=
  let W := page_widgets idx e (ss_widgets (session w)) in
  World (<[a := Rec (save_entry W idx e)]> (heap w))
        (SessionState (Some entries) (ss_original_entries (session w)) (Some idx) W)
        (shown w ++ [Preview (highlight_pii (context e) (piis e))]).



(** The [piis] of a record object is a dict: no key twice. *)
Definition obj_wf (o : pyobj) : Prop :=
  match o with
  | Rec e => dict_wf (piis e)
  | Raw _ => True
  end.

(** ** An example session

    A file of two lines, and the worlds of a session that loads it. *)

Definition line0 : string :=
  jsonl "{'id': 'r0', 'context': 'John Smith lives in Smith', 'question': 'Where does John live?', 'piis': {'Smith': {'type': 'name', 'relevance': 'high'}, 'John Smith': {'type': 'name', 'relevance': 'high'}}}".

Definition line1 : string :=
  jsonl "{'context': 'Anna is 30', 'question': 'How old is Anna?', 'piis': {'30': {'type': 'age', 'relevance': 'low'}}}".

Definition record0 : entry :=
  Entry [("id", JString "r0")] "John Smith lives in Smith" "Where does John live?" john_smith_piis.

Definition record1 : entry :=
  Entry [] "Anna is 30" "How old is Anna?" [("30", Info "age" "low")].

(** The file is uploaded: the records are at the addresses 2 and 3, the
    original ones at 4 and 5, and the page of record 0 is drawn. *)
Definition example_world : world :=
  step json_loads (Run (Some [line0; line1]) NoClick) initial_world.

(** The user takes the family name out of the start of the context of
    record 0. *)
Definition edited_world : world :=
  step json_loads
    (Widgets (<[context_key 0 := "John lives in Smith"]>
                (ss_widgets (session example_world))))
    example_world.

(** Record 0 with that edit saved. *)
Definition record0_edited : entry :=
  Entry [("id", JString "r0")] "John lives in Smith" "Where does John live?" john_smith_piis.

(** The user clicks "Update PII list from context": the annotation
    "John Smith" is gone from record 0. *)
Definition updated_world : world :=
  step json_loads (Run (Some [line0; line1]) UpdatePII) edited_world.

(** A line that is JSON and has no [piis]. *)
Definition line_without_piis : string := jsonl "{'context': 'a', 'question': 'b'}".

Definition json_without_piis : json :=
  JObject [("context", JString "a"); ("question", JString "b")].

(** A line whose annotation has a type that is none of [PII_TYPES], a
    relevance that is neither "high" nor "low", and a third field. *)
Definition line_person : string :=
  jsonl "{'context': 'Anna is 30', 'question': 'How old is Anna?', 'piis': {'Anna': {'type': 'person', 'relevance': 'medium', 'note': 'x'}}}".

Definition record_person : entry :=
  Entry [] "Anna is 30" "How old is Anna?"
    [("Anna", MkInfo "person" "medium" [("note", JString "x")])].

(** What the select boxes and the save make of that record. *)
Definition record_person_drawn : entry :=
  Entry [] "Anna is 30" "How old is Anna?" [("Anna", Info "sexual orientation" "low")].

(** The world the load block leaves of that line, before the page is
    drawn, and the world after the run that loaded it. *)
Definition person_loaded : world := loaded_world [Rec record_person] initial_world.

Definition person_world : world :=
  step json_loads (Run (Some [line_person]) NoClick) initial_world.

(** ** How a run ends

    The vocabulary of Part 7. *)

(** A command that never ends with [st.rerun()]. *)
Definition no_rerun {A} (m : M A) : Prop := forall w, (m w).1 <> Rerun.

(** How the run a click starts ends: how the rerun ends, when the first pass
    asks for one. *)
Definition run_outcome (loads : string -> option json) (up : option (list string))
    (c : click) (w : world) : outcome unit :=
  match script loads up c (clear_page w) with
  | (Rerun, w') => (script loads up NoClick (clear_page w')).1
  | (o, _) => o
  end.

(** ** The index and the records of a session *)

(** The index is a position of a list of [n] records. *)
Definition idx_ok (n : nat) (w : world) : Prop :=
  exists idx, ss_current_idx (session w) = Some idx /\ 0 <= idx < Z.of_nat n.

(** The session holds [n] records and [n] original records, and the index
    is a position of the list of records. *)
Definition index_in_range (n : nat) (w : world) : Prop :=
  exists es os,
    ss_entries (session w) = Some es /\ ss_original_entries (session w) = Some os /\
    length es = n /\ length os = n /\ idx_ok n w.

(** The object is a record: the line it was decoded from has the three
    fields, of the types the script expects. *)
Definition is_record (o : pyobj) : Prop :=
  match o with Rec _ => True | Raw _ => False end.

(** Every address of [l] holds a record. *)
Definition records_at (l : list loc) (w : world) : Prop :=
  Forall (fun a => exists e, heap w !! a = Some (Rec e)) l.

(** What holds while the page of [entries[idx]] is drawn: the two lists and
    the index are the ones the run began with, and all their objects are
    records. *)
Definition page_inv (es os : list loc) (idx : Z) (w : world) : Prop :=
  ss_entries (session w) = Some es /\ ss_original_entries (session w) = Some os /\
  ss_current_idx (session w) = Some idx /\ records_at (es ++ os) w.

(** A session of [n] records, all of them records, the index in range. *)
Definition sound (n : nat) (w : world) : Prop :=
  exists es os idx,
    page_inv es os idx w /\ length es = n /\ length os = n /\ 0 <= idx < Z.of_nat n.

(** [safe P m Q R]: from a world in [P], [m] does not raise; it ends
    normally in [Q], or with a rerun in [R]. *)
Definition safe {A} (P : world -> Prop) (m : M A)
    (Q : A -> world -> Prop) (R : world -> Prop) : Prop :=
  forall w, P w ->
    match m w with
    | (Done a, w') => Q a w'
    | (Rerun, w') => R w'
    | (Raised _, _) => False
    end.

Definition has_context (idx : Z) (w : world) : Prop :=
  is_Some (ss_widgets (session w) !! context_key idx).

(** [steps loads w w']: the session goes from [w] to [w'] by widget changes
    and runs of the script. *)
Definition steps (loads : string -> option json) : relation world :=
  rtc (fun w w' => exists ev, w' = step loads ev w).

(** The session state but for the widget values, and the heap. *)
Definition same_records (w w' : world) : Prop :=
  heap w' = heap w /\
  ss_entries (session w') = ss_entries (session w) /\
  ss_original_entries (session w') = ss_original_entries (session w) /\
  ss_current_idx (session w') = ss_current_idx (session w).

(** ** The values a downloaded file gives back *)

Definition all_digits (s : string) : bool :=
  forallb is_digit (String.list_ascii_of_string s).

(** [0], or digits that do not start with [0]. *)
Definition nat_literal (s : string) : bool :=
  match s with
  | String c s' => if decide (c = "0"%char) then bool_decide (s' = "") else is_digit c && all_digits s'
  | EmptyString => false
  end.

(** The text [int.__repr__] gives: no [-0]. *)
Definition int_literal (lit : string) : bool :=
  match lit with
  | String c s' =>
      if decide (c = "-"%char) then nat_literal s' && negb (bool_decide (s' = "0"))
      else nat_literal lit
  | EmptyString => false
  end.

(** The limit of Python on the digits of an [int] it converts. *)
Definition max_str_digits : nat := 4300.

(** A value whose round trip the model accounts for: a number is [NaN],
    [Infinity], [-Infinity] or an [int], the keys of an object are pairwise
    different. *)
Fixpoint json_plain (j : json) : bool :=
  match j with
  | JNumber lit =>
      bool_decide (lit ∈ ["NaN"; "Infinity"; "-Infinity"])
      || int_literal lit && bool_decide (String.length lit <= max_str_digits)%nat
  | JArray items => forallb json_plain items
  | JObject fields =>
      bool_decide (NoDup (fields.*1)) && forallb (fun kv => json_plain kv.2) fields
  | _ => true
  end.

Definition has_nel (s : string) : bool :=
  existsb (fun c => (N_of_ascii c =? 133)%N) (String.list_ascii_of_string s).

(** No string and no key of the value holds the character NEL. *)
Fixpoint nel_free (j : json) : bool :=
  match j with
  | JString s => negb (has_nel s)
  | JArray items => forallb nel_free items
  | JObject fields => forallb (fun kv => negb (has_nel kv.1) && nel_free kv.2) fields
  | _ => true
  end.

(** What [scan_once] spends on a value: one for each level, and at each
    level one for each item. *)
Fixpoint cost (j : json) : nat :=
  match j with
  | JArray items => S (Nat.max (length items) (list_max (map cost items)))
  | JObject fields => S (Nat.max (length fields) (list_max (map (fun kv => cost kv.2) fields)))
  | _ => 1%nat
  end.

(** What can follow a value in the text of a container, or end the text. *)
Definition follows (rest : string) : bool :=
  match rest with
  | String c _ => bool_decide (c = ","%char) || bool_decide (c = "]"%char) || bool_decide (c = "}"%char)
  | EmptyString => true
  end.

(** The text of a value starts with a character that is no white space and
    closes no container. *)
Definition opens (s : string) : Prop :=
  match s with
  | String c _ => is_json_space c = false /\ c <> "]"%char /\ c <> "}"%char
  | EmptyString => False
  end.

Section DumpsText.
Variable float_repr : string -> string.

(** What the induction gives for a value: whatever follows, the scanner
    reads the value back. *)
Definition reads_back (once : string -> option (json * string)) (j : json) : Prop :=
  json_plain j = true /\
  forall rest, follows rest = true -> once (json_dumps float_repr j +:+ rest) = Some (j, rest).

(** The text of a field of an object. *)
Definition pair_text (kv : string * json) : string :=
  dumps_string kv.1 +:+ ": " +:+ json_dumps float_repr kv.2.

End DumpsText.

(** ** Texts and their lines *)

(** The characters of a text, in order. *)
Definition chars (s : string) : list ascii := String.list_ascii_of_string s.

(** No character of the text is a line boundary. *)
Fixpoint no_break (s : string) : bool :=
  match s with
  | String c s' => negb (is_linebreak c) && no_break s'
  | EmptyString => true
  end.

(** The line feed. *)
Definition newline : string := String (ascii_of_N 10) EmptyString.

(** The number of line boundaries of a text that has no CR. *)
Fixpoint breaks (s : string) : nat :=
  match s with
  | String c s' => ((if is_linebreak c then 1 else 0) + breaks s')%nat
  | EmptyString => O
  end.

(** No character of the text is a CR. *)
Fixpoint no_cr (s : string) : bool :=
  match s with
  | String c s' => negb (N_of_ascii c =? 13)%N && no_cr s'
  | EmptyString => true
  end.

(** The text is not empty and does not end with a line boundary. *)
Fixpoint ends_open (s : string) : bool :=
  match s with
  | String c EmptyString => negb (is_linebreak c)
  | String _ s' => ends_open s'
  | EmptyString => false
  end.

(** ** More examples *)

(** A line that is a JSON object and has no [context]. *)
Definition line_without_context : string := jsonl "{'question': 'b'}".

Definition json_without_context : json := JObject [("question", JString "b")].

(** The session after the upload of that line. *)
Definition blocked_world : world :=
  step json_loads (Run (Some [line_without_context]) NoClick) initial_world.

(** The JSON object of [line0]. *)
Definition json0 : json :=
  JObject [("id", JString "r0");
           ("context", JString "John Smith lives in Smith");
           ("question", JString "Where does John live?");
           ("piis", JObject [("Smith", JObject [("type", JString "name");
                                                ("relevance", JString "high")]);
                             ("John Smith", JObject [("type", JString "name");
                                                     ("relevance", JString "high")])])].

(** A record whose context holds the character NEL. *)
Definition json_nel : json :=
  JObject [("context", JString (String "a" (String (ascii_of_N 133) "b")));
           ("question", JString "q"); ("piis", JObject [])].

(* ===================================================================== *)
(** * Part 5: properties                                                  *)
(* ===================================================================== *)

(** ** Strings *)

#[local] Arguments String.append !_ _ / : simpl nomatch.

Lemma starts_with_spec p s : starts_with p s = true <-> exists post, s = p +:+ post.
Proof.
  revert s. induction p as [|a p IH]; intros s; simpl.
  - split; [intros _; by exists s | done].
  - destruct s as [|b s]; simpl.
    + split; [done | intros [post H]; discriminate].
    + destruct (decide (a = b)) as [->|Hne].
      * rewrite IH. split; intros [post H]; exists post; simpl in *; congruence.
      * split; [done | intros [post H]; simpl in H; congruence].
Qed.

Lemma str_in_spec sub s : str_in sub s = true <-> substring_of sub s.
Proof.
  unfold substring_of. induction s as [|c s IH].
  - simpl. rewrite orb_false_r, starts_with_spec. split.
    + intros [post H]. by exists "", post.
    + intros ([|a pre] & post & H); simpl in H; [by exists post | discriminate].
  - cbn [str_in]. rewrite orb_true_iff, starts_with_spec, IH. split.
    + intros [[post H] | (pre & post & H)].
      * by exists "", post.
      * exists (String c pre), post. simpl. by rewrite H.
    + intros ([|a pre] & post & H); simpl in H.
      * left. by exists post.
      * right. exists pre, post. congruence.
Qed.

(** *** [str.replace]: the scan does what the left-to-right reading of
    [s.replace(old, new)] says, for a non-empty [old]: at an occurrence of
    [old] the result is [new] followed by the replacement of what follows the
    occurrence; elsewhere the character is kept. *)

Lemma replace_scan_skip old new p rest :
  replace_scan old new (String.length p) (p +:+ rest) = replace_scan old new O rest.
Proof. induction p as [|c p IH]; [done|]. simpl. exact IH. Qed.

Lemma starts_with_app p rest : starts_with p (p +:+ rest) = true.
Proof. apply starts_with_spec. by exists rest. Qed.

Lemma str_replace_match old new rest :
  old <> "" -> str_replace old new (old +:+ rest) = new +:+ str_replace old new rest.
Proof.
  destruct old as [|c old']; [done|]. intros _. unfold str_replace.
  change (String c old' +:+ rest) with (String c (old' +:+ rest)).
  cbn [replace_scan].
  change (String c (old' +:+ rest)) with (String c old' +:+ rest).
  rewrite starts_with_app. cbn [String.length Nat.pred].
  by rewrite replace_scan_skip.
Qed.

Lemma str_replace_no_match old new c s :
  old <> "" -> starts_with old (String c s) = false ->
  str_replace old new (String c s) = String c (str_replace old new s).
Proof.
  destruct old as [|a old']; [done|]. intros _ H. unfold str_replace.
  cbn [replace_scan]. by rewrite H.
Qed.

(** *** [str.strip]: what is cut off is white space, and what is left has
    none at either end. *)

Lemma lstrip_spec s :
  exists l, s = l +:+ lstrip s /\ all_space l /\ first_is_space (lstrip s) = false.
Proof.
  induction s as [|c s (l & Hs & Hl & Hf)].
  - exists "". by repeat split; try constructor.
  - cbn [lstrip]. destruct (is_space c) eqn:Hc.
    + exists (String c l). split_and!; [simpl; congruence | by constructor | done].
    + exists "". split_and!; [done | constructor | done].
Qed.

Lemma rstrip_spec s :
  exists r, s = rstrip s +:+ r /\ all_space r /\ last_is_space (rstrip s) = false.
Proof.
  induction s as [|c s (r & Hs & Hr & Hl)].
  - exists "". by repeat split; try constructor.
  - cbn [rstrip]. destruct (rstrip s) as [|c' s'] eqn:Hrs.
    + destruct (is_space c) eqn:Hc.
      * exists (String c r). simpl in Hs. split_and!; [simpl; congruence | by constructor | done].
      * exists r. simpl in Hs. split_and!; [simpl; congruence | done | done].
    + exists r. simpl in Hs. split_and!; [simpl; congruence | done | done].
Qed.

Lemma rstrip_first s : first_is_space s = false -> first_is_space (rstrip s) = false.
Proof.
  destruct s as [|c s]; [done|]. cbn [first_is_space rstrip]. intros Hc.
  destruct (rstrip s); [by rewrite Hc | done].
Qed.

Lemma strip_spec s :
  exists l r,
    s = l +:+ strip s +:+ r /\ all_space l /\ all_space r /\
    first_is_space (strip s) = false /\ last_is_space (strip s) = false.
Proof.
  destruct (lstrip_spec s) as (l & Hs & Hl & Hf).
  destruct (rstrip_spec (lstrip s)) as (r & Hs' & Hr & Hlast).
  exists l, r. unfold strip. split_and!; [congruence | done | done | by apply rstrip_first | done].
Qed.

(** ** Dicts *)

Section Dict.
Context {V : Type}.
Implicit Types (d : dict V) (k : string) (v : V).

Lemma dict_set_fresh k v d : k ∉ dict_keys d -> dict_set k v d = d ++ [(k, v)].
Proof.
  unfold dict_keys. induction d as [|[k' v'] d IH]; simpl; [done|].
  rewrite not_elem_of_cons. intros [Hne Hd].
  rewrite decide_False by done. by rewrite IH.
Qed.

Lemma dict_keys_set k v d :
  dict_keys (dict_set k v d) = if decide (k ∈ dict_keys d) then dict_keys d else dict_keys d ++ [k].
Proof.
  unfold dict_keys. induction d as [|[k' v'] d IH].
  - rewrite decide_False; [done | apply not_elem_of_nil].
  - cbn [dict_set]. destruct (decide (k = k')) as [->|Hne].
    + rewrite decide_True; [done | rewrite fmap_cons; apply list_elem_of_here].
    + rewrite !fmap_cons, IH. cbn [fst].
      destruct (decide (k ∈ d.*1)) as [Hin|Hin].
      * rewrite decide_True; [done | by apply list_elem_of_further].
      * rewrite decide_False; [done | rewrite not_elem_of_cons; done].
Qed.

Lemma dict_set_wf k v d : dict_wf d -> dict_wf (dict_set k v d).
Proof.
  unfold dict_wf. rewrite dict_keys_set. case_decide; [done|].
  intros Hd. apply NoDup_app. split_and!; [done | | apply NoDup_singleton].
  intros x Hx Hx'. apply list_elem_of_singleton in Hx'. by subst.
Qed.

Lemma dict_get_set k k' v d :
  dict_get k' (dict_set k v d) = if decide (k' = k) then Some v else dict_get k' d.
Proof.
  induction d as [|[k0 v0] d IH]; simpl.
  - by destruct (decide (k' = k)).
  - destruct (decide (k = k0)) as [->|Hne]; simpl.
    + destruct (decide (k' = k0)); done.
    + rewrite IH. destruct (decide (k' = k0)) as [->|]; [|done].
      by rewrite decide_False.
Qed.

(** A loop of [d[k] = v] over items with pairwise different keys, none of
    them in [d] yet, appends the items. *)
Lemma fold_dict_set_fresh (items : list (string * V)) d :
  NoDup (items.*1) -> (forall k, k ∈ items.*1 -> k ∉ dict_keys d) ->
  fold_left (fun d kv => dict_set kv.1 kv.2 d) items d = d ++ items.
Proof.
  revert d. induction items as [|[k v] items IH]; intros d Hnd Hfresh; simpl.
  - by rewrite app_nil_r.
  - apply NoDup_cons in Hnd as [Hk Hnd].
    rewrite dict_set_fresh by (apply Hfresh; apply list_elem_of_here).
    rewrite IH; [by rewrite <- app_assoc | done |].
    intros k' Hk'. unfold dict_keys. rewrite fmap_app, not_elem_of_app. split.
    + apply Hfresh. by apply list_elem_of_further.
    + simpl. rewrite list_elem_of_singleton. intros ->. done.
Qed.

Lemma dict_of_items_wf_id d : dict_wf d -> dict_of_items d = d.
Proof.
  intros Hwf. unfold dict_of_items. rewrite fold_dict_set_fresh; [done | done |].
  intros k _. apply not_elem_of_nil.
Qed.

Lemma fold_dict_set_wf (items : list (string * V)) d :
  dict_wf d -> dict_wf (fold_left (fun d kv => dict_set kv.1 kv.2 d) items d).
Proof.
  revert d. induction items as [|[k v] items IH]; intros d Hd; simpl; [done|].
  apply IH. by apply dict_set_wf.
Qed.

Lemma dict_of_items_wf (items : list (string * V)) : dict_wf (dict_of_items items).
Proof. apply fold_dict_set_wf. apply NoDup_nil_2. Qed.

Lemma fold_dict_set_keys (items : list (string * V)) d k :
  k ∈ dict_keys (fold_left (fun d kv => dict_set kv.1 kv.2 d) items d) ->
  k ∈ dict_keys d \/ k ∈ items.*1.
Proof.
  revert d. induction items as [|[k0 v0] items IH]; intros d; simpl; [auto|].
  intros H. apply IH in H as [H|H].
  - rewrite dict_keys_set in H. case_decide; [auto|].
    apply elem_of_app in H as [H|H]; [auto|].
    right. apply list_elem_of_singleton in H as ->. apply list_elem_of_here.
  - right. by apply list_elem_of_further.
Qed.

Lemma dict_of_items_keys (items : list (string * V)) k :
  k ∈ dict_keys (dict_of_items items) -> k ∈ items.*1.
Proof.
  intros H. apply fold_dict_set_keys in H as [H|H]; [|done].
  by apply elem_of_nil in H.
Qed.

End Dict.

(** ** [refresh_pii_from_context] *)

Lemma dict_get_filter_key {V} (P : string -> bool) k (d : dict V) :
  dict_get k (filter (fun kv => P kv.1 = true) d) = if P k then dict_get k d else None.
Proof.
  induction d as [|[k' v'] d IH]; [by destruct (P k)|].
  rewrite filter_cons. cbn [fst]. destruct (decide (P k' = true)) as [Hk'|Hk']; cbn [dict_get].
  - destruct (decide (k = k')) as [->|]; [by rewrite Hk' | done].
  - destruct (decide (k = k')) as [->|]; [|done].
    rewrite IH. by destruct (P k').
Qed.

Lemma filter_all {A} (P : A -> Prop) `{!forall x, Decision (P x)} (l : list A) :
  Forall P l -> filter P l = l.
Proof.
  induction 1 as [|x l Hx _ IH]; [done|].
  by rewrite filter_cons_True, IH.
Qed.

Lemma filter_keys_wf {V} (P : string -> bool) (d : dict V) :
  dict_wf d -> dict_wf (filter (fun kv => P kv.1 = true) d).
Proof.
  unfold dict_wf, dict_keys. intros Hwf.
  eapply sublist_NoDup; [exact Hwf|]. apply fmap_sublist, sublist_filter.
Qed.

Lemma refresh_piis e :
  dict_wf (piis e) ->
  piis (refresh_pii_from_context e)
  = filter (fun kv => str_in kv.1 (context e) = true) (piis e).
Proof.
  intros Hwf. cbn. apply dict_of_items_wf_id.
  by apply (filter_keys_wf (fun k => str_in k (context e))).
Qed.

(** C2. For every record (its [piis] a dict), [refresh_pii_from_context]
    leaves [context], [question] and the other fields as they are, and keeps of [piis]
    exactly the items whose key is a literal substring of the context, in
    their order and with their type and relevance: a key that occurs in the
    context is looked up as before, a key that does not is gone. *)
Theorem refresh_pii_from_context_prunes (e : entry) :
  dict_wf (piis e) ->
  others (refresh_pii_from_context e) = others e /\
  context (refresh_pii_from_context e) = context e /\
  question (refresh_pii_from_context e) = question e /\
  piis (refresh_pii_from_context e)
    = filter (fun kv => str_in kv.1 (context e) = true) (piis e) /\
  forall k,
    (substring_of k (context e) ->
       dict_get k (piis (refresh_pii_from_context e)) = dict_get k (piis e)) /\
    (~ substring_of k (context e) ->
       dict_get k (piis (refresh_pii_from_context e)) = None).
Proof.
  intros Hwf. split_and!; try reflexivity.
  - by apply refresh_piis.
  - intros k. rewrite refresh_piis by done.
    rewrite (dict_get_filter_key (fun k => str_in k (context e))).
    rewrite <- str_in_spec. destruct (str_in k (context e)); split; congruence.
Qed.

(** C6. [refresh_pii_from_context] is idempotent, on every record. *)
Theorem refresh_pii_from_context_idempotent (e : entry) :
  refresh_pii_from_context (refresh_pii_from_context e) = refresh_pii_from_context e.
Proof.
  destruct e as [i c q p]. unfold refresh_pii_from_context, set_piis.
  cbn [others context question piis]. f_equal.
  set (P := fun kv : string * info => str_in kv.1 c = true).
  set (d := dict_of_items (filter P p)).
  assert (filter P d = d) as ->.
  { apply filter_all, Forall_forall. intros [k v] Hkv.
    assert (k ∈ (filter P p).*1) as Hk.
    { apply dict_of_items_keys. apply list_elem_of_fmap. by exists (k, v). }
    apply list_elem_of_fmap in Hk as ([k' v'] & -> & Hin).
    by apply list_elem_of_filter in Hin as [? _]. }
  apply dict_of_items_wf_id, dict_of_items_wf.
Qed.

(** ** [save_current_edits], on the content of the record *)

Lemma fold_save_pii W idx (items : list (string * info)) d :
  fold_left (save_pii W idx) items d
  = fold_left (fun d kv => dict_set kv.1 kv.2 d) (saved_info W idx <$> items) d.
Proof.
  revert d. induction items as [|x items IH]; intros d; [done|].
  cbn [fold_left fmap list_fmap]. apply IH.
Qed.

Lemma save_entry_piis_wf W idx e : dict_wf (piis (save_entry W idx e)).
Proof. cbn. rewrite fold_save_pii. apply dict_of_items_wf. Qed.

Lemma save_entry_piis W idx e :
  dict_wf (piis e) -> piis (save_entry W idx e) = saved_info W idx <$> piis e.
Proof.
  intros Hwf. cbn. rewrite fold_save_pii. apply (dict_of_items_wf_id (saved_info W idx <$> piis e)).
  unfold dict_wf, dict_keys. rewrite <- list_fmap_compose.
  by rewrite (list_fmap_ext (fst ∘ saved_info W idx) fst (piis e)).
Qed.

Lemma save_entry_keys W idx e :
  dict_wf (piis e) -> dict_keys (piis (save_entry W idx e)) = dict_keys (piis e).
Proof.
  intros Hwf. rewrite save_entry_piis by done. unfold dict_keys.
  rewrite <- list_fmap_compose. by apply list_fmap_ext.
Qed.

(** ** [highlight_pii] *)

Lemma sorted_insert_perm x l : sorted_insert x l ≡ₚ x :: l.
Proof.
  induction l as [|y l IH]; cbn [sorted_insert]; [done|].
  destruct (sort_key x <=? sort_key y); [done|].
  rewrite IH. apply perm_swap.
Qed.

Lemma sorted_by_key_perm l : sorted_by_key l ≡ₚ l.
Proof.
  induction l as [|x l IH]; [done|].
  cbn [sorted_by_key foldr]. rewrite sorted_insert_perm. by constructor.
Qed.

Lemma sorted_insert_sorted x l :
  StronglySorted longer_first l -> StronglySorted longer_first (sorted_insert x l).
Proof.
  induction 1 as [|y l Hl IH Hy]; cbn [sorted_insert].
  - repeat constructor.
  - destruct (Z.leb_spec (sort_key x) (sort_key y)) as [Hle|Hlt].
    + constructor; [by constructor|].
      constructor; [unfold longer_first, sort_key in *; lia|].
      eapply Forall_impl; [exact Hy|]. unfold longer_first, sort_key in *. intros z ?. lia.
    + constructor; [done|].
      rewrite sorted_insert_perm. constructor; [unfold longer_first, sort_key in *; lia | done].
Qed.

Lemma sorted_by_key_sorted l : StronglySorted longer_first (sorted_by_key l).
Proof.
  induction l as [|x l IH]; [constructor|]. by apply sorted_insert_sorted.
Qed.

(** The sort is stable: keys of one length stay in the order of the dict. *)
Lemma sorted_insert_stable n x l : of_length n (sorted_insert x l) = of_length n (x :: l).
Proof.
  unfold of_length. induction l as [|y l IH]; cbn [sorted_insert]; [done|].
  destruct (Z.leb_spec (sort_key x) (sort_key y)) as [Hle|Hlt]; [done|].
  rewrite (filter_cons _ y), IH, !filter_cons. unfold sort_key in Hlt.
  destruct (decide (String.length y.1 = n)), (decide (String.length x.1 = n)); try done.
  lia.
Qed.

Lemma sorted_by_key_stable n l : of_length n (sorted_by_key l) = of_length n l.
Proof.
  induction l as [|x l IH]; [done|]. cbn [sorted_by_key foldr].
  rewrite sorted_insert_stable. unfold of_length in *.
  fold (sorted_by_key l). by rewrite !filter_cons, IH.
Qed.

(** C3, as the code has it.  [highlight_pii] takes the items longest key
    first (a permutation of the dict's items, sorted by key length, keys of
    one length in the order of the dict) and replaces, for each in turn,
    every occurrence of the key in the text made so far by the key inside a
    span.  With two keys of different length the longer one is replaced in
    the untouched text and the shorter one in the result, in whichever order
    the dict holds them.  So on "John Smith lives
    in Smith" the span of "John Smith" is made first and whole, the later
    turn for "Smith" wraps the "Smith" inside that span again, and the
    trailing "Smith" gets a span of its own. *)
Theorem highlight_pii_longest_first :
  (forall text piis,
     sorted_by_key piis ≡ₚ piis /\
     StronglySorted longer_first (sorted_by_key piis) /\
     (forall n, of_length n (sorted_by_key piis) = of_length n piis) /\
     highlight_pii text piis = fold_left highlight_one (sorted_by_key piis) text) /\
  (forall text long short,
     (String.length short.1 < String.length long.1)%nat ->
     highlight_pii text [long; short] = highlight_one (highlight_one text long) short /\
     highlight_pii text [short; long] = highlight_one (highlight_one text long) short) /\
  highlight_pii "John Smith lives in Smith" john_smith_piis
  = blue ("John " +:+ blue "Smith") +:+ " lives in " +:+ blue "Smith".
Proof.
  split_and!.
  - intros text piis.
    split_and!; [apply sorted_by_key_perm | apply sorted_by_key_sorted | | done].
    intros n. apply sorted_by_key_stable.
  - intros text long short Hlen. unfold highlight_pii, sorted_by_key. cbn [foldr sorted_insert].
    destruct (Z.leb_spec (sort_key long) (sort_key short)) as [_|Hlt];
      [|unfold sort_key in Hlt; lia].
    destruct (Z.leb_spec (sort_key short) (sort_key long)) as [Hle|_];
      [unfold sort_key in Hle; lia|].
    done.
  - vm_compute. reflexivity.
Qed.

(** C3, as the claim has it, fails on its own example: the output holds no
    span whose content is the text "John Smith"; what the span of
    "John Smith" encloses is "John " and a second span. *)
Lemma highlight_pii_john_smith_nested :
  str_in (blue "John Smith")
         (highlight_pii "John Smith lives in Smith" john_smith_piis) = false /\
  str_in (blue ("John " +:+ blue "Smith"))
         (highlight_pii "John Smith lives in Smith" john_smith_piis) = true.
Proof. split; vm_compute; reflexivity. Qed.

(** ** Running the monad *)

Lemma bind_run {A B} (m : M A) (f : A -> M B) w :
  (m ≫= f) w =
  match m w with
  | (Done a, w') => f a w'
  | (Rerun, w') => (Rerun, w')
  | (Raised e, w') => (Raised e, w')
  end.
Proof. reflexivity. Qed.

Lemma bind_done {A B} (m : M A) (f : A -> M B) w a w' :
  m w = (Done a, w') -> (m ≫= f) w = f a w'.
Proof. intros H. by rewrite bind_run, H. Qed.


(** ** [save_current_edits] *)

(** Unfold the primitives of the monad in the goal, as far as they go. *)
Ltac mrun :=
  cbv beta iota zeta delta
    [mbind M_bind mret M_ret raise rerun when from_option
     get_session put_session get_heap put_heap show
     set_entries set_original_entries set_current_idx
     read_entries read_current_idx clear_session
     read_widget init_widget set_widget list_getitem list_setitem
     heap_get heap_set heap_alloc get_record];
  cbn [heap session shown ss_entries ss_original_entries ss_current_idx ss_widgets
       option_bind fst snd].

Lemma save_current_edits_run w idx entries a e :
  record_at w entries idx a e ->
  save_current_edits idx entries w = (Done tt, saved_world idx entries a e w).
Proof.
  intros [(k & Hk & Ha) He]. unfold save_current_edits. mrun.
  rewrite Hk. mrun. rewrite Ha. mrun. rewrite He. mrun.
  unfold saved_world. by rewrite (list_insert_id entries k a Ha).
Qed.

(** C5. [save_current_edits(idx, entries)] on a record: the context and the
    question become the values under [context_<idx>] and [question_<idx>],
    each falling back to the value the record has when the key is not set;
    every item of [piis] keeps its key and its place and takes the type and
    the relevance under [type_<idx>_<key>] and [rel_<idx>_<key>], with the
    same fall-back.  No key is dropped or added, whatever the new context
    is.  The record is rewritten in place, and nothing else of the heap or of
    the session state changes. *)
Theorem save_current_edits_reconciles w idx entries a e :
  record_at w entries idx a e ->
  dict_wf (piis e) ->
  let W := ss_widgets (session w) in
  exists e',
    save_current_edits idx entries w
    = (Done tt,
       World (<[a := Rec e']> (heap w))
             (SessionState (Some entries) (ss_original_entries (session w))
                           (ss_current_idx (session w)) W)
             (shown w)) /\
    others e' = others e /\
    context e' = default (context e) (W !! context_key idx) /\
    question e' = default (question e) (W !! question_key idx) /\
    piis e' = saved_info W idx <$> piis e /\
    dict_keys (piis e') = dict_keys (piis e).
Proof.
  intros Hat Hwf W. exists (save_entry W idx e). split_and!.
  - by rewrite (save_current_edits_run w idx entries a e).
  - done.
  - done.
  - done.
  - by apply save_entry_piis.
  - by apply save_entry_keys.
Qed.

(** ** Navigation *)





(** ** Add new PII *)

Lemma record_at_saved w idx entries a e :
  record_at w entries idx a e ->
  record_at (saved_world idx entries a e w) entries idx a
            (save_entry (ss_widgets (session w)) idx e).
Proof.
  intros [Hk He]. split; [done|]. cbn. apply list_lookup_insert_eq.
  by eapply lookup_lt_Some.
Qed.

Lemma add_pii_entry_has pii_val t r e :
  dict_wf (piis e) -> str_in pii_val (context e) = true ->
  piis (add_pii_entry pii_val t r e)
  = filter (fun kv => str_in kv.1 (context e) = true) (dict_set pii_val (Info t r) (piis e)) /\
  dict_get pii_val (piis (add_pii_entry pii_val t r e)) = Some (Info t r).
Proof.
  intros Hwf Hin. unfold add_pii_entry.
  assert (dict_wf (piis (set_piis (dict_set pii_val (Info t r) (piis e)) e))) as Hwf'
    by by apply dict_set_wf.
  rewrite (refresh_piis _ Hwf'). split; [done|]. cbn [context piis set_piis].
  rewrite (dict_get_filter_key (fun k => str_in k (context e))), Hin, dict_get_set.
  by rewrite decide_True.
Qed.

Lemma read_widget_run w key v :
  ss_widgets (session w) !! key = Some v -> read_widget key w = (Done v, w).
Proof. intros H. unfold read_widget. mrun. by rewrite H. Qed.

Lemma get_record_run w a e :
  heap w !! a = Some (Rec e) -> get_record a w = (Done e, w).
Proof. intros H. mrun. by rewrite H. Qed.

Lemma list_setitem_run {A} (l : list A) idx k x w :
  py_index (length l) idx = Some k -> list_setitem l idx x w = (Done (<[k := x]> l), w).
Proof. intros H. mrun. by rewrite H. Qed.

(** The three ways the "Add PII" branch ends. *)
Lemma add_pii_button_run w idx entries a e0 new_pii_val new_pii_type new_pii_rel :
  record_at w entries idx a e0 ->
  is_Some (ss_widgets (session w) !! context_key idx) ->
  let e := save_entry (ss_widgets (session w)) idx e0 in
  let w1 := saved_world idx entries a e0 w in
  let pii_val := strip new_pii_val in
  add_pii_button (AddPII new_pii_val new_pii_type new_pii_rel) idx entries a w
  = if decide (pii_val = "") then (Done tt, with_shown WarnEnterValue w1)
    else if str_in pii_val (context e) then
      (Rerun, with_shown (AddedPII pii_val)
                (with_record a (add_pii_entry pii_val new_pii_type new_pii_rel e) w1))
    else (Done tt, with_shown ErrNotInContext w1).
Proof.
  intros Hat [ctx Hctx] e w1 pii_val. unfold add_pii_button.
  rewrite (bind_done _ _ _ _ _ (save_current_edits_run w idx entries a e0 Hat)).
  assert (context e = ctx) as Hctx'.
  { subst e. unfold save_entry, set_piis, set_question, set_context. cbn [context].
    by rewrite Hctx. }
  fold w1 pii_val.
  rewrite (bind_done _ _ w1 ctx w1) by by apply read_widget_run.
  destruct (decide (pii_val = "")) as [Hempty|Hne]; [done|].
  rewrite Hctx'. destruct (str_in pii_val ctx); cbn [negb]; [|done].
  pose proof (record_at_saved w idx entries a e0 Hat) as [(k & Hk & Ha) He]. fold e w1 in He.
  rewrite (bind_done _ _ w1 e w1) by by apply get_record_run.
  cbv beta iota zeta delta [mbind M_bind heap_set put_heap get_heap]. cbn [heap session shown].
  erewrite list_setitem_run by done.
  rewrite (list_insert_id entries k a Ha). mrun.
  unfold with_shown, with_record, w1, saved_world. cbn [heap session shown].
  by rewrite list_insert_insert_eq.
Qed.

(** C1, as the code has it.  "Add PII" first saves the pending edits into the
    record and then works on the trimmed value [pii_val]: it warns when
    [pii_val] is empty; it reports that the value is not in the context when
    [pii_val] is not empty and not a literal substring of the record's
    context; otherwise it sets [piis[pii_val]], applies
    [refresh_pii_from_context], and the record it leaves has [pii_val] among
    its [piis], with the type and the relevance given. *)
Theorem add_pii_button_validates w idx entries a e0 new_pii_val new_pii_type new_pii_rel :
  record_at w entries idx a e0 ->
  is_Some (ss_widgets (session w) !! context_key idx) ->
  let e := save_entry (ss_widgets (session w)) idx e0 in
  let w1 := saved_world idx entries a e0 w in
  let pii_val := strip new_pii_val in
  let result := add_pii_button (AddPII new_pii_val new_pii_type new_pii_rel) idx entries a w in
  (pii_val = "" -> result = (Done tt, with_shown WarnEnterValue w1)) /\
  (pii_val <> "" -> ~ substring_of pii_val (context e) ->
     result = (Done tt, with_shown ErrNotInContext w1)) /\
  (pii_val <> "" -> substring_of pii_val (context e) ->
     let e' := refresh_pii_from_context
                 (set_piis (dict_set pii_val (Info new_pii_type new_pii_rel) (piis e)) e) in
     result = (Rerun, with_shown (AddedPII pii_val) (with_record a e' w1)) /\
     dict_get pii_val (piis e') = Some (Info new_pii_type new_pii_rel)).
Proof.
  intros Hat Hctx e w1 pii_val result. subst result.
  rewrite (add_pii_button_run w idx entries a e0) by done. fold e w1 pii_val.
  split_and!.
  - intros ->. done.
  - intros Hne Hnot. rewrite decide_False by done.
    destruct (str_in pii_val (context e)) eqn:Hin; [|done].
    by apply str_in_spec in Hin.
  - intros Hne Hsub e'. rewrite decide_False by done.
    apply str_in_spec in Hsub. rewrite Hsub. split; [done|].
    apply add_pii_entry_has; [apply save_entry_piis_wf | done].
Qed.

(** C4, as the code has it.  When "Add PII" rejects the value, it shows the
    warning or the error and the world is the one [save_current_edits] left:
    the index, the list of records, the original list and the widget values
    are as before, every other record is as before, and the active record
    holds the saved edits, with the keys of [piis] it had; no annotation was
    added and nothing was pruned.  With no edit pending the heap and the
    session state are unchanged. *)
Theorem add_pii_button_rejects w idx entries a e0 new_pii_val new_pii_type new_pii_rel :
  record_at w entries idx a e0 ->
  dict_wf (piis e0) ->
  is_Some (ss_widgets (session w) !! context_key idx) ->
  let e := save_entry (ss_widgets (session w)) idx e0 in
  let pii_val := strip new_pii_val in
  pii_val = "" \/ ~ substring_of pii_val (context e) ->
  exists msg,
    msg = (if decide (pii_val = "") then WarnEnterValue else ErrNotInContext) /\
    add_pii_button (AddPII new_pii_val new_pii_type new_pii_rel) idx entries a w
    = (Done tt,
       World (<[a := Rec e]> (heap w))
             (SessionState (Some entries) (ss_original_entries (session w))
                           (ss_current_idx (session w)) (ss_widgets (session w)))
             (shown w ++ [msg])) /\
    dict_keys (piis e) = dict_keys (piis e0) /\
    (e = e0 -> ss_entries (session w) = Some entries ->
     <[a := Rec e]> (heap w) = heap w /\
     SessionState (Some entries) (ss_original_entries (session w))
                  (ss_current_idx (session w)) (ss_widgets (session w)) = session w).
Proof.
  intros Hat Hwf Hctx e pii_val Hrej. eexists. split; [reflexivity|].
  rewrite (add_pii_button_run w idx entries a e0) by done. fold e pii_val.
  split_and!.
  - destruct (decide (pii_val = "")) as [|Hne]; [done|].
    destruct Hrej as [|Hnot]; [done|].
    destruct (str_in pii_val (context e)) eqn:Hin; [|done].
    by apply str_in_spec in Hin.
  - by apply save_entry_keys.
  - intros -> Hes. destruct Hat as [_ He]. split.
    + by apply list_insert_id.
    + destruct (session w); cbn in *; by subst.
Qed.

(** ** Triples *)

Lemma hoare_ret {A} (P : world -> Prop) (a : A) (Q : A -> world -> Prop) X :
  (forall w, P w -> Q a w) -> hoare P (mret a) Q X.
Proof. intros H w Hw. by apply H. Qed.

Lemma hoare_bind {A B} P (m : M A) (f : A -> M B) R Q X :
  hoare P m R X -> (forall a, hoare (R a) (f a) Q X) -> hoare P (m ≫= f) Q X.
Proof.
  intros Hm Hf w Hw. specialize (Hm w Hw). rewrite bind_run.
  destruct (m w) as [[a| |e] w']; [by apply Hf | done | done].
Qed.

Lemma hoare_conseq {A} (P P' : world -> Prop) (m : M A) (Q Q' : A -> world -> Prop) (X X' : world -> Prop) :
  hoare P m Q X ->
  (forall w, P' w -> P w) -> (forall a w, Q a w -> Q' a w) -> (forall w, X w -> X' w) ->
  hoare P' m Q' X'.
Proof.
  intros Hm HP HQ HX w Hw. specialize (Hm w (HP w Hw)).
  destruct (m w) as [[a| |e] w']; auto.
Qed.

Lemma hoare_when (b : bool) P (m : M unit) (Q : unit -> world -> Prop) X :
  (b = true -> hoare P m Q X) -> (b = false -> forall w, P w -> Q tt w) ->
  hoare P (when b m) Q X.
Proof. destruct b; intros Ht Hf; [by apply Ht | by apply hoare_ret, Hf]. Qed.

Lemma keeps_bind {A B} I (m : M A) (f : A -> M B) :
  keeps I m -> (forall a, keeps I (f a)) -> keeps I (m ≫= f).
Proof. intros Hm Hf. by eapply hoare_bind. Qed.

Lemma keeps_ret {A} I (a : A) : keeps I (mret a).
Proof. by apply hoare_ret. Qed.

Lemma keeps_when I (b : bool) (m : M unit) : keeps I m -> keeps I (when b m).
Proof. intros H. by apply hoare_when. Qed.

Lemma keeps_pure {A} (I : world -> Prop) (m : M A) :
  (forall w, (m w).2 = w) -> keeps I m.
Proof.
  intros H w Hw. specialize (H w). destruct (m w) as [[a| |e] w']; cbn in *; by subst.
Qed.

Lemma hoare_assume {A} (I : world -> Prop) (phi : Prop) (m : M A) Q X :
  (phi -> hoare I m Q X) -> hoare (fun w => I w /\ phi) m Q X.
Proof. intros H w [Hw Hphi]. by apply H. Qed.

(** ** What the handlers leave alone *)

Lemma frame_refl entries w :
  ss_entries (session w) = Some entries -> frame entries w w.
Proof. by intros H. Qed.

Lemma at_index_elem entries idx a : at_index entries idx a -> a ∈ entries.
Proof. intros (k & _ & Hk). by eapply list_elem_of_lookup_2. Qed.

Create HintDb keeps.

Section Frame.
Context (entries : list loc) (w0 : world).
Abbreviation I := (frame entries w0).

Lemma keeps_raise {A} e : keeps I (raise e : M A).
Proof. by intros w Hw. Qed.

Lemma keeps_rerun : keeps I rerun.
Proof. by intros w Hw. Qed.

Lemma keeps_from_option {A} e (o : option A) : keeps I (from_option e o).
Proof. apply keeps_pure. intros w. by destruct o. Qed.

Lemma keeps_show o : o <> WarnNoOriginal -> keeps I (show o).
Proof.
  intros Ho w (? & ? & ? & ? & Hs). split_and!; cbn; try done.
  intros [?|Hin%list_elem_of_singleton]%elem_of_app; [auto | done].
Qed.

Lemma keeps_heap_set a o : a ∈ entries -> keeps I (heap_set a o).
Proof.
  intros Ha w (? & ? & Hlen & Hfr & ?). split_and!; cbn; try done.
  - by rewrite length_insert.
  - intros b Hb. rewrite list_lookup_insert_ne; [auto | by intros ->].
Qed.

Lemma keeps_set_entries : keeps I (set_entries entries).
Proof. by intros w (? & ? & ? & ? & ?). Qed.

Lemma keeps_set_current_idx v : keeps I (set_current_idx v).
Proof. by intros w (? & ? & ? & ? & ?). Qed.

Lemma keeps_init_widget key v : keeps I (init_widget key v).
Proof.
  intros w (? & ? & ? & ? & ?). unfold init_widget. mrun.
  by destruct (ss_widgets (session w) !! key).
Qed.

Lemma keeps_set_widget key v : keeps I (set_widget key v).
Proof. by intros w (? & ? & ? & ? & ?). Qed.

Lemma keeps_selectbox options i key : keeps I (selectbox options i key).
Proof.
  unfold selectbox. apply keeps_bind; [|intros v].
  - intros w Hw. unfold read_widget. mrun. by destruct (ss_widgets (session w) !! key).
  - apply keeps_when. apply keeps_bind; [|intros o; apply keeps_set_widget].
    intros w Hw. by destruct (options !! i).
Qed.

Lemma keeps_get_record a : keeps I (get_record a).
Proof.
  apply keeps_pure. intros w. mrun. by destruct (heap w !! a) as [[]|].
Qed.

Lemma keeps_read_widget key : keeps I (read_widget key).
Proof.
  apply keeps_pure. intros w. unfold read_widget. mrun.
  by destruct (ss_widgets (session w) !! key).
Qed.

Lemma keeps_read_current_idx : keeps I read_current_idx.
Proof.
  apply keeps_pure. intros w. unfold read_current_idx. mrun.
  by destruct (ss_current_idx (session w)).
Qed.

Lemma hoare_read_entries :
  hoare I read_entries (fun l w => I w /\ l = entries) I.
Proof.
  intros w Hw. pose proof Hw as (He & _). unfold read_entries. mrun. by rewrite He.
Qed.

Lemma hoare_list_setitem idx a :
  at_index entries idx a ->
  hoare I (list_setitem entries idx a) (fun l w => I w /\ l = entries) I.
Proof.
  intros (k & Hk & Ha) w Hw. rewrite (list_setitem_run entries idx k a w Hk).
  by rewrite (list_insert_id entries k a Ha).
Qed.

(** [save_current_edits] either raises at once or rewrites the record. *)
Lemma save_current_edits_cases idx w :
  (exists a e, record_at w entries idx a e /\
     save_current_edits idx entries w = (Done tt, saved_world idx entries a e w)) \/
  (exists x, save_current_edits idx entries w = (Raised x, w)).
Proof.
  destruct (py_index (length entries) idx) as [k|] eqn:Hk;
    [destruct (entries !! k) as [a|] eqn:Ha;
     [destruct (heap w !! a) as [[e|j]|] eqn:He|]|].
  - left. exists a, e. assert (record_at w entries idx a e) as Hat by (split; [by exists k | done]).
    split; [done | by apply save_current_edits_run].
  - right. eexists. unfold save_current_edits. mrun. rewrite Hk. mrun. rewrite Ha. mrun.
    by rewrite He.
  - right. eexists. unfold save_current_edits. mrun. rewrite Hk. mrun. rewrite Ha. mrun.
    by rewrite He.
  - right. eexists. unfold save_current_edits. mrun. rewrite Hk. mrun. by rewrite Ha.
  - right. eexists. unfold save_current_edits. mrun. by rewrite Hk.
Qed.

Lemma keeps_save_current_edits idx : keeps I (save_current_edits idx entries).
Proof.
  intros w Hw. destruct (save_current_edits_cases idx w) as [(a & e & Hat & ->)|[x ->]]; [|done].
  destruct Hw as (? & ? & Hlen & Hfr & ?). destruct Hat as [Hix He].
  split_and!; cbn; try done.
  - by rewrite length_insert.
  - intros b Hb. rewrite list_lookup_insert_ne; [auto|].
    intros ->. by apply Hb, (at_index_elem entries idx).
Qed.

End Frame.

#[export] Hint Resolve keeps_raise keeps_rerun keeps_from_option keeps_set_entries
  keeps_set_current_idx keeps_init_widget keeps_set_widget keeps_selectbox keeps_get_record
  keeps_read_widget keeps_read_current_idx keeps_save_current_edits : keeps.

(** Take a command apart: binds, [when], and the tests of the handlers. *)
Ltac keeps_step :=
  lazymatch goal with
  | |- hoare ?I ?m _ _ => change (keeps I m)
  | |- keeps _ (_ ≫= _) => apply keeps_bind; [|intros ?]
  | |- keeps _ (mret _) => apply keeps_ret
  | |- keeps _ (when _ _) => apply keeps_when
  | |- keeps _ (show _) => apply keeps_show; discriminate
  | |- keeps _ (if ?b then _ else _) => destruct b
  | |- keeps _ _ => solve [auto with keeps]
  end.

Section FrameHandlers.
Context (entries : list loc) (w0 : world).
Abbreviation I := (frame entries w0).

(** The end of "Add PII" and of "Update PII list": the record is rewritten
    and the list stored back. *)
Lemma keeps_store_back idx a (f : entry -> entry) (m : M unit) :
  at_index entries idx a -> keeps I m ->
  keeps I (e ← get_record a;
           heap_set a (Rec (f e));;
           entries' ← list_setitem entries idx a;
           set_entries entries';;
           m).
Proof.
  intros Hat Hm. apply keeps_bind; [auto with keeps | intros e].
  apply keeps_bind; [apply keeps_heap_set; by eapply at_index_elem | intros _].
  eapply hoare_bind; [by apply hoare_list_setitem | intros l].
  apply hoare_assume. intros ->. by apply keeps_bind; [auto with keeps|].
Qed.

Lemma keeps_previous_button c idx : keeps I (previous_button c idx entries).
Proof. unfold previous_button. repeat keeps_step. Qed.

Lemma keeps_go_button c idx : keeps I (go_button c idx entries).
Proof. unfold go_button. repeat keeps_step. Qed.

Lemma keeps_next_button c idx : keeps I (next_button c idx entries).
Proof. unfold next_button. repeat keeps_step. Qed.

Lemma keeps_add_pii_button c idx a :
  at_index entries idx a -> keeps I (add_pii_button c idx entries a).
Proof.
  intros Hat. unfold add_pii_button. destruct c; try apply keeps_ret.
  keeps_step; [keeps_step|]. keeps_step; [keeps_step|].
  destruct (decide _); [keeps_step|].
  destruct (negb _); [keeps_step|].
  apply (keeps_store_back idx a); [done|]. repeat keeps_step.
Qed.

Lemma keeps_update_button c idx a :
  at_index entries idx a -> keeps I (update_button c idx entries a).
Proof.
  intros Hat. unfold update_button. keeps_step. keeps_step; [keeps_step|].
  apply (keeps_store_back idx a); [done|]. repeat keeps_step.
Qed.

Lemma keeps_init_pii_widgets idx items : keeps I (init_pii_widgets idx items).
Proof.
  induction items as [|[pii info] items IH]; cbn [init_pii_widgets]; cbv zeta;
    repeat keeps_step.
Qed.

Lemma keeps_save_button c idx : keeps I (save_button c idx entries).
Proof. unfold save_button. repeat keeps_step. Qed.

Lemma keeps_download_button c : keeps I (download_button c).
Proof.
  unfold download_button. keeps_step; [keeps_step|].
  eapply hoare_bind; [apply hoare_read_entries | intros l].
  apply hoare_assume. intros ->. repeat keeps_step.
Qed.

End FrameHandlers.

(** ** Deep copies *)

Lemma contents_app w l rs more :
  contents w l rs -> contents (with_heap (heap w ++ more) w) l rs.
Proof.
  unfold contents. intros H. eapply Forall2_impl; [exact H|].
  intros a r Ha. cbn. by apply lookup_app_l_Some.
Qed.

Lemma contents_seq h ss sh (before rs after : list pyobj) :
  h = before ++ rs ++ after ->
  contents (World h ss sh) (seq (length before) (length rs)) rs.
Proof.
  intros ->. unfold contents. cbn [heap]. revert before.
  induction rs as [|r rs IH]; intros before; cbn [seq length]; constructor.
  - by rewrite lookup_app_r, Nat.sub_diag.
  - specialize (IH (before ++ [r])). rewrite length_app, Nat.add_1_r in IH.
    by rewrite <- app_assoc in IH.
Qed.

Lemma deepcopy_run l rs : forall w,
  contents w l rs ->
  deepcopy l w = (Done (seq (length (heap w)) (length rs)), with_heap (heap w ++ rs) w).
Proof.
  unfold contents. intros w H. revert rs w H. induction l as [|a l IH]; intros rs w H.
  - apply Forall2_nil_inv_l in H as ->. cbn. unfold with_heap. rewrite app_nil_r. by destruct w.
  - apply Forall2_cons_inv_l in H as (r & rs' & Ha & Hl & ->).
    cbn [deepcopy].
    rewrite (bind_done _ _ w r w) by (mrun; by rewrite Ha).
    rewrite (bind_done _ _ w (length (heap w)) (with_heap (heap w ++ [r]) w)) by done.
    rewrite (bind_done _ _ _ _ _ (IH rs' (with_heap (heap w ++ [r]) w) (contents_app w l rs' [r] Hl))).
    mrun. unfold with_heap. cbn [heap session shown length seq].
    by rewrite length_app, Nat.add_1_r, <- app_assoc.
Qed.

Lemma load_original_button_run w os rs :
  ss_original_entries (session w) = Some os ->
  contents w os rs ->
  load_original_button LoadOriginal w = (Rerun, reloaded_world rs w).
Proof.
  intros Hos Hrs. unfold load_original_button, button.
  rewrite bool_decide_eq_true_2 by done. cbn [andb negb when].
  rewrite (bind_done _ _ w (session w) w) by done. rewrite Hos.
  rewrite (bind_done _ _ _ _ _ (deepcopy_run os rs w Hrs)).
  rewrite (bind_done _ _ _ tt (World (heap w ++ rs) empty_session (shown w))) by done.
  assert (forall ss sh, contents (World (heap w ++ rs) ss sh) (seq (length (heap w)) (length rs)) rs) as H1.
  { intros ss sh. apply (contents_seq _ _ _ (heap w) rs []). by rewrite app_nil_r. }
  rewrite (bind_done _ _ _ _ _ (deepcopy_run _ rs _ (H1 _ _))).
  unfold with_heap. cbn [heap session shown].
  rewrite (bind_done _ _ _ tt
             (World ((heap w ++ rs) ++ rs)
                    (SessionState (Some (seq (length (heap w ++ rs)) (length rs))) None None ∅)
                    (shown w))) by done.
  assert (forall ss sh, contents (World ((heap w ++ rs) ++ rs) ss sh)
                          (seq (length (heap w)) (length rs)) rs) as H2.
  { intros ss sh. apply (contents_seq _ _ _ (heap w) rs rs). by rewrite <- app_assoc. }
  rewrite (bind_done _ _ _ _ _ (deepcopy_run _ rs _ (H2 _ _))).
  unfold with_heap. cbn [heap session shown]. mrun.
  unfold reloaded_world. by rewrite !length_app, <- !app_assoc.
Qed.

(** ** A live session *)

Lemma frame_contents es os rs w0 w :
  frame es w0 w -> (forall a, a ∈ es -> a ∉ os) -> contents w0 os rs -> contents w os rs.
Proof.
  intros (_ & _ & _ & Hfr & _) Hdisj Hrs. unfold contents in *.
  apply Forall2_same_length_lookup. apply Forall2_same_length_lookup in Hrs as [Hlen Hrs].
  split; [done|]. intros i a r Ha Hr. rewrite Hfr; [by eapply Hrs|].
  intros Hin. eapply Hdisj; [exact Hin|]. by eapply list_elem_of_lookup_2.
Qed.

Lemma frame_live es rs w0 w :
  ss_entries (session w0) = Some es -> live_session rs w0 -> frame es w0 w -> live_session rs w.
Proof.
  intros Hes (es' & os & Hes' & Hos & Hdisj & Hrs & Hsh) Hfr.
  assert (es' = es) as -> by congruence.
  pose proof Hfr as (He & Ho & _ & _ & Hs). exists es, os. split_and!; [done | congruence | done | | auto].
  by eapply frame_contents.
Qed.

Lemma reloaded_live rs w :
  WarnNoOriginal ∉ shown w -> live_session rs (reloaded_world rs w).
Proof.
  intros Hsh. eexists _, _. split_and!; [done | done | | |]; cbn [session shown reloaded_world].
  - intros a [_ Ha]%elem_of_seq [Ha' _]%elem_of_seq. lia.
  - unfold reloaded_world.
    replace (length (heap w) + length rs + length rs)%nat
      with (length (heap w ++ rs ++ rs)) by (rewrite !length_app; lia).
    apply (contents_seq _ _ _ (heap w ++ rs ++ rs) rs []).
    by rewrite app_nil_r, <- !app_assoc.
  - intros [?|Hin%list_elem_of_singleton]%elem_of_app; [auto | done].
Qed.

Lemma hoare_bind_keeps {A B} (I : world -> Prop) (m : M A) (f : A -> M B) Q (X : world -> Prop) :
  keeps I m -> (forall w, I w -> X w) -> (forall a, hoare I (f a) Q X) ->
  hoare I (m ≫= f) Q X.
Proof.
  intros Hm HX Hf. eapply hoare_bind; [|exact Hf].
  eapply hoare_conseq; [exact Hm | auto..].
Qed.

Section Page.
Context (rs : list pyobj) (es : list loc) (w0 : world).
Hypothesis Hes : ss_entries (session w0) = Some es.
Hypothesis Hlive : live_session rs w0.

Lemma frame_live' w : frame es w0 w -> live_session rs w.
Proof. by apply frame_live. Qed.

Lemma hoare_load_original_button c :
  hoare (frame es w0) (load_original_button c) (fun _ => live_session rs) (live_session rs).
Proof.
  intros w Hw. pose proof (frame_live' w Hw) as Hl.
  destruct (decide (c = LoadOriginal)) as [->|Hc].
  - destruct Hl as (es' & os & _ & Hos & _ & Hrs & Hsh).
    rewrite (load_original_button_run w os rs Hos Hrs). by apply reloaded_live.
  - unfold load_original_button, button. by rewrite bool_decide_eq_false_2.
Qed.

Lemma hoare_page_body c idx a :
  at_index es idx a ->
  hoare (frame es w0) (page_body c idx es a) (fun _ => live_session rs) (live_session rs).
Proof.
  intros Hat. unfold page_body.
  repeat (apply hoare_bind_keeps;
          [auto using keeps_previous_button, keeps_go_button, keeps_next_button,
             keeps_add_pii_button, keeps_update_button, keeps_init_pii_widgets,
             keeps_save_button, keeps_download_button, keeps_show with keeps
          | exact frame_live' | intros ?]).
  apply hoare_load_original_button.
Qed.

End Page.

Lemma bind_raised {A B} (m : M A) (f : A -> M B) w e w' :
  m w = (Raised e, w') -> (m ≫= f) w = (Raised e, w').
Proof. intros H. by rewrite bind_run, H. Qed.

Lemma page_live rs c w : live_session rs w -> live_session rs (page c w).2.
Proof.
  intros Hl. pose proof Hl as (es & os & Hes & _).
  unfold page. rewrite (bind_done _ _ w (session w) w) by done.
  rewrite Hes, bool_decide_eq_true_2 by done.
  rewrite (bind_done _ _ w es w) by (unfold read_entries; mrun; by rewrite Hes).
  destruct (ss_current_idx (session w)) as [idx|] eqn:Hidx.
  2: { by rewrite (bind_raised _ _ w AttributeError w)
         by (unfold read_current_idx; mrun; by rewrite Hidx). }
  rewrite (bind_done _ _ w idx w) by (unfold read_current_idx; mrun; by rewrite Hidx).
  destruct (py_index (length es) idx ≫= (es !!.)) as [a|] eqn:Ha.
  2: { by rewrite (bind_raised _ _ w IndexError w) by (unfold list_getitem; by rewrite Ha). }
  rewrite (bind_done _ _ w a w) by (unfold list_getitem; by rewrite Ha).
  assert (at_index es idx a) as Hat.
  { unfold at_index. destruct (py_index (length es) idx) as [k|]; [|done].
    exists k. split; [done | exact Ha]. }
  pose proof (hoare_page_body rs es w Hes Hl c idx a Hat w (frame_refl es w Hes)) as H.
  by destruct (page_body c idx es a w) as [[[]| |e] w'].
Qed.

Lemma page_no_session c w :
  ss_entries (session w) = None -> page c w = (Done tt, with_shown InfoUpload w).
Proof.
  intros Hes. unfold page. rewrite (bind_done _ _ w (session w) w) by done.
  rewrite Hes. by rewrite bool_decide_eq_false_2 by by intros [? ?].
Qed.

(** ** The load block *)

Lemma loaded_live rs w :
  WarnNoOriginal ∉ shown w -> live_session rs (loaded_world rs w).
Proof.
  intros Hsh. eexists _, _. split_and!; [done | done | | | done]; cbn [session shown loaded_world].
  - intros a [_ Ha]%elem_of_seq [Ha' _]%elem_of_seq. lia.
  - unfold loaded_world.
    replace (length (heap w) + length rs + length rs)%nat
      with (length (heap w ++ rs ++ rs)) by (rewrite !length_app; lia).
    apply (contents_seq _ _ _ (heap w ++ rs ++ rs) rs []).
    by rewrite app_nil_r, <- !app_assoc.
Qed.

Section Load.
Context (loads : string -> option json).

Lemma load_block_skip up w :
  is_Some (ss_entries (session w)) -> load_block loads up w = (Done tt, w).
Proof.
  intros Hes. unfold load_block. rewrite (bind_done _ _ w (session w) w) by done.
  destruct up; [|done]. by rewrite bool_decide_eq_true_2.
Qed.

Lemma loads_lines_ok lines js : forall w,
  mapM loads lines = Some js ->
  loads_lines loads lines w
  = (Done (seq (length (heap w)) (length js)), with_heap (heap w ++ (pyobj_of_json <$> js)) w).
Proof.
  intros w H. apply mapM_Some in H. revert w.
  induction H as [|line j lines js Hj _ IH]; intros w.
  - cbn. unfold with_heap. rewrite app_nil_r. by destruct w.
  - cbn [loads_lines]. rewrite Hj.
    rewrite (bind_done _ _ w j w) by done.
    rewrite (bind_done _ _ w (length (heap w)) (with_heap (heap w ++ [pyobj_of_json j]) w)) by done.
    rewrite (bind_done _ _ _ _ _ (IH _)).
    mrun. unfold with_heap. cbn [heap session shown length seq fmap list_fmap].
    by rewrite length_app, Nat.add_1_r, <- app_assoc.
Qed.

Lemma loads_lines_fail lines : forall w,
  mapM loads lines = None ->
  exists more, loads_lines loads lines w = (Raised JSONDecodeError, with_heap (heap w ++ more) w).
Proof.
  intros w H. apply mapM_None in H. revert w.
  induction lines as [|line lines IH]; intros w; [by apply Exists_nil in H|].
  cbn [loads_lines]. destruct (loads line) as [j|] eqn:Hj.
  - apply Exists_cons in H as [H|H]; [congruence|].
    rewrite (bind_done _ _ w j w) by done.
    rewrite (bind_done _ _ w (length (heap w)) (with_heap (heap w ++ [pyobj_of_json j]) w)) by done.
    destruct (IH H (with_heap (heap w ++ [pyobj_of_json j]) w)) as [more Hmore].
    exists (pyobj_of_json j :: more). rewrite (bind_raised _ _ _ _ _ Hmore).
    unfold with_heap. cbn [heap session shown]. by rewrite <- app_assoc.
  - exists []. rewrite (bind_raised _ _ w JSONDecodeError w) by done.
    unfold with_heap. rewrite app_nil_r. by destruct w.
Qed.

Lemma load_block_ok lines js w :
  ss_entries (session w) = None ->
  mapM loads lines = Some js ->
  load_block loads (Some lines) w = (Done tt, loaded_world (pyobj_of_json <$> js) w).
Proof.
  intros Hes Hjs. unfold load_block. rewrite (bind_done _ _ w (session w) w) by done.
  rewrite Hes, bool_decide_eq_false_2 by by intros [? ?]. cbn [negb when].
  set (rs := pyobj_of_json <$> js).
  assert (length js = length rs) as Hlen by (subst rs; by rewrite length_fmap).
  rewrite (bind_done _ _ _ _ _ (loads_lines_ok lines js w Hjs)). fold rs. rewrite Hlen.
  unfold with_heap. cbn [heap session shown].
  assert (forall ss sh, contents (World (heap w ++ rs) ss sh) (seq (length (heap w)) (length rs)) rs) as H1.
  { intros ss sh. apply (contents_seq _ _ _ (heap w) rs []). by rewrite app_nil_r. }
  rewrite (bind_done _ _ _ _ _ (deepcopy_run _ rs _ (H1 _ _))).
  unfold with_heap. cbn [heap session shown].
  rewrite (bind_done _ _ _ tt
             (World ((heap w ++ rs) ++ rs)
                    (SessionState (Some (seq (length (heap w ++ rs)) (length rs)))
                                  (ss_original_entries (session w)) (ss_current_idx (session w))
                                  (ss_widgets (session w)))
                    (shown w))) by done.
  assert (forall ss sh, contents (World ((heap w ++ rs) ++ rs) ss sh)
                          (seq (length (heap w)) (length rs)) rs) as H2.
  { intros ss sh. apply (contents_seq _ _ _ (heap w) rs rs). by rewrite <- app_assoc. }
  rewrite (bind_done _ _ _ _ _ (deepcopy_run _ rs _ (H2 _ _))).
  unfold with_heap. cbn [heap session shown]. mrun.
  unfold loaded_world. by rewrite !length_app, <- !app_assoc.
Qed.

Lemma load_block_fail lines w :
  ss_entries (session w) = None ->
  mapM loads lines = None ->
  exists more, load_block loads (Some lines) w
               = (Raised JSONDecodeError, with_heap (heap w ++ more) w).
Proof.
  intros Hes Hjs. unfold load_block. rewrite (bind_done _ _ w (session w) w) by done.
  rewrite Hes, bool_decide_eq_false_2 by by intros [? ?]. cbn [negb when].
  destruct (loads_lines_fail lines w Hjs) as [more Hmore]. exists more.
  by rewrite (bind_raised _ _ _ _ _ Hmore).
Qed.

End Load.

(** ** Runs and steps keep the session *)

Lemma clear_page_live rs w : live_session rs w -> live_session rs (clear_page w).
Proof.
  intros (es & os & ? & ? & ? & ? & ?). exists es, os. split_and!; try done.
  cbn. apply not_elem_of_nil.
Qed.

Lemma set_widgets_live rs values w : live_session rs w -> live_session rs (set_widgets values w).
Proof. intros (es & os & ? & ? & ? & ? & ?). by exists es, os. Qed.

Section Runs.
Context (loads : string -> option json).

Lemma script_live rs up c w :
  live_session rs w -> live_session rs (script loads up c w).2.
Proof.
  intros Hl. pose proof Hl as (es & os & Hes & _). unfold script.
  rewrite (bind_done _ _ w tt w) by (apply load_block_skip; by rewrite Hes).
  by apply page_live.
Qed.

Lemma run_live rs up c w : live_session rs w -> live_session rs (run loads up c w).
Proof.
  intros Hl. unfold run.
  pose proof (script_live rs up c (clear_page w) (clear_page_live rs w Hl)) as H.
  destruct (script loads up c (clear_page w)) as [[[]| |e] w']; cbn in H; try done.
  by apply script_live, clear_page_live.
Qed.

Lemma step_live rs ev w : live_session rs w -> live_session rs (step loads ev w).
Proof. destruct ev; cbn [step]; [apply set_widgets_live | apply run_live]. Qed.

Lemma script_first_load lines js c w :
  ss_entries (session w) = None -> WarnNoOriginal ∉ shown w ->
  mapM loads lines = Some js ->
  live_session (pyobj_of_json <$> js) (script loads (Some lines) c w).2.
Proof.
  intros Hes Hsh Hjs. unfold script.
  rewrite (bind_done _ _ _ _ _ (load_block_ok loads lines js w Hes Hjs)).
  by apply page_live, loaded_live.
Qed.

Lemma loaded_from_live rs w : loaded_from loads rs w -> live_session rs w.
Proof.
  induction 1 as [w lines js c Hes Hjs -> | ev w _ IH]; [|by apply step_live].
  cbn [step]. unfold run.
  pose proof (script_first_load lines js c (clear_page w) Hes (not_elem_of_nil _) Hjs) as H.
  destruct (script loads (Some lines) c (clear_page w)) as [[[]| |e] w']; cbn in H; try done.
  by apply script_live, clear_page_live.
Qed.

Lemma script_no_session up c w :
  no_session w ->
  no_session (script loads up c w).2 \/ exists rs, live_session rs (script loads up c w).2.
Proof.
  intros [Hes Hsh]. destruct up as [lines|].
  - destruct (mapM loads lines) as [js|] eqn:Hjs.
    + right. eexists. by apply (script_first_load lines js).
    + left. destruct (load_block_fail loads lines w Hes Hjs) as [more Hmore].
      unfold script. by rewrite (bind_raised _ _ _ _ _ Hmore).
  - left. unfold script. rewrite (bind_done _ _ w tt w) by done.
    rewrite (page_no_session c w Hes). split; [done|]. cbn.
    intros [?|Hin%list_elem_of_singleton]%elem_of_app; [auto | done].
Qed.

Lemma script_ok up c w : session_ok w -> session_ok (script loads up c w).2.
Proof.
  intros [Hno|[rs Hl]]; [by apply script_no_session|].
  right. exists rs. by apply script_live.
Qed.

Lemma clear_page_ok w : session_ok w -> session_ok (clear_page w).
Proof.
  intros [[Hes _]|[rs Hl]].
  - left. split; [done | apply not_elem_of_nil].
  - right. exists rs. by apply clear_page_live.
Qed.

Lemma step_ok ev w : session_ok w -> session_ok (step loads ev w).
Proof.
  intros Hok. destruct ev as [values|up c]; cbn [step].
  - destruct Hok as [[Hes Hsh]|[rs Hl]]; [by left | right; exists rs; by apply set_widgets_live].
  - unfold run. pose proof (script_ok up c (clear_page w) (clear_page_ok w Hok)) as H.
    destruct (script loads up c (clear_page w)) as [[[]| |e] w']; cbn in H; try done.
    by apply script_ok, clear_page_ok.
Qed.

Lemma reachable_ok w : reachable loads w -> session_ok w.
Proof.
  induction 1 as [|ev w _ IH]; [|by apply step_ok].
  left. split; [done | apply not_elem_of_nil].
Qed.

End Runs.

(** ** The page of a record, drawn with no button down *)

Lemma init_widget_run key v w :
  init_widget key v w
  = (Done tt, World (heap w)
                    (SessionState (ss_entries (session w)) (ss_original_entries (session w))
                       (ss_current_idx (session w)) (init_value key v (ss_widgets (session w))))
                    (shown w)).
Proof.
  unfold init_widget, init_value. mrun.
  destruct (ss_widgets (session w) !! key); [|done]. by destruct w as [h [] sh].
Qed.

Lemma list_index_lt v l : v ∈ l -> (list_index v l < length l)%nat.
Proof.
  induction l as [|x l IH]; [by intros ?%elem_of_nil|].
  intros Hin. cbn. destruct (decide (x = v)); [lia|].
  apply elem_of_cons in Hin as [->|Hin]; [done|]. specialize (IH Hin). lia.
Qed.

Lemma type_index_lt v : (type_index v < length PII_TYPES)%nat.
Proof.
  unfold type_index. case_bool_decide as Hin; [by apply list_index_lt|]. cbn. lia.
Qed.

Lemma rel_index_lt v : (rel_index v < 2)%nat.
Proof. unfold rel_index. destruct (decide _); lia. Qed.

(** A select box whose key holds a value: the index is computed from the
    value, and the widget is drawn. *)
Lemma selectbox_run options (index : string -> nat) key v w :
  ss_widgets (session w) !! key = Some v ->
  (index v < length options)%nat ->
  selectbox options (index v) key w
  = (Done tt, World (heap w)
                    (SessionState (ss_entries (session w)) (ss_original_entries (session w))
                       (ss_current_idx (session w))
                       (select_value options index key (ss_widgets (session w))))
                    (shown w)).
Proof.
  intros Hv Hlt.
  unfold selectbox. rewrite (bind_done _ _ w v w) by by apply read_widget_run.
  unfold select_value, selected. rewrite Hv.
  destruct (lookup_lt_is_Some_2 options (index v) Hlt) as [o Ho].
  case_bool_decide; cbn [negb when].
  - by destruct w as [h [] sh].
  - mrun. by rewrite Ho.
Qed.

Lemma init_value_is_Some key v W : is_Some (init_value key v W !! key).
Proof.
  unfold init_value. destruct (W !! key) eqn:H; [by rewrite H|]. by rewrite lookup_insert_eq.
Qed.

Lemma init_value_is_Some_keeps key key' v W :
  is_Some (W !! key') -> is_Some (init_value key v W !! key').
Proof.
  intros [x Hx]. unfold init_value. destruct (W !! key) eqn:H; [by rewrite Hx|].
  destruct (decide (key = key')) as [->|Hne]; [by rewrite lookup_insert_eq|].
  by rewrite lookup_insert_ne, Hx.
Qed.

Lemma select_value_is_Some_keeps options index key key' W :
  is_Some (W !! key') -> is_Some (select_value options index key W !! key').
Proof.
  intros [x Hx]. unfold select_value. destruct (W !! key) eqn:H; [|by rewrite Hx].
  case_bool_decide; [by rewrite Hx|].
  destruct (decide (key = key')) as [->|Hne]; [by rewrite lookup_insert_eq|].
  by rewrite lookup_insert_ne, Hx.
Qed.

Lemma init_pii_widgets_run idx items : forall w,
  init_pii_widgets idx items w
  = (Done tt, World (heap w)
                    (SessionState (ss_entries (session w)) (ss_original_entries (session w))
                       (ss_current_idx (session w))
                       (pii_widget_values idx items (ss_widgets (session w))))
                    (shown w)).
Proof.
  induction items as [|[pii info] items IH]; intros w.
  - cbn. by destruct w as [h [] sh].
  - cbn [init_pii_widgets]. cbv zeta.
    rewrite (bind_done _ _ _ _ _ (init_widget_run _ _ _)).
    rewrite (bind_done _ _ _ _ _ (init_widget_run _ _ _)).
    set (W1 := init_value (rel_key idx pii) _ _).
    destruct (init_value_is_Some_keeps (rel_key idx pii) (type_key idx pii) (relevance info)
                _ (init_value_is_Some (type_key idx pii) (type info) (ss_widgets (session w))))
      as [t Ht].
    fold W1 in Ht.
    set (w1 := World _ _ _).
    rewrite (bind_done _ _ w1 t w1) by by apply read_widget_run.
    rewrite (bind_done _ _ _ _ _
               (selectbox_run PII_TYPES type_index (type_key idx pii) t w1 Ht (type_index_lt t))).
    cbn [heap session shown ss_entries ss_original_entries ss_current_idx ss_widgets w1].
    set (W2 := select_value PII_TYPES type_index _ W1).
    destruct (select_value_is_Some_keeps PII_TYPES type_index (type_key idx pii)
                (rel_key idx pii) W1 (init_value_is_Some _ _ _)) as [r Hr].
    fold W2 in Hr.
    set (w2 := World _ _ _).
    rewrite (bind_done _ _ w2 r w2) by by apply read_widget_run.
    rewrite (bind_done _ _ _ _ _
               (selectbox_run ["high"; "low"] rel_index (rel_key idx pii) r w2 Hr
                  (rel_index_lt r))).
    by rewrite IH.
Qed.

Lemma button_other (c label : click) d : c <> label -> button c label d = false.
Proof. intros H. unfold button. by rewrite bool_decide_eq_false_2. Qed.

(** With no button down, or the last one, the page is drawn down to the last
    button. *)
Lemma page_body_quiet_run c w idx entries a e :
  c = NoClick \/ c = LoadOriginal ->
  ss_entries (session w) = Some entries ->
  ss_current_idx (session w) = Some idx ->
  record_at w entries idx a e ->
  page_body c idx entries a w = load_original_button c (drawn_world idx entries a e w).
Proof.
  intros Hc Hes Hidx [Hat He]. unfold page_body.
  unfold previous_button, go_button, next_button, add_pii_button, update_button,
    save_button, download_button.
  rewrite !button_other by (destruct Hc as [->| ->]; done).
  destruct Hc as [->| ->].
  all: cbn [when].
  all: do 3 rewrite (bind_done _ _ w tt w) by done.
  all: rewrite (bind_done _ _ w e w) by by apply get_record_run.
  all: rewrite (bind_done _ _ _ _ _ (init_widget_run _ _ _)).
  all: set (w1 := World _ _ _).
  all: do 2 rewrite (bind_done _ _ w1 tt w1) by done.
  all: rewrite (bind_done _ _ w1 e w1) by by apply get_record_run.
  all: rewrite (bind_done _ _ w1 tt
                  (with_shown (Preview (highlight_pii (context e) (piis e))) w1)) by done.
  all: rewrite (bind_done _ _ _ _ _ (init_widget_run _ _ _)).
  all: rewrite (bind_done _ _ _ _ _ (init_pii_widgets_run _ _ _)).
  all: cbn [heap session shown with_shown ss_entries ss_original_entries ss_current_idx
            ss_widgets].
  all: set (w3 := World _ _ _).
  all: rewrite (bind_done _ _ w3 tt w3) by done.
  all: assert (record_at w3 entries idx a e) as Hat3 by done.
  all: rewrite (bind_done _ _ w3 tt (saved_world idx entries a e w3));
    [ f_equal; unfold drawn_world, page_widgets, saved_world, w3, w1;
      cbn [heap session shown ss_entries ss_original_entries ss_current_idx ss_widgets];
      by rewrite ?Hes, ?Hidx
    | rewrite (bind_done _ _ w3 idx w3)
        by (unfold read_current_idx, w3, w1; mrun; by rewrite Hidx);
      rewrite (bind_done _ _ w3 entries w3)
        by (unfold read_entries, w3, w1; mrun; by rewrite Hes);
      by rewrite (bind_done _ _ _ _ _ (save_current_edits_run w3 idx entries a e Hat3)) ].
Qed.

Lemma page_body_noclick_run w idx entries a e :
  ss_entries (session w) = Some entries ->
  ss_current_idx (session w) = Some idx ->
  record_at w entries idx a e ->
  page_body NoClick idx entries a w = (Done tt, drawn_world idx entries a e w).
Proof.
  intros Hes Hidx Hat. by rewrite (page_body_quiet_run NoClick w idx entries a e) by auto.
Qed.

(** With a session, the script is the page of the active record. *)
Lemma script_page_body loads up c w idx entries a :
  ss_entries (session w) = Some entries ->
  ss_current_idx (session w) = Some idx ->
  at_index entries idx a ->
  script loads up c w = page_body c idx entries a w.
Proof.
  intros Hes Hidx (k & Hk & Ha). unfold script.
  rewrite (bind_done _ _ w tt w) by (apply load_block_skip; by rewrite Hes).
  unfold page. rewrite (bind_done _ _ w (session w) w) by done.
  rewrite Hes, bool_decide_eq_true_2 by done.
  rewrite (bind_done _ _ w entries w) by (unfold read_entries; mrun; by rewrite Hes).
  rewrite (bind_done _ _ w idx w) by (unfold read_current_idx; mrun; by rewrite Hidx).
  by rewrite (bind_done _ _ w a w) by (unfold list_getitem; rewrite Hk; cbn; by rewrite Ha).
Qed.

(** ** The widget keys *)

Lemma context_key_not_question i j : context_key i <> question_key j.
Proof. unfold context_key, question_key. simpl. discriminate. Qed.

Lemma context_key_not_type i j pii : context_key i <> type_key j pii.
Proof. unfold context_key, type_key. simpl. discriminate. Qed.

Lemma context_key_not_rel i j pii : context_key i <> rel_key j pii.
Proof. unfold context_key, rel_key. simpl. discriminate. Qed.

Lemma init_value_lookup key v W :
  init_value key v W !! key = Some (default v (W !! key)).
Proof.
  unfold init_value. destruct (W !! key) eqn:H; [done|]. by rewrite lookup_insert_eq.
Qed.

Lemma init_value_lookup_ne key key' v W :
  key <> key' -> init_value key v W !! key' = W !! key'.
Proof.
  intros Hne. unfold init_value. destruct (W !! key); [done|]. by rewrite lookup_insert_ne.
Qed.

Lemma select_value_lookup_ne options index key key' W :
  key <> key' -> select_value options index key W !! key' = W !! key'.
Proof.
  intros Hne. unfold select_value. destruct (W !! key); [|done].
  case_bool_decide; [done|]. by rewrite lookup_insert_ne.
Qed.

Lemma select_value_lookup options index key W :
  select_value options index key W !! key
  = (fun v => selected options (index v) v) <$> (W !! key).
Proof.
  unfold select_value, selected. destruct (W !! key) as [v|] eqn:Hv; [|by rewrite Hv].
  cbn [fmap option_fmap option_map]. destruct (bool_decide (v ∈ options)); [done|].
  by rewrite lookup_insert_eq.
Qed.

(** One turn of the loop touches the two keys of its item only. *)
Lemma pii_widget_value_other idx W x k :
  k <> type_key idx x.1 -> k <> rel_key idx x.1 ->
  pii_widget_value idx W x !! k = W !! k.
Proof.
  intros Ht Hr. unfold pii_widget_value.
  rewrite !select_value_lookup_ne by done. by rewrite !init_value_lookup_ne by done.
Qed.

Lemma pii_widget_values_skip idx items k : forall W,
  Forall (fun x => k <> type_key idx x.1 /\ k <> rel_key idx x.1) items ->
  pii_widget_values idx items W !! k = W !! k.
Proof.
  unfold pii_widget_values. induction items as [|x items IH]; intros W Hk; [done|].
  apply Forall_cons in Hk as [[Ht Hr] Hk]. cbn [fold_left]. rewrite IH by done.
  by apply pii_widget_value_other.
Qed.

Lemma pii_widget_values_other idx items k W :
  (forall pii, k <> type_key idx pii) -> (forall pii, k <> rel_key idx pii) ->
  pii_widget_values idx items W !! k = W !! k.
Proof.
  intros Ht Hr. apply pii_widget_values_skip, Forall_forall. intros x _. by split.
Qed.

Lemma pii_widget_values_context idx items j W :
  pii_widget_values idx items W !! context_key j = W !! context_key j.
Proof.
  apply pii_widget_values_other; intros pii;
    [apply context_key_not_type | apply context_key_not_rel].
Qed.

Lemma page_widgets_context idx e W :
  page_widgets idx e W !! context_key idx = Some (default (context e) (W !! context_key idx)).
Proof.
  unfold page_widgets. rewrite pii_widget_values_context.
  rewrite init_value_lookup_ne by (intros H; by apply (context_key_not_question idx idx)).
  apply init_value_lookup.
Qed.

(** ** Edit, next, previous *)



Section EditNextPrevious.
Context (loads : string -> option json) (up : option (list string)).
Context (w : world) (entries : list loc) (a0 a1 : loc) (e0 e1 : entry).
Context (c : string) (V : gmap string string).
Hypothesis Hes : ss_entries (session w) = Some entries.
Hypothesis Hidx : ss_current_idx (session w) = Some 0.
Hypothesis Ha0 : entries !! 0%nat = Some a0.
Hypothesis Ha1 : entries !! 1%nat = Some a1.
Hypothesis Hne : a0 <> a1.
Hypothesis He0 : heap w !! a0 = Some (Rec e0).
Hypothesis He1 : heap w !! a1 = Some (Rec e1).
Hypothesis HV : V !! context_key 0 = None \/ V !! context_key 0 = Some c.






End EditNextPrevious.

(** ** The rerun after "Load Original" *)

Lemma string_app_inv_head (p a b : string) : p +:+ a = p +:+ b -> a = b.
Proof. induction p as [|c p IH]; simpl; intros H; [done|]. injection H as H. auto. Qed.

Lemma type_key_inj idx p p' : type_key idx p = type_key idx p' -> p = p'.
Proof.
  unfold type_key. intros H.
  by do 3 apply string_app_inv_head in H.
Qed.

Lemma rel_key_inj idx p p' : rel_key idx p = rel_key idx p' -> p = p'.
Proof.
  unfold rel_key. intros H.
  by do 3 apply string_app_inv_head in H.
Qed.

Lemma type_key_not_rel i j p p' : type_key i p <> rel_key j p'.
Proof. unfold type_key, rel_key. simpl. discriminate. Qed.

Lemma question_key_not_type i j pii : question_key i <> type_key j pii.
Proof. unfold question_key, type_key. simpl. discriminate. Qed.

Lemma question_key_not_rel i j pii : question_key i <> rel_key j pii.
Proof. unfold question_key, rel_key. simpl. discriminate. Qed.

(** After its turn of the loop, the select boxes of an item hold what they
    make of the values that were under their keys, or of the type and the
    relevance of the item when there were none. *)
Lemma pii_widget_value_item idx W x :
  pii_widget_value idx W x !! type_key idx x.1
  = Some (selected_type (default (type x.2) (W !! type_key idx x.1))) /\
  pii_widget_value idx W x !! rel_key idx x.1
  = Some (selected_rel (default (relevance x.2) (W !! rel_key idx x.1))).
Proof.
  unfold pii_widget_value. split.
  - rewrite select_value_lookup_ne by (intros H; by apply (type_key_not_rel idx idx x.1 x.1)).
    rewrite select_value_lookup.
    rewrite init_value_lookup_ne by (intros H; by apply (type_key_not_rel idx idx x.1 x.1)).
    by rewrite init_value_lookup.
  - rewrite select_value_lookup, select_value_lookup_ne by apply type_key_not_rel.
    rewrite init_value_lookup.
    by rewrite init_value_lookup_ne by apply type_key_not_rel.
Qed.

Lemma pii_widget_values_item idx (items : list (string * info)) x : forall W,
  NoDup (items.*1) -> x ∈ items ->
  pii_widget_values idx items W !! type_key idx x.1
  = Some (selected_type (default (type x.2) (W !! type_key idx x.1))) /\
  pii_widget_values idx items W !! rel_key idx x.1
  = Some (selected_rel (default (relevance x.2) (W !! rel_key idx x.1))).
Proof.
  induction items as [|y items IH]; intros W Hnd Hin.
  - by apply elem_of_nil in Hin.
  - rewrite fmap_cons in Hnd. apply NoDup_cons in Hnd as [Hy Hnd].
    unfold pii_widget_values. cbn [fold_left].
    fold (pii_widget_values idx items (pii_widget_value idx W y)).
    apply elem_of_cons in Hin as [->|Hin].
    + assert (Forall (fun z => y.1 <> z.1) items) as Hfresh.
      { apply Forall_forall. intros z Hz Heq. apply Hy. rewrite Heq.
        apply list_elem_of_fmap. by exists z. }
      rewrite !pii_widget_values_skip.
      * apply pii_widget_value_item.
      * eapply Forall_impl; [exact Hfresh|]. intros z Hz. cbn beta. split.
        -- intros H. by apply (type_key_not_rel idx idx z.1 y.1).
        -- intros H%rel_key_inj. by apply Hz.
      * eapply Forall_impl; [exact Hfresh|]. intros z Hz. cbn beta. split.
        -- intros H%type_key_inj. by apply Hz.
        -- apply type_key_not_rel.
    + assert (x.1 <> y.1) as Hne.
      { intros Heq. apply Hy. rewrite <- Heq. apply list_elem_of_fmap. by exists x. }
      destruct (IH (pii_widget_value idx W y) Hnd Hin) as [Ht Hr].
      rewrite Ht, Hr.
      rewrite !pii_widget_value_other; [done | | | |].
      * intros H. by apply (type_key_not_rel idx idx y.1 x.1).
      * intros H%rel_key_inj. by apply Hne.
      * intros H%type_key_inj. by apply Hne.
      * apply type_key_not_rel.
Qed.

Lemma selected_in options i v :
  (i < length options)%nat -> selected options i v ∈ options.
Proof.
  intros Hlt. unfold selected. case_bool_decide; [done|].
  destruct (lookup_lt_is_Some_2 options i Hlt) as [o Ho]. rewrite Ho. cbn.
  by eapply list_elem_of_lookup_2.
Qed.

Lemma selected_type_in v : selected_type v ∈ PII_TYPES.
Proof. apply selected_in, type_index_lt. Qed.

Lemma selected_rel_in v : selected_rel v ∈ ["high"; "low"].
Proof. apply selected_in. cbn. apply rel_index_lt. Qed.

Lemma selected_option options i v : v ∈ options -> selected options i v = v.
Proof. intros H. unfold selected. by rewrite bool_decide_eq_true_2. Qed.

(** The record the save makes of a drawn page: context and question as the
    fields hold them, the annotations as the select boxes hold them. *)
Lemma save_entry_page_widgets idx e W :
  dict_wf (piis e) ->
  let W' := page_widgets idx e W in
  save_entry W' idx e
  = Entry (others e) (default (context e) (W !! context_key idx))
      (default (question e) (W !! question_key idx))
      ((fun x => (x.1, Info (selected_type (default (type x.2) (W !! type_key idx x.1)))
                           (selected_rel (default (relevance x.2) (W !! rel_key idx x.1)))))
         <$> piis e).
Proof.
  intros Hwf W'. destruct e as [o c q p]. cbn [piis others context question] in *.
  set (e := Entry o c q p).
  assert (W' !! context_key idx = Some (default c (W !! context_key idx))) as Hc.
  { subst W'. by rewrite page_widgets_context. }
  assert (W' !! question_key idx = Some (default q (W !! question_key idx))) as Hq.
  { subst W'. unfold page_widgets.
    rewrite pii_widget_values_other
      by (intros pii; apply question_key_not_type || apply question_key_not_rel).
    cbn [question context].
    by rewrite init_value_lookup, init_value_lookup_ne by apply context_key_not_question. }
  assert (saved_info W' idx <$> p
          = (fun x => (x.1, Info (selected_type (default (type x.2) (W !! type_key idx x.1)))
                               (selected_rel (default (relevance x.2) (W !! rel_key idx x.1)))))
              <$> p) as Hp.
  { apply Forall_fmap_ext, Forall_forall. intros x Hx.
    destruct (pii_widget_values_item idx p x
                (init_value (question_key idx) q (init_value (context_key idx) c W)) Hwf Hx)
      as [Ht Hr].
    rewrite init_value_lookup_ne in Ht by apply question_key_not_type.
    rewrite init_value_lookup_ne in Ht by apply context_key_not_type.
    rewrite init_value_lookup_ne in Hr by apply question_key_not_rel.
    rewrite init_value_lookup_ne in Hr by apply context_key_not_rel.
    unfold saved_info, W', page_widgets. cbn [question context piis]. by rewrite Ht, Hr. }
  assert (piis (save_entry W' idx e) = saved_info W' idx <$> p) as Hpiis
    by by rewrite save_entry_piis.
  unfold save_entry in *. unfold set_piis, set_question, set_context in *.
  cbn [others context question piis] in *. by rewrite Hpiis, Hc, Hq, Hp.
Qed.

(** Drawing the page of a record from no widget values and saving the values
    drawn: the select boxes replace a type and a relevance that are none of
    their options, and the save writes annotations of two fields. *)
Lemma save_entry_drawn idx e :
  dict_wf (piis e) -> save_entry (page_widgets idx e ∅) idx e = drawn_entry e.
Proof.
  intros Hwf. rewrite (save_entry_page_widgets idx e ∅ Hwf).
  destruct e as [o c q p]. unfold drawn_entry, set_piis. cbn [others context question piis].
  reflexivity.
Qed.

Lemma shown_info_plain i : plain_info i -> shown_info i = i.
Proof.
  intros (Ht & Hr & Hm). destruct i as [t r m]. cbn [type relevance more] in *. subst m.
  unfold shown_info, selected_type, selected_rel. cbn [type relevance].
  by rewrite !selected_option.
Qed.

(** A record of the data model is drawn and saved as it is. *)
Lemma drawn_entry_plain e : plain_entry e -> drawn_entry e = e.
Proof.
  intros Hplain. destruct e as [o c q p]. unfold drawn_entry, set_piis, plain_entry in *.
  cbn [others context question piis] in *. f_equal.
  rewrite <- (list_fmap_id p) at 2. apply Forall_fmap_ext, Forall_forall. intros [k i] Hx.
  unfold prod_map. cbn [fst snd id]. f_equal. apply shown_info_plain.
  rewrite Forall_forall in Hplain. apply Hplain, list_elem_of_fmap. by exists (k, i).
Qed.

Lemma as_piis_wf j p : as_piis j = Some p -> dict_wf p.
Proof.
  unfold as_piis. destruct (as_object j) as [fields|]; [|done]. cbn [mbind option_bind].
  case_guard as Hnd; [|done]. cbn [mbind option_bind]. intros H%mapM_Some.
  unfold dict_wf, dict_keys. replace (p.*1) with (fields.*1); [exact Hnd|].
  clear Hnd. induction H as [|[k v] y fields p Hy _ IH]; [reflexivity|].
  rewrite !fmap_cons. f_equal; [|exact IH].
  cbn in Hy. destruct (as_info v); [|done]. by injection Hy as <-.
Qed.

Lemma as_entry_wf j e : as_entry j = Some e -> dict_wf (piis e).
Proof.
  unfold as_entry. destruct (as_object j) as [fields|]; [|done]. cbn [mbind option_bind].
  destruct (dict_get "context" fields ≫= as_string) as [c|]; [|done]. cbn [mbind option_bind].
  destruct (dict_get "question" fields ≫= as_string) as [q|]; [|done]. cbn [mbind option_bind].
  destruct (dict_get "piis" fields ≫= as_piis) as [p|] eqn:Hp; [|done]. cbn [mbind option_bind].
  intros [= <-]. cbn [piis].
  destruct (dict_get "piis" fields) as [jp|]; [|done]. by apply (as_piis_wf jp).
Qed.

Lemma pyobj_of_json_wf j : obj_wf (pyobj_of_json j).
Proof.
  unfold pyobj_of_json. destruct (as_entry j) as [e|] eqn:He; [|done].
  by apply (as_entry_wf j).
Qed.

Lemma loaded_from_wf loads rs w : loaded_from loads rs w -> Forall obj_wf rs.
Proof.
  induction 1 as [w lines js c _ _ -> | ev w _ IH]; [|done].
  apply Forall_fmap, Forall_forall. intros j _. apply pyobj_of_json_wf.
Qed.

Lemma page_raised_at_index c w entries idx :
  ss_entries (session w) = Some entries ->
  ss_current_idx (session w) = Some idx ->
  py_index (length entries) idx ≫= (entries !!.) = None ->
  page c w = (Raised IndexError, w).
Proof.
  intros Hes Hidx Hnone. unfold page. rewrite (bind_done _ _ w (session w) w) by done.
  rewrite Hes, bool_decide_eq_true_2 by done.
  rewrite (bind_done _ _ w entries w) by (unfold read_entries; mrun; by rewrite Hes).
  rewrite (bind_done _ _ w idx w) by (unfold read_current_idx; mrun; by rewrite Hidx).
  by rewrite (bind_raised _ _ w IndexError w) by (unfold list_getitem; by rewrite Hnone).
Qed.

Lemma page_body_noclick_raw w idx entries a j :
  heap w !! a = Some (Raw j) ->
  page_body NoClick idx entries a w = (Raised ShapeError, w).
Proof.
  intros Ha. unfold page_body, previous_button, go_button, next_button.
  rewrite !button_other by done. cbn [when].
  do 3 rewrite (bind_done _ _ w tt w) by done.
  by rewrite (bind_raised _ _ w ShapeError w) by (mrun; by rewrite Ha).
Qed.

(** The rerun "Load Original" asks for draws the page of record 0 from no
    widget values and saves the values drawn into it: record 0 becomes what
    the select boxes make of it.  The rerun changes no other object, neither
    list and not the index. *)
Lemma script_after_reload loads up rs w :
  Forall obj_wf rs ->
  let w' := clear_page (reloaded_world rs w) in
  let w'' := (script loads up NoClick w').2 in
  heap w'' = match rs with
             | Rec e :: _ => <[(length (heap w) + length rs)%nat := Rec (drawn_entry e)]> (heap w')
             | _ => heap w'
             end /\
  ss_entries (session w'') = ss_entries (session w') /\
  ss_original_entries (session w'') = ss_original_entries (session w') /\
  ss_current_idx (session w'') = Some 0 /\
  (forall e rs', rs = Rec e :: rs' ->
     shown w'' = [Preview (highlight_pii (context e) (piis e))]).
Proof.
  intros Hwf w' w''. subst w''.
  set (es := seq (length (heap w) + length rs) (length rs)).
  assert (ss_entries (session w') = Some es) as Hes by done.
  assert (ss_current_idx (session w') = Some 0) as Hidx by done.
  destruct rs as [|r rs'].
  - unfold script.
    rewrite (bind_done _ _ w' tt w') by (apply load_block_skip; by rewrite Hes).
    by rewrite (page_raised_at_index NoClick w' es 0 Hes Hidx).
  - set (a := (length (heap w) + length (r :: rs'))%nat).
    assert (at_index es 0 a) as Hat by (exists 0%nat; by split).
    assert (heap w' !! a = Some r) as Ha.
    { subst w' a. cbn [clear_page reloaded_world heap].
      rewrite lookup_app_r by lia. rewrite Nat.add_comm, Nat.add_sub.
      rewrite lookup_app_r by lia. by rewrite Nat.sub_diag. }
    rewrite (script_page_body loads up NoClick w' 0 es a Hes Hidx Hat).
    destruct r as [e|j].
    + rewrite (page_body_noclick_run w' 0 es a e Hes Hidx) by done.
      cbn [snd drawn_world heap session shown ss_entries ss_original_entries ss_current_idx].
      apply Forall_cons in Hwf as [Hwf _]. cbn [obj_wf] in Hwf.
      change (ss_widgets (session w')) with (∅ : gmap string string).
      rewrite (save_entry_drawn 0 e Hwf). split_and!; try done.
      by intros e1 rs1 [= <- <-].
    + by rewrite (page_body_noclick_raw w' 0 es a j Ha).
Qed.

(** The two lists "Load Original" leaves read as the original records. *)
Lemma reloaded_contents rs w :
  let n := length (heap w) in
  let k := length rs in
  contents (reloaded_world rs w) (seq (n + k) k) rs /\
  contents (reloaded_world rs w) (seq (n + k + k) k) rs.
Proof.
  intros n k. split.
  - replace (n + k)%nat with (length (heap w ++ rs)) by (rewrite length_app; done).
    apply (contents_seq _ _ _ (heap w ++ rs) rs rs). by rewrite <- !app_assoc.
  - replace (n + k + k)%nat with (length (heap w ++ rs ++ rs)) by (rewrite !length_app; lia).
    apply (contents_seq _ _ _ (heap w ++ rs ++ rs) rs []). by rewrite app_nil_r, <- !app_assoc.
Qed.

(** A click on "Load Original" with the page of the record [e] open: the
    script draws the page, the handler reloads and asks for a rerun, and the
    rerun draws the page of the new record 0. *)
Lemma run_load_original loads up rs w es os idx a e :
  Forall obj_wf rs ->
  ss_entries (session w) = Some es ->
  ss_original_entries (session w) = Some os ->
  ss_current_idx (session w) = Some idx ->
  (forall b, b ∈ es -> b ∉ os) ->
  contents w os rs ->
  record_at w es idx a e ->
  let wd := drawn_world idx es a e (clear_page w) in
  let w' := reloaded_world rs wd in
  let w'' := run loads up LoadOriginal w in
  heap w'' = match rs with
             | Rec e0 :: _ =>
                 <[(length (heap w) + length rs)%nat := Rec (drawn_entry e0)]> (heap w')
             | _ => heap w'
             end /\
  ss_entries (session w'') = ss_entries (session w') /\
  ss_original_entries (session w'') = ss_original_entries (session w') /\
  ss_current_idx (session w'') = Some 0 /\
  (forall e0 rs', rs = Rec e0 :: rs' ->
     shown w'' = [Preview (highlight_pii (context e0) (piis e0))]).
Proof.
  intros Hwf Hes Hos Hidx Hdisj Hrs [Hat He] wd w' w''. subst w''. unfold run.
  rewrite (script_page_body loads up LoadOriginal (clear_page w) idx es a Hes Hidx Hat).
  rewrite (page_body_quiet_run LoadOriginal (clear_page w) idx es a e) by (auto || by split).
  fold wd.
  assert (a ∈ es) as Hin by (destruct Hat as (k & _ & Hk); by eapply list_elem_of_lookup_2).
  assert (contents wd os rs) as Hrs'.
  { unfold contents in *. apply Forall2_same_length_lookup.
    apply Forall2_same_length_lookup in Hrs as [Hlen Hrs]. split; [done|].
    intros i b r Hb Hr. subst wd. cbn [drawn_world heap clear_page].
    rewrite list_lookup_insert_ne; [by eapply Hrs|].
    intros ->. eapply Hdisj; [exact Hin|]. by eapply list_elem_of_lookup_2. }
  rewrite (load_original_button_run wd os rs) by done.
  assert (length (heap wd) = length (heap w)) as Hlen
    by (subst wd; cbn [drawn_world heap clear_page]; by rewrite length_insert).
  rewrite <- Hlen. by apply script_after_reload.
Qed.

(** ** Navigation, reset and load in a session *)


(** C8. In a session that began with loading the records [rs], whatever
    happened since, "Load Original" ends in a rerun and leaves: a new list of
    records and a new original list, both read as [rs], made of objects that
    did not exist before (no two of them the same, so the two lists share
    nothing with each other or with any older list); no widget values; the
    index 0; and every older object as it was.  The rerun the handler asks
    for then draws the page of record 0 from the record as it was parsed
    (the preview shows it), and the save that comes with every drawn page
    writes into record 0 what the select boxes hold: a type that is none of
    [PII_TYPES] has become the last of them, a relevance that is neither
    "high" nor "low" has become "low", and a field of an annotation other
    than these two is gone.  So after the whole run of a click on the button
    with the page of a record open the two lists are new, the index is 0,
    the original list reads as [rs], and so does the list of records when
    record 0 is a record of the data model (otherwise but for record 0). *)
Theorem load_original_restores loads rs w :
  loaded_from loads rs w ->
  let w' := reloaded_world rs w in
  load_original_button LoadOriginal w = (Rerun, w') /\
  (exists es os,
     ss_entries (session w') = Some es /\
     ss_original_entries (session w') = Some os /\
     contents w' es rs /\ contents w' os rs /\
     NoDup (es ++ os) /\
     Forall (fun a => (length (heap w) <= a)%nat) (es ++ os)) /\
  (forall i r, rs !! i = Some r ->
     (es ← read_entries; a ← list_getitem es (Z.of_nat i); heap_get a) w' = (Done r, w')) /\
  ss_widgets (session w') = ∅ /\
  ss_current_idx (session w') = Some 0 /\
  (forall a, (a < length (heap w))%nat -> heap w' !! a = heap w !! a) /\
  (forall up entries idx a e e0,
     ss_entries (session w) = Some entries ->
     ss_current_idx (session w) = Some idx ->
     record_at w entries idx a e ->
     rs !! 0%nat = Some (Rec e0) ->
     let w1 := step loads (Run up LoadOriginal) w in
     exists es os,
       ss_entries (session w1) = Some es /\
       ss_original_entries (session w1) = Some os /\
       contents w1 os rs /\
       contents w1 es (<[0%nat := Rec (drawn_entry e0)]> rs) /\
       (plain_entry e0 -> contents w1 es rs) /\
       shown w1 = [Preview (highlight_pii (context e0) (piis e0))] /\
       NoDup (es ++ os) /\
       Forall (fun a => (length (heap w) <= a)%nat) (es ++ os) /\
       ss_current_idx (session w1) = Some 0).
Proof.
  intros Hfrom w'. pose proof (loaded_from_wf loads rs w Hfrom) as Hwf.
  apply loaded_from_live in Hfrom as (es & os & Hes & Hos & Hdisj & Hrs & Hsh).
  set (n := length (heap w)). set (k := length rs).
  assert (NoDup (seq (n + k) k ++ seq (n + k + k) k)) as Hnd.
  { apply NoDup_app. split_and!; [apply NoDup_seq | | apply NoDup_seq].
    intros a [_ Ha]%elem_of_seq [Ha' _]%elem_of_seq. lia. }
  assert (Forall (fun a => (n <= a)%nat) (seq (n + k) k ++ seq (n + k + k) k)) as Hnew.
  { apply Forall_app. split; apply Forall_forall; intros a [Ha _]%elem_of_seq; lia. }
  destruct (reloaded_contents rs w) as [Hc1 Hc2]. fold n k w' in Hc1, Hc2.
  split_and!; try done.
  - by apply (load_original_button_run w os rs).
  - by exists (seq (n + k) k), (seq (n + k + k) k).
  - intros i r Hr.
    rewrite (bind_done _ _ w' (seq (n + k) k) w') by done.
    apply Forall2_same_length_lookup in Hc1 as [Hlen Hc1].
    assert (i < k)%nat as Hi by by eapply lookup_lt_Some.
    assert (seq (n + k) k !! i = Some (n + k + i)%nat) as Hai by by apply lookup_seq_lt.
    rewrite (bind_done _ _ w' (n + k + i)%nat w').
    + mrun. by rewrite (Hc1 i _ r Hai Hr).
    + unfold list_getitem, py_index. rewrite length_seq.
      rewrite bool_decide_eq_true_2 by lia. cbn [mbind option_bind]. rewrite Nat2Z.id. by rewrite Hai.
  - intros a Ha. cbn. by apply lookup_app_l.
  - intros up entries idx a e e0 Hentries Hidx Hat Hr0 w1.
    assert (entries = es) as -> by congruence.
    destruct (run_load_original loads up rs w es os idx a e Hwf Hes Hos Hidx Hdisj Hrs Hat)
      as (Hh & He' & Ho' & Hi' & Hshown).
    fold (step loads (Run up LoadOriginal) w) in Hh, He', Ho', Hi', Hshown.
    fold w1 in Hh, He', Ho', Hi', Hshown.
    destruct rs as [|r0 rs']; [done|]. injection Hr0 as ->.
    destruct (reloaded_contents (Rec e0 :: rs') (drawn_world idx es a e (clear_page w)))
      as [Hd1 Hd2].
    assert (length (heap (drawn_world idx es a e (clear_page w))) = n) as Hlen
      by (cbn [drawn_world heap clear_page]; by rewrite length_insert).
    rewrite Hlen in Hd1, Hd2. fold k in Hd1, Hd2. fold n k in Hh.
    assert (0 < k)%nat as Hk by (subst k; cbn; lia).
    assert (contents w1 (seq (n + k + k) k) (Rec e0 :: rs')) as Hcos.
    { unfold contents in *. rewrite Hh.
      apply Forall2_same_length_lookup. apply Forall2_same_length_lookup in Hd2 as [Hl Hd2].
      split; [done|]. intros i b r Hb Hr. rewrite list_lookup_insert_ne; [by eapply Hd2|].
      apply lookup_seq in Hb as [-> _]. lia. }
    assert (contents w1 (seq (n + k) k) (<[0%nat := Rec (drawn_entry e0)]> (Rec e0 :: rs')))
      as Hces.
    { unfold contents in *. rewrite Hh.
      apply Forall2_same_length_lookup. apply Forall2_same_length_lookup in Hd1 as [Hl Hd1].
      split; [by rewrite length_insert|]. intros i b r Hb Hr.
      apply lookup_seq in Hb as [-> Hi]. destruct i as [|i].
      - cbn in Hr. injection Hr as <-. rewrite Nat.add_0_r. apply list_lookup_insert_eq.
        cbn [reloaded_world heap]. rewrite !length_app, Hlen. fold k. lia.
      - rewrite list_lookup_insert_ne by lia. cbn in Hr.
        apply (Hd1 (S i)); [by apply lookup_seq_lt | done]. }
    exists (seq (n + k) k), (seq (n + k + k) k).
    split_and!; try done.
    + rewrite He'. cbn [reloaded_world session ss_entries]. by rewrite Hlen.
    + rewrite Ho'. cbn [reloaded_world session ss_original_entries]. by rewrite Hlen.
    + intros Hplain. by rewrite (drawn_entry_plain e0 Hplain) in Hces.
    + by apply (Hshown e0 rs').
Qed.

(** C10. In every world a session can be in, a list of records in the
    session state comes with an original list; and the warning that there is
    no original data is never shown: not on the page a finished run leaves,
    and not by the script run any click starts. *)
Theorem original_list_always_present loads w :
  reachable loads w ->
  (is_Some (ss_entries (session w)) -> is_Some (ss_original_entries (session w))) /\
  (WarnNoOriginal ∉ shown w) /\
  (forall up c, WarnNoOriginal ∉ shown (script loads up c (clear_page w)).2).
Proof.
  intros Hr. apply reachable_ok in Hr.
  assert (forall w, session_ok w ->
            (is_Some (ss_entries (session w)) -> is_Some (ss_original_entries (session w))) /\
            WarnNoOriginal ∉ shown w) as Hok.
  { intros w1 [[Hes Hsh]|(rs & es & os & Hes & Hos & _ & _ & Hsh)].
    - split; [|done]. rewrite Hes. by intros [? ?].
    - split; [|done]. by rewrite Hos. }
  split_and!; [by apply Hok | by apply Hok |].
  intros up c. by apply Hok, script_ok, clear_page_ok.
Qed.

(** C9, as the code has it.  With no session yet, the load block decodes the
    lines in order.  When some line does not decode, it raises the decoder's
    error and leaves the session state as it was (no list of records, no
    original list, no index), whatever it had decoded by then.  When every
    line decodes, it stores the decoded values, whatever their fields are,
    as the list of records and as the original list, and sets the index to
    0. *)
Theorem load_block_all_or_nothing loads lines w :
  ss_entries (session w) = None ->
  (Exists (fun line => loads line = None) lines ->
     exists more,
       load_block loads (Some lines) w
       = (Raised JSONDecodeError, World (heap w ++ more) (session w) (shown w))) /\
  (forall js, Forall2 (fun line j => loads line = Some j) lines js ->
     load_block loads (Some lines) w = (Done tt, loaded_world (pyobj_of_json <$> js) w)).
Proof.
  intros Hes. split.
  - intros Hbad. apply mapM_None in Hbad. by apply load_block_fail.
  - intros js Hjs. apply mapM_Some in Hjs. by apply load_block_ok.
Qed.

(* ===================================================================== *)
(** * Part 6: the properties at work on the example session              *)
(* ===================================================================== *)

(** After the upload the heap holds the decoded records and their two
    copies. *)
Lemma example_world_records :
  heap example_world
  = [Rec record0; Rec record1; Rec record0; Rec record1; Rec record0; Rec record1] /\
  ss_entries (session example_world) = Some [2; 3]%nat /\
  ss_original_entries (session example_world) = Some [4; 5]%nat /\
  ss_current_idx (session example_world) = Some 0.
Proof. vm_compute. done. Qed.

(** In both worlds record 0 is the active one, at address 2. *)
Lemma record_at_example : record_at example_world [2; 3]%nat 0 2%nat record0.
Proof. split; [exists 0%nat; split; reflexivity | vm_compute; reflexivity]. Defined.

Lemma record_at_edited : record_at edited_world [2; 3]%nat 0 2%nat record0.
Proof. split; [exists 0%nat; split; reflexivity | vm_compute; reflexivity]. Defined.

(** The two annotations of record 0 have different keys. *)
Lemma dict_wf_john_smith : dict_wf john_smith_piis.
Proof. apply (bool_decide_unpack _). vm_compute. exact I. Defined.

(** C1, the claim as stated, fails: the value " John " (with the blanks) is
    not a substring of the context of record 0, and "Add PII" does not report
    that; it adds the annotation "John", and the record has no annotation
    " John ". *)
Lemma add_pii_button_trims_first :
  str_in " John " (context record0) = false /\
  add_pii_button (AddPII " John " "name" "high") 0 [2; 3]%nat 2%nat example_world
  = (Rerun,
     with_shown (AddedPII "John")
       (with_record 2%nat
          (set_piis (john_smith_piis ++ [("John", Info "name" "high")]) record0)
          example_world)) /\
  dict_get " John " (john_smith_piis ++ [("John", Info "name" "high")]) = None.
Proof. vm_compute. done. Qed.

(** C1 at work: " John " is trimmed to "John", which is in the context, and
    the record gets the annotation "John". *)
Lemma add_pii_button_validates_witness :
  record_at example_world [2; 3]%nat 0 2%nat record0 /\
  is_Some (ss_widgets (session example_world) !! context_key 0) /\
  strip " John " = "John" /\
  (add_pii_button (AddPII " John " "name" "high") 0 [2; 3]%nat 2%nat example_world).1 = Rerun /\
  dict_get "John"
    (piis (refresh_pii_from_context
             (set_piis (dict_set "John" (Info "name" "high")
                          (piis (save_entry (ss_widgets (session example_world)) 0 record0)))
                       (save_entry (ss_widgets (session example_world)) 0 record0))))
  = Some (Info "name" "high").
Proof.
  assert (is_Some (ss_widgets (session example_world) !! context_key 0)) as Hctx
    by (eexists; vm_compute; reflexivity).
  split_and!; [exact record_at_example | exact Hctx | reflexivity | |].
  - destruct (add_pii_button_validates example_world 0 [2; 3]%nat 2%nat record0
                " John " "name" "high" record_at_example Hctx) as (_ & _ & H).
    destruct H as [-> _]; [vm_compute; discriminate | apply str_in_spec; vm_compute; reflexivity |].
    reflexivity.
  - destruct (add_pii_button_validates example_world 0 [2; 3]%nat 2%nat record0
                " John " "name" "high" record_at_example Hctx) as (_ & _ & H).
    destruct H as [_ H]; [vm_compute; discriminate | apply str_in_spec; vm_compute; reflexivity |].
    exact H.
Defined.

(** C2 at work: with "John lives in Smith" as context, "Smith" stays and
    "John Smith" goes. *)
Lemma refresh_pii_from_context_prunes_witness :
  dict_wf (piis record0_edited) /\
  piis (refresh_pii_from_context record0_edited) = [("Smith", Info "name" "high")] /\
  dict_get "John Smith" (piis (refresh_pii_from_context record0_edited)) = None.
Proof.
  split; [exact dict_wf_john_smith|].
  destruct (refresh_pii_from_context_prunes record0_edited dict_wf_john_smith)
    as (_ & _ & _ & -> & _).
  vm_compute. done.
Defined.

(** C3 at work: "John Smith" is replaced before "Smith", though the dict holds
    "Smith" first. *)
Lemma highlight_pii_longest_first_witness :
  (String.length "Smith" < String.length "John Smith")%nat /\
  highlight_pii "John Smith lives in Smith" john_smith_piis
  = highlight_one
      (highlight_one "John Smith lives in Smith" ("John Smith", Info "name" "high"))
      ("Smith", Info "name" "high").
Proof.
  assert (String.length "Smith" < String.length "John Smith")%nat as Hlen by (vm_compute; lia).
  split; [exact Hlen|].
  destruct highlight_pii_longest_first as (_ & H & _).
  exact (proj2 (H "John Smith lives in Smith"
                  ("John Smith", Info "name" "high") ("Smith", Info "name" "high") Hlen)).
Defined.

(** C4, the claim as stated, fails: the context field of record 0 was
    edited, "Add PII" rejects the value "Paris", and the record is no longer
    the one it was before the click: it has the edited context. *)
Lemma add_pii_button_rejects_after_saving :
  heap edited_world !! 2%nat = Some (Rec record0) /\
  add_pii_button (AddPII "Paris" "location" "high") 0 [2; 3]%nat 2%nat edited_world
  = (Done tt, with_shown ErrNotInContext (with_record 2%nat record0_edited edited_world)) /\
  heap (with_record 2%nat record0_edited edited_world) !! 2%nat = Some (Rec record0_edited) /\
  context record0 = "John Smith lives in Smith" /\
  context record0_edited = "John lives in Smith".
Proof. vm_compute. done. Qed.

(** C4 at work: "Paris" is rejected, and the world is the one the save left. *)
Lemma add_pii_button_rejects_witness :
  record_at edited_world [2; 3]%nat 0 2%nat record0 /\
  dict_wf (piis record0) /\
  is_Some (ss_widgets (session edited_world) !! context_key 0) /\
  str_in (strip "Paris") (context (save_entry (ss_widgets (session edited_world)) 0 record0))
  = false /\
  exists msg,
    add_pii_button (AddPII "Paris" "location" "high") 0 [2; 3]%nat 2%nat edited_world
    = (Done tt,
       World (<[2%nat := Rec (save_entry (ss_widgets (session edited_world)) 0 record0)]>
                (heap edited_world))
             (SessionState (Some [2; 3]%nat) (ss_original_entries (session edited_world))
                (ss_current_idx (session edited_world)) (ss_widgets (session edited_world)))
             (shown edited_world ++ [msg])).
Proof.
  assert (is_Some (ss_widgets (session edited_world) !! context_key 0)) as Hctx
    by (eexists; vm_compute; reflexivity).
  assert (str_in (strip "Paris")
            (context (save_entry (ss_widgets (session edited_world)) 0 record0)) = false) as Hin
    by (vm_compute; reflexivity).
  split_and!; [exact record_at_edited | exact dict_wf_john_smith | exact Hctx | exact Hin |].
  destruct (add_pii_button_rejects edited_world 0 [2; 3]%nat 2%nat record0
              "Paris" "location" "high" record_at_edited dict_wf_john_smith Hctx)
    as (msg & _ & H & _).
  - right. intros Hsub%str_in_spec. rewrite Hin in Hsub. discriminate.
  - by exists msg.
Defined.

(** C5 at work: the edited context is saved into record 0, and both keys of
    [piis] stay, though "John Smith" is no longer in the context. *)
Lemma save_current_edits_reconciles_witness :
  record_at edited_world [2; 3]%nat 0 2%nat record0 /\
  dict_wf (piis record0) /\
  exists e',
    (save_current_edits 0 [2; 3]%nat edited_world).1 = Done tt /\
    heap (save_current_edits 0 [2; 3]%nat edited_world).2 !! 2%nat = Some (Rec e') /\
    context e' = "John lives in Smith" /\
    dict_keys (piis e') = ["Smith"; "John Smith"].
Proof.
  split_and!; [exact record_at_edited | exact dict_wf_john_smith |].
  destruct (save_current_edits_reconciles edited_world 0 [2; 3]%nat 2%nat record0
              record_at_edited dict_wf_john_smith) as (e' & -> & _ & Hc & _ & _ & Hk).
  exists e'. split_and!; [reflexivity | reflexivity | |].
  - rewrite Hc. vm_compute. reflexivity.
  - rewrite Hk. reflexivity.
Defined.


(** The world after the edit and the update belongs to the session that
    loaded the two records. *)
Lemma loaded_from_updated :
  loaded_from json_loads [Rec record0; Rec record1] updated_world.
Proof.
  unfold updated_world, edited_world, example_world. do 2 apply loaded_step.
  eapply loaded_first; [reflexivity | vm_compute; reflexivity | vm_compute; reflexivity].
Defined.

(** The run that loaded the record with the type "person" has drawn its
    page: the record of the list has the last type and the relevance "low",
    the original record is as it was parsed. *)
Lemma person_world_records :
  heap person_world = [Rec record_person; Rec record_person_drawn; Rec record_person] /\
  ss_entries (session person_world) = Some [1]%nat /\
  ss_original_entries (session person_world) = Some [2]%nat /\
  ss_current_idx (session person_world) = Some 0.
Proof. vm_compute. done. Qed.

Lemma loaded_from_person : loaded_from json_loads [Rec record_person] person_world.
Proof.
  unfold person_world.
  eapply loaded_first; [reflexivity | vm_compute; reflexivity | vm_compute; reflexivity].
Defined.

(** C8 at work: record 0 was edited and pruned; after "Load Original" it
    reads as it was loaded, also when the rerun has drawn its page.  In the
    session of the record with the type "person", the rerun leaves record 0
    as the select boxes have it, and the original record as it was
    parsed. *)
Lemma load_original_restores_witness :
  loaded_from json_loads [Rec record0; Rec record1] updated_world /\
  heap updated_world !! 2%nat
  = Some (Rec (set_piis [("Smith", Info "name" "high")] record0_edited)) /\
  load_original_button LoadOriginal updated_world
  = (Rerun, reloaded_world [Rec record0; Rec record1] updated_world) /\
  (es ← read_entries; a ← list_getitem es 0; heap_get a)
    (reloaded_world [Rec record0; Rec record1] updated_world)
  = (Done (Rec record0), reloaded_world [Rec record0; Rec record1] updated_world) /\
  ss_widgets (session (reloaded_world [Rec record0; Rec record1] updated_world)) = ∅ /\
  plain_entry record0 /\
  (exists es os,
     ss_entries (session (step json_loads (Run None LoadOriginal) updated_world)) = Some es /\
     ss_original_entries (session (step json_loads (Run None LoadOriginal) updated_world))
     = Some os /\
     contents (step json_loads (Run None LoadOriginal) updated_world) es
       [Rec record0; Rec record1] /\
     contents (step json_loads (Run None LoadOriginal) updated_world) os
       [Rec record0; Rec record1]) /\
  loaded_from json_loads [Rec record_person] person_world /\
  (exists es os,
     ss_entries (session (step json_loads (Run None LoadOriginal) person_world)) = Some es /\
     ss_original_entries (session (step json_loads (Run None LoadOriginal) person_world))
     = Some os /\
     contents (step json_loads (Run None LoadOriginal) person_world) es
       [Rec record_person_drawn] /\
     contents (step json_loads (Run None LoadOriginal) person_world) os
       [Rec record_person]).
Proof.
  split; [exact loaded_from_updated|]. split; [vm_compute; reflexivity|].
  destruct (load_original_restores json_loads [Rec record0; Rec record1] updated_world
              loaded_from_updated) as (Hrun & _ & Hread & Hw & _ & _ & Hwhole).
  assert (plain_entry record0) as Hplain.
  { unfold plain_entry. cbn. repeat constructor; cbn; set_solver. }
  assert (record_at updated_world [2; 3]%nat 0 2%nat
            (set_piis [("Smith", Info "name" "high")] record0_edited)) as Hat.
  { split; [exists 0%nat; split; reflexivity | vm_compute; reflexivity]. }
  split_and!; [exact Hrun | exact (Hread 0%nat (Rec record0) eq_refl) | exact Hw
               | exact Hplain | | exact loaded_from_person |].
  - destruct (Hwhole None [2; 3]%nat 0 2%nat _ record0
                ltac:(vm_compute; reflexivity) ltac:(vm_compute; reflexivity) Hat eq_refl)
      as (es & os & Hes & Hos & Hcos & _ & Hces & _).
    exists es, os. split_and!; [exact Hes | exact Hos | exact (Hces Hplain) | exact Hcos].
  - destruct (load_original_restores json_loads [Rec record_person] person_world
                loaded_from_person) as (_ & _ & _ & _ & _ & _ & Hwhole').
    assert (record_at person_world [1]%nat 0 1%nat record_person_drawn) as Hat'.
    { split; [exists 0%nat; split; reflexivity | vm_compute; reflexivity]. }
    destruct (Hwhole' None [1]%nat 0 1%nat _ record_person
                ltac:(vm_compute; reflexivity) ltac:(vm_compute; reflexivity) Hat' eq_refl)
      as (es & os & Hes & Hos & Hcos & Hces & _).
    exists es, os. split_and!; [exact Hes | exact Hos | | exact Hcos].
    assert (drawn_entry record_person = record_person_drawn) as Hd
      by (vm_compute; reflexivity).
    rewrite Hd in Hces. exact Hces.
Defined.

(** C9, the claim as stated, fails: the line is JSON, it has no [piis], and
    the load block does not fail on it; it stores the value as the one record
    of the session (and of the original list). *)
Lemma load_block_takes_line_without_piis :
  json_loads line_without_piis = Some json_without_piis /\
  dict_get "piis" [("context", JString "a"); ("question", JString "b")] = None /\
  as_entry json_without_piis = None /\
  load_block json_loads (Some [line_without_piis]) initial_world
  = (Done tt,
     World [Raw json_without_piis; Raw json_without_piis; Raw json_without_piis]
           (SessionState (Some [1%nat]) (Some [2%nat]) (Some 0) ∅) []).
Proof. vm_compute. done. Qed.

(** C9 at work: one bad line among three stops the load and leaves no
    session; the two good lines alone are loaded. *)
Lemma load_block_all_or_nothing_witness :
  ss_entries (session initial_world) = None /\
  json_loads "oops" = None /\
  (exists more,
     load_block json_loads (Some [line0; "oops"; line1]) initial_world
     = (Raised JSONDecodeError, World (heap initial_world ++ more) (session initial_world) [])) /\
  load_block json_loads (Some [line0; line1]) initial_world
  = (Done tt, loaded_world [Rec record0; Rec record1] initial_world).
Proof.
  assert (json_loads "oops" = None) as Hbad by (vm_compute; reflexivity).
  split_and!; [reflexivity | exact Hbad | |].
  - apply (proj1 (load_block_all_or_nothing json_loads [line0; "oops"; line1]
                    initial_world eq_refl)).
    apply Exists_cons_tl, Exists_cons_hd. exact Hbad.
  - assert (exists js, Forall2 (fun line j => json_loads line = Some j) [line0; line1] js /\
                        pyobj_of_json <$> js = [Rec record0; Rec record1]) as (js & Hjs & Hrs).
    { eexists [_; _]. split; [repeat constructor; vm_compute; reflexivity|].
      vm_compute. reflexivity. }
    rewrite <- Hrs.
    exact (proj2 (load_block_all_or_nothing json_loads [line0; line1] initial_world eq_refl)
             js Hjs).
Defined.

(** The world after the edit and the update is one a session can be in. *)
Lemma reachable_updated : reachable json_loads updated_world.
Proof. unfold updated_world, edited_world, example_world. repeat constructor. Defined.

(** C10 at work: that world has both lists, and a click on "Load Original"
    does not show the warning. *)
Lemma original_list_always_present_witness :
  reachable json_loads updated_world /\
  is_Some (ss_entries (session updated_world)) /\
  is_Some (ss_original_entries (session updated_world)) /\
  (WarnNoOriginal ∉ shown (script json_loads None LoadOriginal (clear_page updated_world)).2).
Proof.
  assert (is_Some (ss_entries (session updated_world))) as Hes
    by (eexists; vm_compute; reflexivity).
  destruct (original_list_always_present json_loads updated_world reachable_updated)
    as (Hos & _ & Hw).
  split_and!; [exact reachable_updated | exact Hes | exact (Hos Hes) | exact (Hw None LoadOriginal)].
Defined.

(* ===================================================================== *)
(** * Part 7: more of the script                                        *)
(* ===================================================================== *)

(** ** The "Go" button *)

Lemma at_index_bounds entries idx a :
  at_index entries idx a -> (0 < length entries)%nat.
Proof.
  intros (k & Hk & Ha). apply lookup_lt_Some in Ha. lia.
Qed.

Lemma go_button_run w idx entries a e goto :
  record_at w entries idx a e ->
  go_button (Go goto) idx entries w
  = (Rerun, with_current_idx
              ((if bool_decide (1 <= goto <= Z.of_nat (length entries)) then goto
                else idx + 1) - 1)
              (saved_world idx entries a e w)).
Proof.
  intros Hat. unfold go_button, number_input. cbn [when].
  rewrite (bind_done _ _ _ _ _ (save_current_edits_run w idx entries a e Hat)).
  by mrun.
Qed.

(** ** The "Update PII list from context" button *)

Lemma update_button_run w idx entries a e0 :
  record_at w entries idx a e0 ->
  update_button UpdatePII idx entries a w
  = (Rerun, with_shown PIIsUpdated
              (with_record a (refresh_pii_from_context (save_entry (ss_widgets (session w)) idx e0))
                 (saved_world idx entries a e0 w))).
Proof.
  intros Hat. unfold update_button, button.
  rewrite (bool_decide_eq_true_2 (UpdatePII = UpdatePII)) by done. cbn [andb negb when].
  rewrite (bind_done _ _ _ _ _ (save_current_edits_run w idx entries a e0 Hat)).
  set (e := save_entry _ idx e0). set (w1 := saved_world _ _ _ _ _).
  pose proof (record_at_saved w idx entries a e0 Hat) as [(k & Hk & Ha) He]. fold e w1 in He.
  rewrite (bind_done _ _ w1 e w1) by by apply get_record_run.
  cbv beta iota zeta delta [mbind M_bind heap_set put_heap get_heap]. cbn [heap session shown].
  erewrite list_setitem_run by done.
  rewrite (list_insert_id entries k a Ha). mrun.
  unfold with_shown, with_record, w1, saved_world. cbn [heap session shown].
  done.
Qed.

(** ** Saving twice *)

Lemma dict_set_Forall {V} (P : string * V -> Prop) k v (d : list (string * V)) :
  P (k, v) -> Forall P d -> Forall P (dict_set k v d).
Proof.
  intros Hkv. induction 1 as [|[k' v'] d Hx Hd IH]; cbn [dict_set].
  - by constructor.
  - destruct (decide (k = k')); constructor; done.
Qed.

Lemma saved_info_saved W idx k i :
  saved_info W idx (saved_info W idx (k, i)) = saved_info W idx (k, i).
Proof.
  unfold saved_info. cbn [fst snd type relevance].
  by destruct (W !! type_key idx k), (W !! rel_key idx k).
Qed.

Lemma fold_save_pii_saved W idx (items : list (string * info)) d :
  Forall (fun x => saved_info W idx x = x) d ->
  Forall (fun x => saved_info W idx x = x) (fold_left (save_pii W idx) items d).
Proof.
  revert d. induction items as [|[k i] items IH]; intros d Hd; [done|].
  cbn [fold_left]. apply IH. unfold save_pii. cbn [fst snd].
  apply dict_set_Forall; [|done]. apply (saved_info_saved W idx k i).
Qed.

Lemma save_entry_idempotent W idx e :
  save_entry W idx (save_entry W idx e) = save_entry W idx e.
Proof.
  pose proof (save_entry_piis_wf W idx e) as Hwf.
  pose proof (fold_save_pii_saved W idx (piis e) [] (Forall_nil_2 _)) as Hsaved.
  destruct e as [o c q p].
  unfold save_entry, set_piis, set_question, set_context in *.
  cbn [others context question piis] in *.
  f_equal.
  - by destruct (W !! context_key idx).
  - by destruct (W !! question_key idx).
  - rewrite (fold_save_pii W idx (fold_left (save_pii W idx) p [])).
    rewrite (Forall_fmap_ext_1 (saved_info W idx) id) by done.
    rewrite list_fmap_id. by apply dict_of_items_wf_id.
Qed.

(** ** The page with "Save edits" or the download button down *)

Lemma page_body_download_run w idx entries a e :
  ss_entries (session w) = Some entries ->
  ss_current_idx (session w) = Some idx ->
  record_at w entries idx a e ->
  page_body Download idx entries a w
  = (Done tt, with_shown ReadyForDownload (drawn_world idx entries a e w)).
Proof.
  intros Hes Hidx [Hat He]. unfold page_body.
  unfold previous_button, go_button, next_button, add_pii_button, update_button,
    save_button, download_button, load_original_button.
  rewrite !button_other by done.
  cbn [when].
  do 3 rewrite (bind_done _ _ w tt w) by done.
  rewrite (bind_done _ _ w e w) by by apply get_record_run.
  rewrite (bind_done _ _ _ _ _ (init_widget_run _ _ _)).
  set (w1 := World _ _ _).
  do 2 rewrite (bind_done _ _ w1 tt w1) by done.
  rewrite (bind_done _ _ w1 e w1) by by apply get_record_run.
  rewrite (bind_done _ _ w1 tt
             (with_shown (Preview (highlight_pii (context e) (piis e))) w1)) by done.
  rewrite (bind_done _ _ _ _ _ (init_widget_run _ _ _)).
  rewrite (bind_done _ _ _ _ _ (init_pii_widgets_run _ _ _)).
  cbn [heap session shown with_shown ss_entries ss_original_entries ss_current_idx
       ss_widgets].
  set (w3 := World _ _ _).
  rewrite (bind_done _ _ w3 tt w3) by done.
  assert (record_at w3 entries idx a e) as Hat3 by done.
  rewrite (bind_done _ _ w3 tt (with_shown ReadyForDownload (saved_world idx entries a e w3))).
  - mrun. f_equal. unfold drawn_world, page_widgets, saved_world, with_shown, w3, w1.
    cbn [heap session shown ss_entries ss_original_entries ss_current_idx ss_widgets].
    by rewrite ?Hes, ?Hidx.
  - rewrite (bind_done _ _ w3 idx w3)
      by (unfold read_current_idx, w3, w1; mrun; by rewrite Hidx).
    rewrite (bind_done _ _ w3 entries w3)
      by (unfold read_entries, w3, w1; mrun; by rewrite Hes).
    rewrite (bind_done _ _ _ _ _ (save_current_edits_run w3 idx entries a e Hat3)).
    unfold button. by rewrite bool_decide_eq_true_2 by done.
Qed.

Lemma page_body_save_run w idx entries a e :
  ss_entries (session w) = Some entries ->
  ss_current_idx (session w) = Some idx ->
  record_at w entries idx a e ->
  page_body SaveEdits idx entries a w
  = (Done tt,
     World (heap (drawn_world idx entries a e w)) (session (drawn_world idx entries a e w))
           (shown w ++ [Preview (highlight_pii (context e) (piis e)); EditsSaved])).
Proof.
  intros Hes Hidx [Hat He]. unfold page_body.
  unfold previous_button, go_button, next_button, add_pii_button, update_button,
    save_button, download_button, load_original_button.
  rewrite !button_other by done.
  cbn [when].
  do 3 rewrite (bind_done _ _ w tt w) by done.
  rewrite (bind_done _ _ w e w) by by apply get_record_run.
  rewrite (bind_done _ _ _ _ _ (init_widget_run _ _ _)).
  set (w1 := World _ _ _).
  do 2 rewrite (bind_done _ _ w1 tt w1) by done.
  rewrite (bind_done _ _ w1 e w1) by by apply get_record_run.
  rewrite (bind_done _ _ w1 tt
             (with_shown (Preview (highlight_pii (context e) (piis e))) w1)) by done.
  rewrite (bind_done _ _ _ _ _ (init_widget_run _ _ _)).
  rewrite (bind_done _ _ _ _ _ (init_pii_widgets_run _ _ _)).
  cbn [heap session shown with_shown ss_entries ss_original_entries ss_current_idx
       ss_widgets].
  set (w3 := World _ _ _).
  assert (record_at w3 entries idx a e) as Hat3 by done.
  set (w4 := with_shown EditsSaved (saved_world idx entries a e w3)).
  rewrite (bind_done _ _ w3 tt w4).
  2: { unfold button. rewrite bool_decide_eq_true_2 by done. cbn [andb negb when].
       by rewrite (bind_done _ _ _ _ _ (save_current_edits_run w3 idx entries a e Hat3)). }
  set (e' := save_entry (ss_widgets (session w3)) idx e).
  assert (record_at w4 entries idx a e') as Hat4.
  { split; [done|]. unfold w4, with_shown, saved_world. cbn [heap].
    apply list_lookup_insert_eq. by eapply lookup_lt_Some. }
  rewrite (bind_done _ _ w4 tt (saved_world idx entries a e' w4)).
  - mrun. f_equal. unfold w4, e', w3, w1, drawn_world, page_widgets, saved_world, with_shown.
    cbn [heap session shown ss_entries ss_original_entries ss_current_idx ss_widgets].
    rewrite save_entry_idempotent, list_insert_insert_eq, <- app_assoc.
    by rewrite ?Hes, ?Hidx.
  - rewrite (bind_done _ _ w4 idx w4)
      by (unfold read_current_idx, w4, w3, w1; mrun; by rewrite Hidx).
    rewrite (bind_done _ _ w4 entries w4)
      by (unfold read_entries, w4, w3, w1; mrun; done).
    by rewrite (bind_done _ _ _ _ _ (save_current_edits_run w4 idx entries a e' Hat4)).
Qed.

(** ** No rerun without a click *)

Lemma no_rerun_bind {A B} (m : M A) (f : A -> M B) :
  no_rerun m -> (forall a, no_rerun (f a)) -> no_rerun (m ≫= f).
Proof.
  intros Hm Hf w. specialize (Hm w). rewrite bind_run.
  destruct (m w) as [[a| |e] w']; [apply Hf | done | done].
Qed.

Lemma no_rerun_ret {A} (a : A) : no_rerun (mret a).
Proof. by intros w. Qed.

Lemma no_rerun_raise {A} e : no_rerun (raise e : M A).
Proof. by intros w. Qed.

Lemma no_rerun_from_option {A} e (o : option A) : no_rerun (from_option e o).
Proof. intros w. by destruct o. Qed.

Lemma no_rerun_when (b : bool) (m : M unit) : (b = true -> no_rerun m) -> no_rerun (when b m).
Proof. destruct b; [auto | intros _; apply no_rerun_ret]. Qed.

Lemma no_rerun_get_session : no_rerun get_session.
Proof. by intros w. Qed.

Lemma no_rerun_put_session ss : no_rerun (put_session ss).
Proof. by intros w. Qed.

Lemma no_rerun_get_heap : no_rerun get_heap.
Proof. by intros w. Qed.

Lemma no_rerun_put_heap h : no_rerun (put_heap h).
Proof. by intros w. Qed.

Lemma no_rerun_show o : no_rerun (show o).
Proof. by intros w. Qed.

Create HintDb no_rerun.
#[export] Hint Resolve no_rerun_ret no_rerun_raise no_rerun_from_option no_rerun_get_session
  no_rerun_put_session no_rerun_get_heap no_rerun_put_heap no_rerun_show : no_rerun.

(** Take a command apart down to the primitives of the monad. *)
Ltac no_rerun_step :=
  lazymatch goal with
  | |- no_rerun (_ ≫= _) => apply no_rerun_bind; [|intros ?]
  | |- no_rerun (when _ _) => apply no_rerun_when; intros ?
  | |- no_rerun (match ?x with _ => _ end) => destruct x
  | |- no_rerun _ => solve [auto with no_rerun]
  end.

Ltac no_rerun_unfold :=
  unfold get_record, set_entries, set_original_entries, set_current_idx, read_entries,
    read_current_idx, clear_session, selectbox, read_widget, init_widget, set_widget,
    list_getitem, list_setitem, heap_get, heap_set, heap_alloc.

Lemma no_rerun_save_current_edits idx entries : no_rerun (save_current_edits idx entries).
Proof. unfold save_current_edits. no_rerun_unfold. repeat no_rerun_step. Qed.

Lemma no_rerun_deepcopy l : no_rerun (deepcopy l).
Proof.
  induction l as [|a l IH]; cbn [deepcopy]; [apply no_rerun_ret|].
  no_rerun_unfold. repeat no_rerun_step.
Qed.

Lemma no_rerun_loads_lines loads lines : no_rerun (loads_lines loads lines).
Proof.
  induction lines as [|line lines IH]; cbn [loads_lines]; [apply no_rerun_ret|].
  no_rerun_unfold. repeat no_rerun_step.
Qed.

Lemma no_rerun_load_block loads up : no_rerun (load_block loads up).
Proof.
  unfold load_block. apply no_rerun_bind; [apply no_rerun_get_session | intros ss].
  destruct up as [lines|]; [|apply no_rerun_ret].
  apply no_rerun_when. intros _.
  apply no_rerun_bind; [apply no_rerun_loads_lines | intros ?].
  apply no_rerun_bind; [apply no_rerun_deepcopy | intros ?].
  apply no_rerun_bind; [no_rerun_unfold; repeat no_rerun_step | intros ?].
  apply no_rerun_bind; [apply no_rerun_deepcopy | intros ?].
  no_rerun_unfold. repeat no_rerun_step.
Qed.

Lemma no_rerun_init_pii_widgets idx items : no_rerun (init_pii_widgets idx items).
Proof.
  induction items as [|[pii i] items IH]; cbn [init_pii_widgets]; [apply no_rerun_ret|].
  cbv zeta.
  apply no_rerun_bind; [no_rerun_unfold; repeat no_rerun_step | intros ?].
  apply no_rerun_bind; [no_rerun_unfold; repeat no_rerun_step | intros ?].
  apply no_rerun_bind; [no_rerun_unfold; repeat no_rerun_step | intros ?].
  apply no_rerun_bind; [no_rerun_unfold; repeat no_rerun_step | intros ?].
  apply no_rerun_bind; [no_rerun_unfold; repeat no_rerun_step | intros ?].
  apply no_rerun_bind; [no_rerun_unfold; repeat no_rerun_step | intros ?].
  exact IH.
Qed.

Lemma no_rerun_download_button c : no_rerun (download_button c).
Proof.
  unfold download_button.
  apply no_rerun_bind; [no_rerun_unfold; repeat no_rerun_step | intros ?].
  apply no_rerun_bind; [no_rerun_unfold; repeat no_rerun_step | intros ?].
  apply no_rerun_bind; [apply no_rerun_save_current_edits | intros ?].
  repeat no_rerun_step.
Qed.

Lemma no_rerun_save_button c idx entries : no_rerun (save_button c idx entries).
Proof.
  unfold save_button. apply no_rerun_when. intros _.
  apply no_rerun_bind; [apply no_rerun_save_current_edits | intros ?]. apply no_rerun_show.
Qed.

(** The clicks whose branch holds no [st.rerun()]. *)
Lemma no_rerun_page_body c idx entries a :
  c = NoClick \/ c = SaveEdits \/ c = Download ->
  no_rerun (page_body c idx entries a).
Proof.
  intros Hc. unfold page_body.
  assert (forall label d, label <> NoClick -> label <> SaveEdits -> label <> Download ->
            button c label d = false) as Hb.
  { intros label d ? ? ?. apply button_other. by destruct Hc as [->|[->| ->]]. }
  apply no_rerun_bind.
  { unfold previous_button. rewrite Hb by done. apply no_rerun_ret. }
  intros _. apply no_rerun_bind.
  { unfold go_button. destruct Hc as [->|[->| ->]]; cbn [when]; apply no_rerun_ret. }
  intros _. apply no_rerun_bind.
  { unfold next_button. rewrite Hb by done. apply no_rerun_ret. }
  intros _. apply no_rerun_bind; [no_rerun_unfold; repeat no_rerun_step | intros e].
  apply no_rerun_bind; [no_rerun_unfold; repeat no_rerun_step | intros _].
  apply no_rerun_bind.
  { unfold add_pii_button. destruct Hc as [->|[->| ->]]; apply no_rerun_ret. }
  intros _. apply no_rerun_bind.
  { unfold update_button. rewrite Hb by done. apply no_rerun_ret. }
  intros _. apply no_rerun_bind; [no_rerun_unfold; repeat no_rerun_step | intros e'].
  apply no_rerun_bind; [apply no_rerun_show | intros _].
  apply no_rerun_bind; [no_rerun_unfold; repeat no_rerun_step | intros _].
  apply no_rerun_bind; [apply no_rerun_init_pii_widgets | intros _].
  apply no_rerun_bind; [apply no_rerun_save_button | intros _].
  apply no_rerun_bind; [apply no_rerun_download_button | intros _].
  unfold load_original_button. rewrite Hb by done. apply no_rerun_ret.
Qed.

Lemma no_rerun_script loads up c :
  c = NoClick \/ c = SaveEdits \/ c = Download -> no_rerun (script loads up c).
Proof.
  intros Hc. unfold script.
  apply no_rerun_bind; [apply no_rerun_load_block | intros _].
  unfold page. apply no_rerun_bind; [apply no_rerun_get_session | intros ss].
  destruct (bool_decide _); [|apply no_rerun_show].
  apply no_rerun_bind; [no_rerun_unfold; repeat no_rerun_step | intros es].
  apply no_rerun_bind; [no_rerun_unfold; repeat no_rerun_step | intros idx].
  apply no_rerun_bind; [no_rerun_unfold; repeat no_rerun_step | intros a].
  by apply no_rerun_page_body.
Qed.

(** ** The index stays in range *)

Lemma keeps_conj {A} (I J : world -> Prop) (m : M A) :
  keeps I m -> keeps J m -> keeps (fun w => I w /\ J w) m.
Proof.
  intros HI HJ w [Hi Hj]. specialize (HI w Hi). specialize (HJ w Hj).
  by destruct (m w) as [[a| |e] w'].
Qed.

Lemma keeps_idx_same {A} n (m : M A) :
  (forall w, ss_current_idx (session (m w).2) = ss_current_idx (session w)) ->
  keeps (idx_ok n) m.
Proof.
  intros H w (idx & Hidx & Hr). specialize (H w).
  destruct (m w) as [[a| |e] w']; cbn in H; exists idx; by rewrite H.
Qed.

Ltac idx_same := apply keeps_idx_same; intros w; mrun; repeat case_match; simplify_eq; cbn; try done.

Section Index.
Context (n : nat).
Abbreviation J := (idx_ok n).

Lemma keeps_idx_raise {A} e : keeps J (raise e : M A).
Proof. idx_same. Qed.
Lemma keeps_idx_rerun : keeps J rerun.
Proof. idx_same. Qed.
Lemma keeps_idx_from_option {A} e (o : option A) : keeps J (from_option e o).
Proof. idx_same. Qed.
Lemma keeps_idx_get_session : keeps J get_session.
Proof. idx_same. Qed.
Lemma keeps_idx_show o : keeps J (show o).
Proof. idx_same. Qed.
Lemma keeps_idx_heap_set a o : keeps J (heap_set a o).
Proof. idx_same. Qed.
Lemma keeps_idx_set_entries l : keeps J (set_entries l).
Proof. idx_same. Qed.
Lemma keeps_idx_init_widget key v : keeps J (init_widget key v).
Proof. idx_same. Qed.
Lemma keeps_idx_set_widget key v : keeps J (set_widget key v).
Proof. idx_same. Qed.
Lemma keeps_idx_get_record a : keeps J (get_record a).
Proof. idx_same. Qed.
Lemma keeps_idx_read_widget key : keeps J (read_widget key).
Proof. idx_same. Qed.
Lemma keeps_idx_read_entries : keeps J read_entries.
Proof. idx_same. Qed.
Lemma keeps_idx_read_current_idx : keeps J read_current_idx.
Proof. idx_same. Qed.
Lemma keeps_idx_list_getitem {A} (l : list A) i : keeps J (list_getitem l i).
Proof. idx_same. Qed.
Lemma keeps_idx_list_setitem {A} (l : list A) i x : keeps J (list_setitem l i x).
Proof. idx_same. Qed.

Lemma keeps_idx_set_current_idx v : 0 <= v < Z.of_nat n -> keeps J (set_current_idx v).
Proof. intros Hv w _. by exists v. Qed.

End Index.

Create HintDb keeps_idx.
#[export] Hint Resolve keeps_idx_get_session keeps_idx_raise keeps_idx_rerun keeps_idx_from_option keeps_idx_show
  keeps_idx_heap_set keeps_idx_set_entries keeps_idx_init_widget keeps_idx_set_widget
  keeps_idx_get_record keeps_idx_read_widget keeps_idx_read_entries keeps_idx_read_current_idx
  keeps_idx_list_getitem keeps_idx_list_setitem : keeps_idx.

Ltac idx_step :=
  lazymatch goal with
  | |- keeps _ (_ ≫= _) => apply keeps_bind; [|intros ?]
  | |- keeps _ (mret _) => apply keeps_ret
  | |- keeps _ (when _ _) => apply keeps_when
  | |- keeps _ (set_current_idx _) => apply keeps_idx_set_current_idx; lia
  | |- keeps _ (match ?x with _ => _ end) => destruct x
  | |- keeps _ _ => solve [auto with keeps_idx]
  end.

Section IndexHandlers.
Context (n : nat) (entries : list loc) (idx : Z).
Hypothesis Hlen : length entries = n.
Hypothesis Hidx : 0 <= idx < Z.of_nat n.
Abbreviation J := (idx_ok n).

Lemma keeps_idx_save_current_edits i l : keeps J (save_current_edits i l).
Proof. unfold save_current_edits. repeat idx_step. Qed.

Lemma keeps_idx_previous_button c : keeps J (previous_button c idx entries).
Proof.
  unfold previous_button. idx_step.
  idx_step; [apply keeps_idx_save_current_edits|]. repeat idx_step.
Qed.

Lemma keeps_idx_go_button c : keeps J (go_button c idx entries).
Proof.
  unfold go_button, number_input. cbv zeta. idx_step.
  idx_step; [apply keeps_idx_save_current_edits|].
  idx_step; [|idx_step]. rewrite Hlen.
  destruct c; try idx_step. case_bool_decide; idx_step.
Qed.

Lemma keeps_idx_next_button c : keeps J (next_button c idx entries).
Proof.
  unfold next_button. rewrite Hlen. idx_step.
  idx_step; [apply keeps_idx_save_current_edits|]. repeat idx_step.
Qed.

Lemma keeps_idx_add_pii_button c a : keeps J (add_pii_button c idx entries a).
Proof.
  unfold add_pii_button. destruct c; try apply keeps_ret.
  idx_step; [apply keeps_idx_save_current_edits|]. repeat idx_step.
Qed.

Lemma keeps_idx_update_button c a : keeps J (update_button c idx entries a).
Proof.
  unfold update_button. idx_step.
  idx_step; [apply keeps_idx_save_current_edits|]. repeat idx_step.
Qed.

Lemma keeps_idx_init_pii_widgets i items : keeps J (init_pii_widgets i items).
Proof.
  induction items as [|[pii info] items IH]; cbn [init_pii_widgets]; cbv zeta;
    unfold selectbox; repeat idx_step.
Qed.

Lemma keeps_idx_save_button c : keeps J (save_button c idx entries).
Proof.
  unfold save_button. idx_step.
  idx_step; [apply keeps_idx_save_current_edits|]. repeat idx_step.
Qed.

Lemma keeps_idx_download_button c : keeps J (download_button c).
Proof.
  unfold download_button. idx_step; [idx_step|]. idx_step; [idx_step|].
  idx_step; [apply keeps_idx_save_current_edits|]. repeat idx_step.
Qed.

End IndexHandlers.

Section PageRange.
Context (rs : list pyobj) (es : list loc) (w0 : world) (n : nat).
Hypothesis Hes : ss_entries (session w0) = Some es.
Hypothesis Hlive : live_session rs w0.
Hypothesis Hlen : length es = n.
Hypothesis Hrs : length rs = n.

Lemma frame_range w : frame es w0 w /\ idx_ok n w -> index_in_range n w.
Proof.
  intros [(He & Ho & _) Hi]. destruct Hlive as (es' & os & _ & Hos & _ & Hc & _).
  exists es, os. split_and!; [done | congruence | done | | done].
  apply Forall2_length in Hc. congruence.
Qed.

Lemma reloaded_range w : (0 < n)%nat -> index_in_range n (reloaded_world rs w).
Proof.
  intros Hn. eexists _, _. split_and!; [done | done | | |].
  - by rewrite length_seq.
  - by rewrite length_seq.
  - exists 0. split; [done | lia].
Qed.

Lemma hoare_load_original_button_range c :
  hoare (fun w => frame es w0 w /\ idx_ok n w) (load_original_button c)
    (fun _ => index_in_range n) (index_in_range n).
Proof.
  intros w Hw. pose proof (frame_range w Hw) as Hr. destruct Hw as [Hf (idx & _ & Hidx)].
  pose proof (frame_live es rs w0 w Hes Hlive Hf) as (es' & os & _ & Hos & _ & Hc & _).
  destruct (decide (c = LoadOriginal)) as [->|Hc'].
  - rewrite (load_original_button_run w os rs Hos Hc). apply reloaded_range. lia.
  - unfold load_original_button, button. by rewrite bool_decide_eq_false_2.
Qed.

Lemma hoare_page_body_range c idx a :
  0 <= idx < Z.of_nat n -> at_index es idx a ->
  hoare (fun w => frame es w0 w /\ idx_ok n w) (page_body c idx es a)
    (fun _ => index_in_range n) (index_in_range n).
Proof.
  intros Hidx Hat. unfold page_body.
  repeat (apply hoare_bind_keeps;
          [apply keeps_conj;
           [auto using keeps_previous_button, keeps_go_button, keeps_next_button,
              keeps_add_pii_button, keeps_update_button, keeps_init_pii_widgets,
              keeps_save_button, keeps_download_button, keeps_show with keeps
           |auto using keeps_idx_previous_button, keeps_idx_go_button, keeps_idx_next_button,
              keeps_idx_add_pii_button, keeps_idx_update_button, keeps_idx_init_pii_widgets,
              keeps_idx_save_button, keeps_idx_download_button with keeps_idx]
          | exact frame_range | intros ?]).
  apply hoare_load_original_button_range.
Qed.

End PageRange.

Lemma page_range rs c w :
  live_session rs w -> index_in_range (length rs) w -> index_in_range (length rs) (page c w).2.
Proof.
  intros Hl Hr. pose proof Hr as (es & os & Hes & Hos & Hlen & _ & (idx & Hidx & Hi)).
  unfold page. rewrite (bind_done _ _ w (session w) w) by done.
  rewrite Hes, bool_decide_eq_true_2 by done.
  rewrite (bind_done _ _ w es w) by (unfold read_entries; mrun; by rewrite Hes).
  rewrite (bind_done _ _ w idx w) by (unfold read_current_idx; mrun; by rewrite Hidx).
  assert (exists a, es !! Z.to_nat idx = Some a) as [a Ha].
  { apply lookup_lt_is_Some. lia. }
  assert (py_index (length es) idx = Some (Z.to_nat idx)) as Hk.
  { unfold py_index. by rewrite bool_decide_eq_true_2 by lia. }
  rewrite (bind_done _ _ w a w) by (unfold list_getitem; rewrite Hk; cbn; by rewrite Ha).
  assert (at_index es idx a) as Hat by by exists (Z.to_nat idx).
  assert (idx_ok (length rs) w) as Hok by by exists idx.
  pose proof (hoare_page_body_range rs es w (length rs) Hes Hl Hlen eq_refl c idx a Hi Hat w
                (conj (frame_refl es w Hes) Hok)) as H.
  by destruct (page_body c idx es a w) as [[[]| |e] w'].
Qed.

Lemma clear_page_range n w : index_in_range n w -> index_in_range n (clear_page w).
Proof. by intros (es & os & ? & ? & ? & ? & ?); exists es, os. Qed.

Lemma set_widgets_range n values w : index_in_range n w -> index_in_range n (set_widgets values w).
Proof. by intros (es & os & ? & ? & ? & ? & ?); exists es, os. Qed.

Lemma loaded_range rs w : rs <> [] -> index_in_range (length rs) (loaded_world rs w).
Proof.
  intros Hne. eexists _, _. split_and!; [done | done | | |].
  - by rewrite length_seq.
  - by rewrite length_seq.
  - exists 0. split; [done|]. destruct rs; [done | cbn; lia].
Qed.

Section RunsRange.
Context (loads : string -> option json).

Lemma script_range rs up c w :
  live_session rs w -> index_in_range (length rs) w ->
  index_in_range (length rs) (script loads up c w).2.
Proof.
  intros Hl Hr. pose proof Hl as (es & os & Hes & _). unfold script.
  rewrite (bind_done _ _ w tt w) by (apply load_block_skip; by rewrite Hes).
  by apply page_range.
Qed.

Lemma run_range rs up c w :
  live_session rs w -> index_in_range (length rs) w ->
  index_in_range (length rs) (run loads up c w).
Proof.
  intros Hl Hr. unfold run.
  pose proof (script_range rs up c (clear_page w) (clear_page_live rs w Hl)
                (clear_page_range _ w Hr)) as H.
  pose proof (script_live loads rs up c (clear_page w) (clear_page_live rs w Hl)) as H'.
  destruct (script loads up c (clear_page w)) as [[[]| |e] w']; cbn in H, H'; try done.
  by apply script_range; [apply clear_page_live | apply clear_page_range].
Qed.

Lemma loaded_from_range rs w :
  loaded_from loads rs w -> rs <> [] -> index_in_range (length rs) w.
Proof.
  intros Hfrom Hne. induction Hfrom as [w lines js c Hes Hjs -> | ev w Hfrom IH].
  - cbn [step]. unfold run.
    assert (forall c', let w1 := loaded_world (pyobj_of_json <$> js) (clear_page w) in
              script loads (Some lines) c' (clear_page w) = page c' w1 /\
              live_session (pyobj_of_json <$> js) w1 /\
              index_in_range (length (pyobj_of_json <$> js)) w1) as Hfirst.
    { intros c' w1. split_and!.
      - unfold script. by rewrite (bind_done _ _ _ _ _ (load_block_ok loads lines js (clear_page w) Hes Hjs)).
      - apply loaded_live. apply not_elem_of_nil.
      - by apply loaded_range. }
    destruct (Hfirst c) as (-> & Hl & Hr).
    pose proof (page_range _ c _ Hl Hr) as H. pose proof (page_live _ c _ Hl) as H'.
    destruct (page c _) as [[[]| |e] w']; cbn in H, H'; try done.
    by apply script_range; [apply clear_page_live | apply clear_page_range].
  - pose proof (loaded_from_live loads rs w Hfrom) as Hl. destruct ev as [values|up c]; cbn [step].
    + by apply set_widgets_range, IH.
    + by apply run_range; [|apply IH].
Qed.

End RunsRange.

(** ** Runs that do not raise *)

Lemma safe_bind {A B} P (m : M A) (f : A -> M B) S Q R :
  safe P m S R -> (forall a, safe (S a) (f a) Q R) -> safe P (m ≫= f) Q R.
Proof.
  intros Hm Hf w Hw. specialize (Hm w Hw). rewrite bind_run.
  destruct (m w) as [[a| |e] w']; [by apply Hf | done | done].
Qed.

Lemma safe_ret {A} (P : world -> Prop) (a : A) (Q : A -> world -> Prop) R :
  (forall w, P w -> Q a w) -> safe P (mret a) Q R.
Proof. intros H w Hw. by apply H. Qed.

Lemma safe_when (b : bool) P (m : M unit) (Q : unit -> world -> Prop) R :
  (b = true -> safe P m Q R) -> (forall w, P w -> Q tt w) -> safe P (when b m) Q R.
Proof. destruct b; intros Ht Hf; [by apply Ht | by apply safe_ret]. Qed.

Lemma safe_weaken {A} (P P' : world -> Prop) (m : M A) (Q : A -> world -> Prop) R :
  safe P m Q R -> (forall w, P' w -> P w) -> safe P' m Q R.
Proof. intros Hm HP w Hw. by apply Hm, HP. Qed.

(** ** Records stay records *)

Lemma records_at_insert l a e ss sh w :
  records_at l w -> records_at l (World (<[a := Rec e]> (heap w)) ss sh).
Proof.
  unfold records_at. intros H. eapply Forall_impl; [exact H|]. intros b [e' Hb]. cbn [heap].
  destruct (decide (b = a)) as [->|Hne].
  - exists e. apply list_lookup_insert_eq. by eapply lookup_lt_Some.
  - exists e'. by rewrite list_lookup_insert_ne.
Qed.

Lemma records_at_heap l w w' : heap w' = heap w -> records_at l w -> records_at l w'.
Proof. unfold records_at. by intros ->. Qed.

Lemma page_inv_record es os idx a w :
  page_inv es os idx w -> at_index es idx a -> exists e, record_at w es idx a e.
Proof.
  intros (_ & _ & _ & Hr) Hat. unfold records_at in Hr. rewrite Forall_forall in Hr.
  destruct (Hr a) as [e He]; [apply elem_of_app; left; by eapply at_index_elem|].
  by exists e.
Qed.

Lemma records_contents l w :
  records_at l w -> exists rs, contents w l rs /\ Forall is_record rs.
Proof.
  induction 1 as [|b l [e He] _ (rs & Hrs & Hrec)].
  - exists []. split; constructor.
  - exists (Rec e :: rs). split; by constructor.
Qed.

Lemma contents_records l rs w :
  contents w l rs -> Forall is_record rs -> records_at l w.
Proof.
  induction 1 as [|b r l rs Hb _ IH]; intros Hrec; [constructor|].
  apply Forall_cons in Hrec as [Hr Hrec]. constructor; [|by apply IH].
  destruct r as [e|j]; [by exists e | done].
Qed.

Lemma sound_reloaded rs w :
  Forall is_record rs -> rs <> [] -> sound (length rs) (reloaded_world rs w).
Proof.
  intros Hrec Hne. destruct (reloaded_contents rs w) as [H1 H2].
  eexists _, _, 0. split_and!.
  - split_and!; [done | done | done |].
    apply Forall_app. split; by eapply contents_records.
  - by rewrite length_seq.
  - by rewrite length_seq.
  - done.
  - destruct rs; [done | cbn; lia].
Qed.

Lemma sound_loaded rs w :
  Forall is_record rs -> rs <> [] -> sound (length rs) (loaded_world rs w).
Proof.
  intros Hrec Hne.
  assert (heap (loaded_world rs w) = heap (reloaded_world rs w)) as Hh by done.
  destruct (reloaded_contents rs w) as [H1 H2].
  eexists _, _, 0. split_and!.
  - split_and!; [done | done | done |].
    apply (records_at_heap _ (reloaded_world rs w)); [done|].
    apply Forall_app. split; by eapply contents_records.
  - by rewrite length_seq.
  - by rewrite length_seq.
  - done.
  - destruct rs; [done | cbn; lia].
Qed.

Section SafeHandlers.
Context (n : nat) (es os : list loc) (idx : Z) (a : loc).
Hypothesis Hat : at_index es idx a.
Hypothesis Hes : length es = n.
Hypothesis Hos : length os = n.
Hypothesis Hidx : 0 <= idx < Z.of_nat n.
Abbreviation L := (page_inv es os idx).
Abbreviation R := (sound n).

Lemma page_inv_sound w : L w -> R w.
Proof. intros Hw. by exists es, os, idx. Qed.

Lemma page_inv_saved e w :
  L w -> L (saved_world idx es a e w).
Proof.
  intros (He & Ho & Hi & Hr). split_and!; try done. by apply records_at_insert.
Qed.

Lemma page_inv_with_record e w : L w -> L (with_record a e w).
Proof.
  intros (He & Ho & Hi & Hr). split_and!; try done. by apply records_at_insert.
Qed.

Lemma page_inv_with_shown o w : L w -> L (with_shown o w).
Proof. by intros (He & Ho & Hi & Hr). Qed.

Lemma safe_save_current_edits :
  safe L (save_current_edits idx es) (fun _ => L) R.
Proof.
  intros w Hw. destruct (page_inv_record es os idx a w Hw Hat) as [e He].
  rewrite (save_current_edits_run w idx es a e He). by apply page_inv_saved.
Qed.

Lemma safe_move v (Q : unit -> world -> Prop) :
  0 <= v < Z.of_nat n -> safe L (set_current_idx v;; rerun) Q R.
Proof.
  intros Hv w (He & Ho & Hi & Hr). mrun. exists es, os, v. split_and!; try done; lia.
Qed.

Lemma safe_previous_button c : safe L (previous_button c idx es) (fun _ => L) R.
Proof.
  unfold previous_button. apply safe_when; [intros ? | done].
  eapply safe_bind; [apply safe_save_current_edits | intros []]. apply safe_move. lia.
Qed.

Lemma safe_go_button c : safe L (go_button c idx es) (fun _ => L) R.
Proof.
  unfold go_button, number_input. cbv zeta. apply safe_when; [intros ? | done].
  eapply safe_bind; [apply safe_save_current_edits | intros []]. apply safe_move.
  rewrite Hes. destruct c; try lia. case_bool_decide; lia.
Qed.

Lemma safe_next_button c : safe L (next_button c idx es) (fun _ => L) R.
Proof.
  unfold next_button. apply safe_when; [intros ? | done].
  eapply safe_bind; [apply safe_save_current_edits | intros []]. apply safe_move.
  rewrite Hes. lia.
Qed.

Lemma safe_get_record : safe L (get_record a) (fun _ => L) R.
Proof.
  intros w Hw. destruct (page_inv_record es os idx a w Hw Hat) as [e [_ He]].
  by rewrite (get_record_run w a e He).
Qed.

Lemma safe_init_widget key v : safe L (init_widget key v) (fun _ => L) R.
Proof. intros w Hw. by rewrite init_widget_run. Qed.

Lemma safe_init_context v :
  safe L (init_widget (context_key idx) v) (fun _ w => L w /\ has_context idx w) R.
Proof.
  intros w Hw. rewrite init_widget_run. split; [done|].
  unfold has_context, init_value. cbn [session ss_widgets].
  destruct (ss_widgets (session w) !! context_key idx) eqn:H; [by rewrite H|].
  by rewrite lookup_insert_eq.
Qed.

Lemma safe_add_pii_button c :
  safe (fun w => L w /\ has_context idx w) (add_pii_button c idx es a) (fun _ => L) R.
Proof.
  intros w [Hw Hctx]. destruct (page_inv_record es os idx a w Hw Hat) as [e He].
  destruct c; try done.
  rewrite (add_pii_button_run w idx es a e _ _ _ He Hctx).
  pose proof (page_inv_saved e w Hw) as Hs.
  destruct (decide _); [by apply page_inv_with_shown|].
  destruct (str_in _ _); [|by apply page_inv_with_shown].
  by apply page_inv_sound, page_inv_with_shown, page_inv_with_record.
Qed.

Lemma safe_update_button c : safe L (update_button c idx es a) (fun _ => L) R.
Proof.
  intros w Hw. destruct (page_inv_record es os idx a w Hw Hat) as [e He].
  destruct (decide (c = UpdatePII)) as [->|Hc].
  - rewrite (update_button_run w idx es a e He).
    by apply page_inv_sound, page_inv_with_shown, page_inv_with_record, page_inv_saved.
  - unfold update_button. by rewrite button_other.
Qed.

Lemma safe_show o : safe L (show o) (fun _ => L) R.
Proof. by intros w Hw. Qed.

Lemma safe_init_pii_widgets items : safe L (init_pii_widgets idx items) (fun _ => L) R.
Proof. intros w Hw. by rewrite init_pii_widgets_run. Qed.

Lemma safe_save_button c : safe L (save_button c idx es) (fun _ => L) R.
Proof.
  unfold save_button. apply safe_when; [intros ? | done].
  eapply safe_bind; [apply safe_save_current_edits | intros []]. apply safe_show.
Qed.

Lemma safe_download_button c : safe L (download_button c) (fun _ => L) R.
Proof.
  intros w Hw. pose proof Hw as (He & Ho & Hi & Hr). unfold download_button.
  rewrite (bind_done _ _ w idx w) by (unfold read_current_idx; mrun; by rewrite Hi).
  rewrite (bind_done _ _ w es w) by (unfold read_entries; mrun; by rewrite He).
  assert (safe L (save_current_edits idx es;;
                  when (button c Download false) (show ReadyForDownload)) (fun _ => L) R) as H.
  { eapply safe_bind; [apply safe_save_current_edits | intros []].
    apply safe_when; [intros ?; apply safe_show | done]. }
  exact (H w Hw).
Qed.

Lemma safe_load_original_button c : safe L (load_original_button c) (fun _ => R) R.
Proof.
  intros w Hw. pose proof Hw as (He & Ho & Hi & Hr).
  destruct (decide (c = LoadOriginal)) as [->|Hc].
  - apply Forall_app in Hr as [_ Hr].
    destruct (records_contents os w Hr) as (rs & Hrs & Hrec).
    rewrite (load_original_button_run w os rs Ho Hrs).
    assert (length rs = n) as <- by (apply Forall2_length in Hrs; congruence).
    apply sound_reloaded; [done|]. intros ->. cbn in Hidx. lia.
  - unfold load_original_button. rewrite button_other by done. by apply page_inv_sound.
Qed.

Lemma safe_page_body c : safe L (page_body c idx es a) (fun _ => R) R.
Proof.
  unfold page_body.
  eapply safe_bind; [apply safe_previous_button | intros []].
  eapply safe_bind; [apply safe_go_button | intros []].
  eapply safe_bind; [apply safe_next_button | intros []].
  eapply safe_bind; [apply safe_get_record | intros e].
  eapply safe_bind; [apply safe_init_context | intros []].
  eapply safe_bind; [apply safe_add_pii_button | intros []].
  eapply safe_bind; [apply safe_update_button | intros []].
  eapply safe_bind; [apply safe_get_record | intros e'].
  eapply safe_bind; [apply safe_show | intros []].
  eapply safe_bind; [apply safe_init_widget | intros []].
  eapply safe_bind; [apply safe_init_pii_widgets | intros []].
  eapply safe_bind; [apply safe_save_button | intros []].
  eapply safe_bind; [apply safe_download_button | intros []].
  apply safe_load_original_button.
Qed.

End SafeHandlers.

Lemma safe_page n c : safe (sound n) (page c) (fun _ => sound n) (sound n).
Proof.
  intros w Hw. pose proof Hw as (es & os & idx & HL & Hes & Hos & Hidx).
  pose proof HL as (He & Ho & Hi & Hr).
  unfold page. rewrite (bind_done _ _ w (session w) w) by done.
  rewrite He, bool_decide_eq_true_2 by done.
  rewrite (bind_done _ _ w es w) by (unfold read_entries; mrun; by rewrite He).
  rewrite (bind_done _ _ w idx w) by (unfold read_current_idx; mrun; by rewrite Hi).
  assert (exists a, es !! Z.to_nat idx = Some a) as [a Ha].
  { apply lookup_lt_is_Some. lia. }
  assert (py_index (length es) idx = Some (Z.to_nat idx)) as Hk.
  { unfold py_index. by rewrite bool_decide_eq_true_2 by lia. }
  rewrite (bind_done _ _ w a w) by (unfold list_getitem; rewrite Hk; cbn; by rewrite Ha).
  assert (at_index es idx a) as Hat by by exists (Z.to_nat idx).
  exact (safe_page_body n es os idx a Hat Hes Hos Hidx c w HL).
Qed.

Lemma sound_clear_page n w : sound n w -> sound n (clear_page w).
Proof. intros (es & os & idx & (? & ? & ? & ?) & ?). by exists es, os, idx. Qed.

Lemma sound_set_widgets n values w : sound n w -> sound n (set_widgets values w).
Proof. intros (es & os & idx & (? & ? & ? & ?) & ?). by exists es, os, idx. Qed.

Section RunsSafe.
Context (loads : string -> option json).

Lemma safe_script n up c : safe (sound n) (script loads up c) (fun _ => sound n) (sound n).
Proof.
  intros w Hw. pose proof Hw as (es & os & idx & (He & _) & _). unfold script.
  rewrite (bind_done _ _ w tt w) by (apply load_block_skip; by rewrite He).
  by apply safe_page.
Qed.

(** From the world a pass of the script left, the run ends normally, in a
    sound world. *)
Lemma finish_sound n up (first : outcome unit * world) :
  match first with
  | (Done _, w') | (Rerun, w') => sound n w'
  | (Raised _, _) => False
  end ->
  match first with
  | (Rerun, w') => (script loads up NoClick (clear_page w')).1
  | (o, _) => o
  end = Done tt /\
  sound n match first with
          | (Rerun, w') => (script loads up NoClick (clear_page w')).2
          | (_, w') => w'
          end.
Proof.
  destruct first as [[[]| |e] w']; intros H; [done | | done].
  pose proof (safe_script n up NoClick (clear_page w') (sound_clear_page n w' H)) as H2.
  pose proof (no_rerun_script loads up NoClick (or_introl eq_refl) (clear_page w')) as H3.
  by destruct (script loads up NoClick (clear_page w')) as [[[]| |e] w''].
Qed.

Lemma run_sound n up c w :
  sound n w -> run_outcome loads up c w = Done tt /\ sound n (run loads up c w).
Proof.
  intros Hw. unfold run_outcome, run.
  pose proof (safe_script n up c (clear_page w) (sound_clear_page n w Hw)) as H.
  pose proof (finish_sound n up (script loads up c (clear_page w))) as H2.
  destruct (script loads up c (clear_page w)) as [[[]| |e] w']; by apply H2.
Qed.

Lemma first_run_sound lines js c w :
  ss_entries (session w) = None ->
  mapM loads lines = Some js -> js <> [] -> Forall is_record (pyobj_of_json <$> js) ->
  run_outcome loads (Some lines) c w = Done tt /\
  sound (length js) (run loads (Some lines) c w).
Proof.
  intros Hes Hjs Hne Hrec. unfold run_outcome, run.
  set (rs := pyobj_of_json <$> js) in *.
  assert (length js = length rs) as -> by (subst rs; by rewrite length_fmap).
  assert (rs <> []) as Hne' by (subst rs; by destruct js).
  assert (script loads (Some lines) c (clear_page w) = page c (loaded_world rs (clear_page w)))
    as ->.
  { unfold script.
    by rewrite (bind_done _ _ _ _ _ (load_block_ok loads lines js (clear_page w) Hes Hjs)). }
  pose proof (safe_page (length rs) c _ (sound_loaded rs (clear_page w) Hrec Hne')) as H.
  pose proof (finish_sound (length rs) (Some lines) (page c (loaded_world rs (clear_page w))))
    as H2.
  destruct (page c (loaded_world rs (clear_page w))) as [[[]| |e] w']; by apply H2.
Qed.

Lemma loaded_from_sound rs w :
  loaded_from loads rs w -> rs <> [] -> Forall is_record rs -> sound (length rs) w.
Proof.
  intros Hfrom Hne Hrec. induction Hfrom as [w lines js c Hes Hjs -> | ev w Hfrom IH].
  - rewrite length_fmap. cbn [step].
    apply (first_run_sound lines js c w); [done | done | by destruct js | done].
  - destruct ev as [values|up c]; cbn [step].
    + by apply sound_set_widgets, IH.
    + by apply run_sound, IH.
Qed.

End RunsSafe.

(** ** A record without its fields *)

Lemma save_current_edits_raw w idx entries a j :
  at_index entries idx a -> heap w !! a = Some (Raw j) ->
  save_current_edits idx entries w = (Raised ShapeError, w).
Proof.
  intros (k & Hk & Ha) Hj. unfold save_current_edits. mrun.
  rewrite Hk. mrun. rewrite Ha. mrun. by rewrite Hj.
Qed.

Lemma page_body_raw c w idx entries a j :
  at_index entries idx a -> heap w !! a = Some (Raw j) ->
  page_body c idx entries a w = (Raised ShapeError, w).
Proof.
  intros Hat Hj. pose proof (save_current_edits_raw w idx entries a j Hat Hj) as Hsave.
  unfold page_body.
  assert (forall (b : bool) (m : M unit),
            when b (save_current_edits idx entries;; m) w = (Raised ShapeError, w) \/
            when b (save_current_edits idx entries;; m) w = (Done tt, w)) as Hnav.
  { intros [] m; [left | by right]. cbn [when]. by rewrite (bind_raised _ _ _ _ _ Hsave). }
  destruct (Hnav (button c Previous (bool_decide (idx = 0)))
              (set_current_idx (Z.max 0 (idx - 1));; rerun)) as [H|H];
    [by rewrite (bind_raised _ _ _ _ _ H) | rewrite (bind_done _ _ _ _ _ H); clear H].
  destruct (Hnav (match c with Go _ => true | _ => false end)
              (set_current_idx (number_input 1 (Z.of_nat (length entries)) (idx + 1) c - 1);;
               rerun)) as [H|H];
    [by rewrite (bind_raised _ _ _ _ _ H) | rewrite (bind_done _ _ _ _ _ H); clear H].
  destruct (Hnav (button c Next (bool_decide (idx = Z.of_nat (length entries) - 1)))
              (set_current_idx (Z.min (Z.of_nat (length entries) - 1) (idx + 1));; rerun))
    as [H|H];
    [by rewrite (bind_raised _ _ _ _ _ H) | rewrite (bind_done _ _ _ _ _ H); clear H].
  by rewrite (bind_raised _ _ w ShapeError w) by (mrun; by rewrite Hj).
Qed.

Lemma steps_same_records loads (P : world -> Prop) w :
  (forall w, P w -> forall ev, P (step loads ev w) /\ same_records w (step loads ev w)) ->
  P w -> forall w', steps loads w w' -> P w' /\ same_records w w'.
Proof.
  intros Hstep Hw w' Hsteps. induction Hsteps as [w|w w1 w2 [ev ->] _ IH].
  - by split.
  - destruct (Hstep w Hw ev) as [H1 (Ha & Hb & Hc & Hd)].
    destruct (IH H1) as [H2 (Ha' & Hb' & Hc' & Hd')].
    split; [done|]. split_and!; congruence.
Qed.

Section Blocked.
Context (loads : string -> option json).

Lemma script_raw up c w es idx a j :
  ss_entries (session w) = Some es -> ss_current_idx (session w) = Some idx ->
  at_index es idx a -> heap w !! a = Some (Raw j) ->
  script loads up c w = (Raised ShapeError, w).
Proof.
  intros Hes Hidx Hat Hj. rewrite (script_page_body loads up c w idx es a Hes Hidx Hat).
  by apply (page_body_raw c w idx es a j).
Qed.

Lemma script_empty up c w :
  ss_entries (session w) = Some [] -> ss_current_idx (session w) = Some 0 ->
  script loads up c w = (Raised IndexError, w).
Proof.
  intros Hes Hidx. unfold script.
  rewrite (bind_done _ _ w tt w) by (apply load_block_skip; by rewrite Hes).
  by apply (page_raised_at_index c w [] 0).
Qed.

End Blocked.

(** ** Appending strings *)

Lemma string_app_assoc (a b c : string) : (a +:+ b) +:+ c = a +:+ (b +:+ c).
Proof. induction a as [|x a IH]; [done|]. simpl. by rewrite IH. Qed.

Lemma string_app_nil_r (a : string) : a +:+ "" = a.
Proof. induction a as [|x a IH]; [done|]. simpl. by rewrite IH. Qed.

Lemma string_length_app (a b : string) :
  String.length (a +:+ b) = (String.length a + String.length b)%nat.
Proof. induction a as [|x a IH]; [done|]. simpl. by rewrite IH. Qed.

(** ** Strings: the decoder reads what the encoder wrote *)

Lemma scan_string_escape_char c tail :
  scan_string (escape_char c +:+ tail)
  = '(body, rest) ← scan_string tail; Some (String c body, rest).
Proof.
  destruct c as [[] [] [] [] [] [] [] []]; reflexivity.
Qed.

Lemma scan_string_escape s rest :
  scan_string (escape s +:+ String dquote rest) = Some (s, rest).
Proof.
  induction s as [|c s IH]; [done|].
  cbn [escape]. rewrite string_app_assoc, scan_string_escape_char. by rewrite IH.
Qed.

(** ** Numbers: the decoder reads what the encoder wrote *)

Lemma follows_first rest :
  follows rest = true ->
  match rest with
  | String c _ => is_digit c = false /\ c <> "."%char /\ c <> "e"%char /\ c <> "E"%char
  | EmptyString => True
  end.
Proof.
  destruct rest as [|c rest]; [done|]. unfold follows.
  rewrite !orb_true_iff, !bool_decide_eq_true. by intros [[->| ->]| ->].
Qed.

Lemma span_digits_app ds rest :
  all_digits ds = true -> follows rest = true -> span_digits (ds +:+ rest) = (ds, rest).
Proof.
  intros Hds Hrest. induction ds as [|d ds IH].
  - apply follows_first in Hrest. destruct rest as [|c rest]; [done|].
    destruct Hrest as [Hc _]. cbn. by rewrite Hc.
  - unfold all_digits in Hds. cbn in Hds. apply andb_true_iff in Hds as [Hd Hds].
    cbn. rewrite Hd, IH by done. done.
Qed.

Lemma scan_frac_none rest : follows rest = true -> scan_frac rest = (EmptyString, rest).
Proof.
  intros H. apply follows_first in H. destruct rest as [|c rest]; [done|].
  destruct H as (_ & Hc & _). unfold scan_frac.
  destruct c as [[] [] [] [] [] [] [] []]; done.
Qed.

Lemma scan_exp_none rest : follows rest = true -> scan_exp rest = (EmptyString, rest).
Proof.
  intros H. apply follows_first in H. destruct rest as [|c rest]; [done|].
  destruct H as (_ & _ & Hc & Hc'). unfold scan_exp.
  by rewrite !bool_decide_eq_false_2.
Qed.

Lemma scan_int_literal ds rest :
  nat_literal ds = true -> follows rest = true -> scan_int (ds +:+ rest) = Some (ds, rest).
Proof.
  intros Hds Hrest. destruct ds as [|d ds]; [done|]. cbn [nat_literal] in Hds.
  destruct (decide (d = "0"%char)) as [->|Hd].
  - apply bool_decide_eq_true in Hds as ->. done.
  - apply andb_true_iff in Hds as [Hdig Hds].
    pose proof (span_digits_app ds rest Hds Hrest) as Hspan.
    destruct d as [[] [] [] [] [] [] [] []]; try discriminate; try done.
    all: cbn; by rewrite Hspan.
Qed.

Lemma scan_number_literal lit rest :
  int_literal lit = true -> follows rest = true ->
  scan_number (lit +:+ rest) = Some (lit, rest).
Proof.
  intros Hlit Hrest. destruct lit as [|c s]; [done|]. cbn [int_literal] in Hlit.
  destruct (decide (c = "-"%char)) as [->|Hc].
  - apply andb_true_iff in Hlit as [Hs _]. unfold scan_number.
    change (String "-" s +:+ rest) with (String "-" (s +:+ rest)). cbv iota beta.
    rewrite (scan_int_literal s rest Hs Hrest). cbn [mbind option_bind].
    rewrite scan_frac_none, scan_exp_none by done.
    by rewrite !string_app_nil_r.
  - pose proof (scan_int_literal (String c s) rest Hlit Hrest) as Hint.
    assert (is_digit c = true) as Hdig.
    { cbn [nat_literal] in Hlit. destruct (decide (c = "0"%char)) as [->|]; [done|].
      by apply andb_true_iff in Hlit as [? _]. }
    unfold scan_number.
    assert (match String c s +:+ rest with
            | String "-" r => ("-", r)
            | _ => (EmptyString, String c s +:+ rest)
            end = (EmptyString, String c s +:+ rest)) as ->.
    { destruct c as [[] [] [] [] [] [] [] []]; done. }
    rewrite Hint. cbn [mbind option_bind].
    rewrite scan_frac_none, scan_exp_none by done.
    by rewrite !string_app_nil_r.
Qed.

Lemma int_literal_not_float lit : int_literal lit = true -> is_float_literal lit = false.
Proof.
  assert (forall s, all_digits s = true -> is_float_literal s = false) as Hdigits.
  { intros s. unfold all_digits, is_float_literal.
    induction (String.list_ascii_of_string s) as [|c l IH]; [done|]. cbn.
    intros [Hc Hl]%andb_true_iff. rewrite IH by done.
    destruct c as [[] [] [] [] [] [] [] []]; done. }
  assert (forall s, nat_literal s = true -> is_float_literal s = false) as Hnat.
  { intros [|c s]; [done|]. cbn [nat_literal].
    destruct (decide (c = "0"%char)) as [->|Hc].
    - by intros ->%bool_decide_eq_true.
    - intros [Hd Hs]%andb_true_iff. apply (Hdigits (String c s)).
      unfold all_digits in *. cbn. by rewrite Hd, Hs. }
  destruct lit as [|c s]; [done|]. cbn [int_literal].
  destruct (decide (c = "-"%char)) as [->|Hc]; [|apply Hnat].
  intros [Hs _]%andb_true_iff. apply Hnat in Hs.
  unfold is_float_literal in *. by cbn.
Qed.

(** ** Values: the decoder reads what the encoder wrote *)

Lemma json_ind' (P : json -> Prop) :
  P JNull -> (forall b, P (JBool b)) -> (forall lit, P (JNumber lit)) ->
  (forall s, P (JString s)) ->
  (forall items, Forall P items -> P (JArray items)) ->
  (forall fields, Forall (fun kv => P kv.2) fields -> P (JObject fields)) ->
  forall j, P j.
Proof.
  intros Hnull Hbool Hnum Hstr Harr Hobj.
  refine (fix IH (j : json) : P j :=
            match j with
            | JNull => Hnull
            | JBool b => Hbool b
            | JNumber lit => Hnum lit
            | JString s => Hstr s
            | JArray items =>
                Harr items ((fix go (l : list json) : Forall P l :=
                               match l with
                               | [] => Forall_nil_2 _
                               | x :: l' => Forall_cons_2 _ _ _ (IH x) (go l')
                               end) items)
            | JObject fields =>
                Hobj fields ((fix go (l : list (string * json)) : Forall (fun kv => P kv.2) l :=
                                match l with
                                | [] => Forall_nil_2 _
                                | kv :: l' => Forall_cons_2 _ _ _ (IH kv.2) (go l')
                                end) fields)
            end).
Qed.

Section RoundTrip.
Variable float_repr : string -> string.
Abbreviation dumps := (json_dumps float_repr).

Lemma dumps_number_plain lit :
  json_plain (JNumber lit) = true -> dumps_number float_repr lit = lit.
Proof.
  cbn [json_plain]. unfold dumps_number. intros H.
  destruct (bool_decide (lit ∈ ["NaN"; "Infinity"; "-Infinity"])); [done|].
  cbn [orb] in H. apply andb_true_iff in H as [H _].
  rewrite (int_literal_not_float lit H). destruct (decide (lit = "-0")) as [->|]; done.
Qed.

Lemma opens_app s rest : opens s -> opens (s +:+ rest).
Proof. by destruct s. Qed.

Lemma opens_skip_space s : opens s -> skip_space s = s.
Proof. destruct s as [|c s]; [done|]. intros [Hc _]. cbn. by rewrite Hc. Qed.

Lemma opens_int_literal lit : int_literal lit = true -> opens lit.
Proof.
  destruct lit as [|c s]; [done|]. cbn [int_literal opens].
  destruct (decide (c = "-"%char)) as [->|Hc]; [done|].
  cbn [nat_literal]. destruct (decide (c = "0"%char)) as [->|]; [done|].
  intros [Hd _]%andb_true_iff.
  destruct c as [[] [] [] [] [] [] [] []]; done.
Qed.

Lemma dumps_opens j : json_plain j = true -> opens (dumps j).
Proof.
  destruct j as [|[]|lit|s|items|fields]; intros H; try done.
  cbn [json_dumps]. rewrite dumps_number_plain by done. cbn [json_plain] in H.
  apply orb_true_iff in H as [H|H].
  - apply bool_decide_eq_true in H.
    repeat (apply elem_of_cons in H as [->|H]; [done|]). by apply elem_of_nil in H.
  - apply andb_true_iff in H as [H _]. by apply opens_int_literal.
Qed.

Lemma scan_once_number fuel lit rest :
  json_plain (JNumber lit) = true -> follows rest = true ->
  scan_once (S fuel) (lit +:+ rest) = Some (JNumber lit, rest).
Proof.
  cbn [json_plain]. intros H Hrest. apply orb_true_iff in H as [H|H].
  - apply bool_decide_eq_true in H.
    repeat (apply elem_of_cons in H as [->|H]; [done|]). by apply elem_of_nil in H.
  - apply andb_true_iff in H as [H _].
    pose proof (scan_number_literal lit rest H Hrest) as Hnum.
    destruct lit as [|c s]; [done|]. cbn [int_literal] in H.
    change (String c s +:+ rest) with (String c (s +:+ rest)) in *.
    assert (c = "-"%char \/ is_digit c = true) as Hc.
    { destruct (decide (c = "-"%char)) as [->|]; [by left | right].
      cbn [nat_literal] in H. destruct (decide (c = "0"%char)) as [->|]; [done|].
      by apply andb_true_iff in H as [? _]. }
    destruct c as [[] [] [] [] [] [] [] []]; destruct Hc as [Hc|Hc]; try discriminate.
    all: cbn [scan_once]; cbv iota beta.
    all: by rewrite ?decide_False, Hnum by done.
Qed.

Lemma concat_opens (texts : list string) sep :
  texts <> [] -> Forall opens texts -> opens (String.concat sep texts).
Proof.
  intros Hne Hall. destruct texts as [|x [|y l]]; [done| |].
  - by apply Forall_cons in Hall as [? _].
  - cbn [String.concat]. apply opens_app. by apply Forall_cons in Hall as [? _].
Qed.

Lemma concat_cons2 sep (x y : string) l :
  String.concat sep (x :: y :: l) = x +:+ sep +:+ String.concat sep (y :: l).
Proof. reflexivity. Qed.

Lemma scan_items_dumps once items :
  items <> [] -> Forall (reads_back float_repr once) items ->
  forall k rest, (length items <= k)%nat ->
    scan_items once k (String.concat ", " (map dumps items) +:+ String "]" rest)
    = Some (items, rest).
Proof.
  intros Hne Hall. induction Hall as [|x l [Hx Hread] Hl IH]; [done|].
  intros k rest Hk. destruct k as [|k]; [cbn in Hk; lia|].
  destruct l as [|y l].
  - cbn [map String.concat scan_items]. rewrite Hread by done. reflexivity.
  - cbn [map]. rewrite concat_cons2. cbn [scan_items]. rewrite !string_app_assoc.
    rewrite Hread by done. cbn [mbind option_bind].
    change (", " +:+ ?s) with (String "," (String " " s)).
    assert (forall s, opens s ->
              match skip_space (String "," (String " " s)) with
              | String "]" rest' => Some ([x], rest')
              | String "," rest' =>
                  '(vs, rest'') ← scan_items once k (skip_space rest'); Some (x :: vs, rest'')
              | _ => None
              end = '(vs, rest'') ← scan_items once k s; Some (x :: vs, rest'')) as Hstep.
    { intros s Hs.
      change (skip_space (String "," (String " " s))) with (String "," (String " " s)).
      cbv iota beta.
      change (skip_space (String " " s)) with (skip_space s).
      by rewrite (opens_skip_space s Hs). }
    rewrite Hstep.
    + cbn [length] in Hk.
      specialize (IH ltac:(done) k rest ltac:(cbn [length]; lia)).
      cbn [map] in IH. by rewrite IH.
    + apply opens_app, concat_opens; [done|].
      change (dumps y :: map dumps l) with (map dumps (y :: l)).
      apply Forall_fmap. eapply Forall_impl; [exact Hl|].
      intros z [Hz _]. by apply dumps_opens.
Qed.

Lemma dumps_object fields :
  dumps (JObject fields) = "{" +:+ String.concat ", " (map (pair_text float_repr) fields) +:+ "}".
Proof. reflexivity. Qed.

Lemma pair_text_app key v tail :
  pair_text float_repr (key, v) +:+ tail
  = String dquote (escape key +:+ String dquote (String ":" (String " " (dumps v +:+ tail)))).
Proof.
  unfold pair_text. cbn [fst snd]. unfold dumps_string. rewrite !string_app_assoc.
  change (String dquote ?a +:+ ?b) with (String dquote (a +:+ b)).
  by rewrite !string_app_assoc.
Qed.

Lemma scan_pairs_step once k key v tail :
  json_plain v = true -> once (dumps v +:+ tail) = Some (v, tail) ->
  scan_pairs once (S k)
    (String dquote (escape key +:+ String dquote (String ":" (String " " (dumps v +:+ tail)))))
  = match skip_space tail with
    | String "}" rest' => Some ([(key, v)], rest')
    | String "," rest' =>
        '(kvs, rest'') ← scan_pairs once k (skip_space rest'); Some ((key, v) :: kvs, rest'')
    | _ => None
    end.
Proof.
  intros Hv Hread. cbn [scan_pairs]. rewrite decide_True by done.
  rewrite scan_string_escape. cbn [mbind option_bind].
  change (skip_space (String ":" ?s)) with (String ":" s). cbv iota beta.
  change (skip_space (String " " ?s)) with (skip_space s).
  rewrite opens_skip_space by by apply opens_app, dumps_opens.
  by rewrite Hread.
Qed.

Lemma pair_text_opens kv : opens (pair_text float_repr kv).
Proof. done. Qed.

Lemma scan_pairs_dumps once fields :
  fields <> [] -> Forall (fun kv => reads_back float_repr once kv.2) fields ->
  forall k rest, (length fields <= k)%nat ->
    scan_pairs once k (String.concat ", " (map (pair_text float_repr) fields) +:+ String "}" rest)
    = Some (fields, rest).
Proof.
  intros Hne Hall. induction Hall as [|[key v] l [Hv Hread] Hl IH]; [done|].
  intros k rest Hk. destruct k as [|k]; [cbn in Hk; lia|].
  cbn [snd] in Hv, Hread. destruct l as [|kv l].
  - cbn [map String.concat]. rewrite pair_text_app.
    rewrite scan_pairs_step by (done || by apply Hread). done.
  - cbn [map]. rewrite concat_cons2. rewrite !string_app_assoc. rewrite pair_text_app.
    rewrite scan_pairs_step by (done || by apply Hread).
    change (", " +:+ ?s) with (String "," (String " " s)).
    change (skip_space (String "," ?s)) with (String "," s). cbv iota beta.
    change (skip_space (String " " ?s)) with (skip_space s).
    rewrite opens_skip_space.
    + cbn [length] in Hk.
      specialize (IH ltac:(done) k rest ltac:(cbn [length]; lia)).
      cbn [map] in IH. by rewrite IH.
    + apply opens_app, concat_opens; [done|].
      change (pair_text float_repr kv :: map (pair_text float_repr) l) with (map (pair_text float_repr) (kv :: l)).
      apply Forall_fmap, Forall_forall. intros z _. apply pair_text_opens.
Qed.

Lemma dumps_array items :
  dumps (JArray items) = "[" +:+ String.concat ", " (map dumps items) +:+ "]".
Proof. reflexivity. Qed.

Lemma scan_once_dumps j :
  json_plain j = true ->
  forall fuel, (cost j <= fuel)%nat ->
  forall rest, follows rest = true -> scan_once fuel (dumps j +:+ rest) = Some (j, rest).
Proof.
  induction j as [|b|lit|s|items IH|fields IH] using json_ind';
    intros Hplain fuel Hfuel rest Hrest;
    (destruct fuel as [|fuel]; [cbn in Hfuel; lia|]).
  - reflexivity.
  - by destruct b.
  - cbn [json_dumps]. rewrite dumps_number_plain by done. by apply scan_once_number.
  - cbn [json_dumps]. unfold dumps_string.
    change (String dquote ?a +:+ ?b) with (String dquote (a +:+ b)).
    rewrite string_app_assoc.
    change (scan_once (S fuel) (String dquote ?r))
      with ('(body, rest') ← scan_string r; Some (JString body, rest')).
    change (String dquote "" +:+ rest) with (String dquote rest).
    by rewrite scan_string_escape.
  - rewrite dumps_array. rewrite !string_app_assoc.
    change ("[" +:+ ?r) with (String "[" r).
    change (scan_once (S fuel) (String "[" ?r)) with (scan_array (scan_once fuel) fuel r).
    cbn [json_plain cost] in Hplain, Hfuel.
    destruct items as [|x items].
    + reflexivity.
    + unfold scan_array.
      set (text := String.concat ", " (map dumps (x :: items)) +:+ "]" +:+ rest).
      assert (opens text) as Hopen.
      { apply opens_app, concat_opens; [done|]. apply Forall_fmap, Forall_forall.
        intros y Hy. apply dumps_opens.
        rewrite forallb_forall in Hplain. apply Hplain. by apply list_elem_of_In. }
      rewrite (opens_skip_space text Hopen).
      assert (scan_items (scan_once fuel) fuel text = Some (x :: items, rest)) as Hitems.
      { apply scan_items_dumps; [done | | lia].
        apply Forall_forall. intros y Hy. rewrite Forall_forall in IH.
        assert (json_plain y = true) as Hy'.
        { rewrite forallb_forall in Hplain. apply Hplain. by apply list_elem_of_In. }
        split; [done|]. apply IH; [done | done |].
        assert (list_max (map cost (x :: items)) <= fuel)%nat as Hmax by lia.
        rewrite list_max_le in Hmax. rewrite List.Forall_forall in Hmax.
        apply Hmax, in_map, list_elem_of_In, Hy. }
      destruct text as [|c text']; [done|]. destruct Hopen as (_ & Hc & _).
      destruct c as [[] [] [] [] [] [] [] []]; try done; by rewrite Hitems.
  - rewrite dumps_object. rewrite !string_app_assoc.
    change ("{" +:+ ?r) with (String "{" r).
    change (scan_once (S fuel) (String "{" ?r)) with (scan_object (scan_once fuel) fuel r).
    cbn [json_plain cost] in Hplain, Hfuel. apply andb_true_iff in Hplain as [Hnd Hplain].
    apply bool_decide_eq_true in Hnd.
    destruct fields as [|kv fields].
    + reflexivity.
    + unfold scan_object.
      set (text := String.concat ", " (map (pair_text float_repr) (kv :: fields)) +:+ "}" +:+ rest).
      assert (opens text) as Hopen.
      { apply opens_app, concat_opens; [done|]. apply Forall_fmap, Forall_forall.
        intros y _. apply pair_text_opens. }
      rewrite (opens_skip_space text Hopen).
      assert (scan_pairs (scan_once fuel) fuel text = Some (kv :: fields, rest)) as Hpairs.
      { apply scan_pairs_dumps; [done | | lia].
        apply Forall_forall. intros y Hy. rewrite Forall_forall in IH.
        assert (json_plain y.2 = true) as Hy'.
        { rewrite forallb_forall in Hplain. apply (Hplain y). by apply list_elem_of_In. }
        split; [done|]. apply IH; [done | done |].
        assert (list_max (map (fun kv => cost kv.2) (kv :: fields)) <= fuel)%nat as Hmax by lia.
        rewrite list_max_le in Hmax. rewrite List.Forall_forall in Hmax.
        apply (Hmax (cost y.2)), in_map_iff. exists y. split; [done | by apply list_elem_of_In]. }
      destruct text as [|c text']; [done|]. destruct Hopen as (_ & _ & Hc).
      destruct c as [[] [] [] [] [] [] [] []]; try done;
        rewrite Hpairs; cbn [mbind option_bind]; by rewrite dict_of_items_wf_id.
Qed.

(** ** The fuel of [json_loads] is enough *)

Lemma opens_length s : opens s -> (1 <= String.length s)%nat.
Proof. destruct s; [done | cbn; lia]. Qed.

Lemma concat_length_each sep (texts : list string) t :
  t ∈ texts -> (String.length t <= String.length (String.concat sep texts))%nat.
Proof.
  induction texts as [|x texts IH]; [by intros ?%elem_of_nil|].
  destruct texts as [|y texts].
  - intros ->%list_elem_of_singleton. done.
  - rewrite concat_cons2, !string_length_app. intros [->|Hin]%elem_of_cons; [lia|].
    specialize (IH Hin). lia.
Qed.

Lemma concat_length_count sep (texts : list string) :
  Forall opens texts -> (length texts <= String.length (String.concat sep texts))%nat.
Proof.
  induction 1 as [|x texts Hx Htexts IH]; [done|].
  apply opens_length in Hx. destruct texts as [|y texts]; [cbn; lia|].
  rewrite concat_cons2, !string_length_app. cbn [length] in *. lia.
Qed.

Lemma cost_length j : json_plain j = true -> (cost j <= String.length (dumps j))%nat.
Proof.
  induction j as [|b|lit|s|items IH|fields IH] using json_ind'; intros Hplain.
  - cbn. lia.
  - destruct b; cbn; lia.
  - apply (opens_length (dumps (JNumber lit))). by apply dumps_opens.
  - cbn. lia.
  - rewrite dumps_array, !string_length_app. cbn [cost json_plain String.length] in *.
    rewrite forallb_forall in Hplain.
    assert (Forall opens (map dumps items)) as Hopens.
    { apply Forall_fmap, Forall_forall. intros y Hy. apply dumps_opens, Hplain.
      by apply list_elem_of_In. }
    pose proof (concat_length_count ", " _ Hopens) as Hcount. rewrite length_map in Hcount.
    assert (list_max (map cost items) <= String.length (String.concat ", " (map dumps items)))%nat.
    { apply list_max_le, List.Forall_forall. intros k Hk.
      apply in_map_iff in Hk as (y & <- & Hy). rewrite Forall_forall in IH.
      etransitivity; [apply IH; [by apply list_elem_of_In | by apply Hplain]|].
      apply concat_length_each, list_elem_of_fmap. exists y. split; [done | by apply list_elem_of_In]. }
    lia.
  - rewrite dumps_object, !string_length_app. cbn [cost json_plain String.length] in *.
    apply andb_true_iff in Hplain as [_ Hplain]. rewrite forallb_forall in Hplain.
    assert (Forall opens (map (pair_text float_repr) fields)) as Hopens.
    { apply Forall_fmap, Forall_forall. intros y _. apply pair_text_opens. }
    pose proof (concat_length_count ", " _ Hopens) as Hcount. rewrite length_map in Hcount.
    assert (list_max (map (fun kv => cost kv.2) fields)
            <= String.length (String.concat ", " (map (pair_text float_repr) fields)))%nat.
    { apply list_max_le, List.Forall_forall. intros k Hk.
      apply in_map_iff in Hk as (y & <- & Hy). rewrite Forall_forall in IH.
      etransitivity; [apply IH; [by apply list_elem_of_In | by apply Hplain]|].
      etransitivity; [|apply (concat_length_each _ _ (pair_text float_repr y)), list_elem_of_fmap;
                       exists y; split; [done | by apply list_elem_of_In]].
      unfold pair_text. rewrite !string_length_app. lia. }
    lia.
Qed.

Lemma json_loads_dumps j : json_plain j = true -> json_loads (dumps j) = Some j.
Proof.
  intros Hplain. unfold json_loads.
  rewrite (opens_skip_space _ (dumps_opens j Hplain)).
  pose proof (cost_length j Hplain) as Hcost.
  pose proof (scan_once_dumps j Hplain (S (String.length (dumps j))) ltac:(lia) "" eq_refl) as H.
  rewrite string_app_nil_r in H. by rewrite H.
Qed.

End RoundTrip.

(** ** The lines of a text *)

Lemma no_break_app a b : no_break (a +:+ b) = no_break a && no_break b.
Proof. induction a as [|c a IH]; [done|]. cbn. by rewrite IH, andb_assoc. Qed.

Lemma splitlines_line s : s <> "" -> no_break s = true -> splitlines s = [s].
Proof.
  induction s as [|c s IH]; [done|]. intros _ [Hc Hs]%andb_true_iff.
  cbn [splitlines]. apply negb_true_iff in Hc. rewrite Hc.
  destruct s as [|c' s]; [done|]. by rewrite IH.
Qed.

Lemma splitlines_app_newline l s :
  no_break l = true -> splitlines (l +:+ newline +:+ s) = l :: splitlines s.
Proof.
  induction l as [|c l IH].
  - intros _. cbn. by destruct s.
  - intros [Hc Hl]%andb_true_iff. apply negb_true_iff in Hc.
    change (String c l +:+ newline +:+ s) with (String c (l +:+ newline +:+ s)).
    cbn [splitlines]. by rewrite Hc, IH.
Qed.

Lemma splitlines_concat lines :
  Forall (fun l => l <> "" /\ no_break l = true) lines ->
  splitlines (String.concat newline lines) = lines.
Proof.
  induction 1 as [|l lines [Hne Hl] _ IH]; [done|].
  destruct lines as [|l' lines].
  - by apply splitlines_line.
  - rewrite concat_cons2, splitlines_app_newline by done. by rewrite IH.
Qed.

(** A text with an empty line in it: two line feeds in a row. *)
Lemma splitlines_blank pre post :
  exists l ls, splitlines (pre +:+ newline +:+ newline +:+ post) = l :: ls /\ "" ∈ ls.
Proof.
  induction pre as [|c pre (l & ls & IH & Hin)].
  - exists "", ("" :: splitlines post). split; [|apply list_elem_of_here].
    cbn. by destruct post.
  - change (String c pre +:+ ?s) with (String c (pre +:+ s)). cbn [splitlines]. rewrite IH.
    destruct (is_linebreak c).
    + destruct (pre +:+ newline +:+ newline +:+ post) as [|c' s'] eqn:Hs; [done|].
      destruct (_ && _).
      * by exists l, ls.
      * exists "", (l :: ls). split; [done | by apply list_elem_of_further].
    + by exists (String c l), ls.
Qed.

(** ** The text of a value is one line *)

Lemma no_break_escape s : has_nel s = false -> no_break (escape s) = true.
Proof.
  unfold has_nel. induction s as [|c s IH]; [done|]. cbn [String.list_ascii_of_string existsb].
  intros [Hc Hs]%orb_false_iff. cbn [escape]. rewrite no_break_app, IH by done.
  rewrite andb_true_r. destruct c as [[] [] [] [] [] [] [] []]; done.
Qed.

Lemma no_break_dumps_string s : has_nel s = false -> no_break (dumps_string s) = true.
Proof.
  intros H. unfold dumps_string. cbn [no_break]. rewrite no_break_app, no_break_escape by done.
  done.
Qed.

Lemma no_break_digits s : all_digits s = true -> no_break s = true.
Proof.
  unfold all_digits. induction s as [|c s IH]; [done|]. cbn.
  intros [Hc Hs]%andb_true_iff. rewrite IH by done.
  destruct c as [[] [] [] [] [] [] [] []]; done.
Qed.

Lemma no_break_nat_literal s : nat_literal s = true -> no_break s = true.
Proof.
  destruct s as [|c s]; [done|]. cbn [nat_literal].
  destruct (decide (c = "0"%char)) as [->|Hc].
  - by intros ->%bool_decide_eq_true.
  - intros [Hd Hs]%andb_true_iff. apply (no_break_digits (String c s)).
    unfold all_digits in *. cbn. by rewrite Hd, Hs.
Qed.

Lemma no_break_int_literal lit : int_literal lit = true -> no_break lit = true.
Proof.
  destruct lit as [|c s]; [done|]. cbn [int_literal].
  destruct (decide (c = "-"%char)) as [->|Hc]; [|apply no_break_nat_literal].
  intros [Hs _]%andb_true_iff. cbn. by apply no_break_nat_literal.
Qed.

Lemma no_break_concat sep texts :
  no_break sep = true -> Forall (fun t => no_break t = true) texts ->
  no_break (String.concat sep texts) = true.
Proof.
  intros Hsep. induction 1 as [|x texts Hx _ IH]; [done|].
  destruct texts as [|y texts]; [done|].
  by rewrite concat_cons2, !no_break_app, Hx, Hsep, IH.
Qed.

Section OneLine.
Variable float_repr : string -> string.
Abbreviation dumps := (json_dumps float_repr).

Lemma no_break_dumps j :
  json_plain j = true -> nel_free j = true -> no_break (dumps j) = true.
Proof.
  induction j as [|b|lit|s|items IH|fields IH] using json_ind'; intros Hplain Hnel.
  - done.
  - by destruct b.
  - cbn [json_dumps]. rewrite dumps_number_plain by done. cbn [json_plain] in Hplain.
    apply orb_true_iff in Hplain as [H|H].
    + apply bool_decide_eq_true in H.
      repeat (apply elem_of_cons in H as [->|H]; [done|]). by apply elem_of_nil in H.
    + apply andb_true_iff in H as [H _]. by apply no_break_int_literal.
  - cbn [nel_free] in Hnel. apply negb_true_iff in Hnel. by apply no_break_dumps_string.
  - rewrite dumps_array, !no_break_app. cbn [json_plain nel_free] in *.
    rewrite forallb_forall in Hplain, Hnel. rewrite no_break_concat; [done | done |].
    apply Forall_fmap, Forall_forall. intros y Hy. rewrite Forall_forall in IH.
    apply IH; [done | |]; [apply Hplain | apply Hnel]; by apply list_elem_of_In.
  - rewrite dumps_object, !no_break_app. cbn [json_plain nel_free] in *.
    apply andb_true_iff in Hplain as [_ Hplain].
    rewrite forallb_forall in Hplain, Hnel. rewrite no_break_concat; [done | done |].
    apply Forall_fmap, Forall_forall. intros y Hy. rewrite Forall_forall in IH.
    apply list_elem_of_In in Hy as Hy'. specialize (Hnel y Hy').
    apply andb_true_iff in Hnel as [Hkey Hval]. apply negb_true_iff in Hkey.
    change (no_break (pair_text float_repr y) = true).
    unfold pair_text. rewrite !no_break_app, no_break_dumps_string by done.
    rewrite IH; [done | done | by apply Hplain | done].
Qed.

Lemma dumps_nonempty j : json_plain j = true -> dumps j <> "".
Proof. intros H Heq. pose proof (dumps_opens float_repr j H) as Ho. by rewrite Heq in Ho. Qed.

Lemma splitlines_download js :
  Forall (fun j => json_plain j = true /\ nel_free j = true) js ->
  splitlines (download_data float_repr js) = map dumps js.
Proof.
  intros H. unfold download_data. apply splitlines_concat.
  apply Forall_fmap. eapply Forall_impl; [exact H|]. intros j [Hp Hn]. split.
  - by apply dumps_nonempty.
  - by apply no_break_dumps.
Qed.

Lemma loads_download js :
  Forall (fun j => json_plain j = true /\ nel_free j = true) js ->
  mapM json_loads (splitlines (download_data float_repr js)) = Some js.
Proof.
  intros H. rewrite splitlines_download by done. apply mapM_Some.
  induction H as [|j js [Hp _] _ IH]; constructor; [|done].
  by apply json_loads_dumps.
Qed.

End OneLine.

(** ** [highlight_pii] only inserts *)

Lemma chars_app a b : chars (a +:+ b) = chars a ++ chars b.
Proof.
  unfold chars. induction a as [|c a IH]; [done|].
  cbn [String.append String.list_ascii_of_string app]. by rewrite IH.
Qed.

Lemma chars_length s : length (chars s) = String.length s.
Proof. unfold chars. induction s as [|c s IH]; [done|]. cbn. by rewrite IH. Qed.

Lemma replace_empty_inserts new s : chars s `sublist_of` chars (replace_empty new s).
Proof.
  induction s as [|c s IH]; cbn [replace_empty].
  - apply sublist_nil_l.
  - rewrite chars_app. apply sublist_inserts_l. cbn. by apply sublist_skip.
Qed.

Lemma str_replace_inserts old pre post s :
  chars s `sublist_of` chars (str_replace old (pre +:+ old +:+ post) s).
Proof.
  destruct (decide (old = "")) as [->|Hold]; [apply replace_empty_inserts|].
  remember (String.length s) as n eqn:Hn. revert s Hn.
  induction n as [n IH] using lt_wf_ind. intros s Hn.
  destruct s as [|c s]; [by destruct old|].
  destruct (starts_with old (String c s)) eqn:Hstart.
  - apply starts_with_spec in Hstart as [rest Hrest]. rewrite Hrest.
    rewrite str_replace_match by done. rewrite !chars_app, <- !app_assoc.
    apply sublist_inserts_l, sublist_app; [done|]. apply sublist_inserts_l.
    apply (IH (String.length rest)); [|done].
    rewrite Hn, Hrest, string_length_app. destruct old; [done | cbn; lia].
  - rewrite str_replace_no_match by done. cbn. apply sublist_skip.
    apply (IH (String.length s)); [|done]. rewrite Hn. cbn. lia.
Qed.

Lemma highlight_one_inserts text x : chars text `sublist_of` chars (highlight_one text x).
Proof.
  unfold highlight_one, span. cbv zeta.
  rewrite <- !(string_app_assoc _ _ (x.1 +:+ "</span>")).
  apply str_replace_inserts.
Qed.

Lemma fold_highlight_inserts items text :
  chars text `sublist_of` chars (fold_left highlight_one items text).
Proof.
  revert text. induction items as [|x items IH]; intros text; [done|].
  cbn [fold_left]. etransitivity; [apply highlight_one_inserts | apply IH].
Qed.

Lemma str_replace_absent old new s :
  ~ substring_of old s -> str_replace old new s = s.
Proof.
  intros Habs. assert (old <> "") as Hold.
  { intros ->. apply Habs. by exists "", s. }
  induction s as [|c s IH]; [by destruct old|].
  assert (starts_with old (String c s) = false) as Hstart.
  { apply not_true_is_false. intros [post Hpost]%starts_with_spec.
    apply Habs. by exists "", post. }
  rewrite str_replace_no_match by done. f_equal. apply IH.
  intros (pre & post & ->). apply Habs. by exists (String c pre), post.
Qed.

Lemma fold_highlight_absent (items : list (string * info)) text :
  Forall (fun x => ~ substring_of x.1 text) items ->
  fold_left highlight_one items text = text.
Proof.
  induction 1 as [|x items Hx _ IH]; [done|].
  cbn [fold_left]. unfold highlight_one at 2. by rewrite str_replace_absent.
Qed.

(** ** Add a PII, then prune *)

Lemma dict_keys_filter {V} (P : string -> bool) (d : list (string * V)) :
  dict_keys (filter (fun kv => P kv.1 = true) d) = filter (fun k => P k = true) (dict_keys d).
Proof.
  unfold dict_keys. induction d as [|[k v] d IH]; [done|].
  rewrite fmap_cons, !filter_cons. cbn [fst].
  destruct (decide (P k = true)); [rewrite fmap_cons|]; by rewrite IH.
Qed.

Lemma add_pii_entry_keys v t r e :
  dict_wf (piis e) -> str_in v (context e) = true ->
  dict_keys (piis (add_pii_entry v t r e))
  = filter (fun k => str_in k (context e) = true)
      (if decide (v ∈ dict_keys (piis e)) then dict_keys (piis e) else dict_keys (piis e) ++ [v]).
Proof.
  intros Hwf Hin. destruct (add_pii_entry_has v t r e Hwf Hin) as [-> _].
  by rewrite (dict_keys_filter (fun k => str_in k (context e))), dict_keys_set.
Qed.

Lemma add_pii_entry_get v t r e k :
  dict_wf (piis e) -> str_in v (context e) = true ->
  dict_get k (piis (add_pii_entry v t r e))
  = if decide (k = v) then Some (Info t r)
    else if str_in k (context e) then dict_get k (piis e) else None.
Proof.
  intros Hwf Hin. destruct (add_pii_entry_has v t r e Hwf Hin) as [-> _].
  rewrite (dict_get_filter_key (fun k => str_in k (context e))), dict_get_set.
  destruct (decide (k = v)) as [->|]; [by rewrite Hin | done].
Qed.

(** ** Counting lines *)

Lemma splitlines_nonempty s : s <> "" -> splitlines s <> [].
Proof.
  induction s as [|c s IH]; [done|]. intros _. cbn [splitlines].
  destruct (is_linebreak c).
  - destruct s as [|c' s]; [done|]. destruct (_ && _); [by apply IH | done].
  - by destruct (splitlines s).
Qed.

Lemma splitlines_length s :
  no_cr s = true ->
  length (splitlines s) = (breaks s + if ends_open s then 1 else 0)%nat.
Proof.
  induction s as [|c s IH]; [done|]. intros [Hc Hs]%andb_true_iff.
  apply negb_true_iff in Hc. specialize (IH Hs). cbn [splitlines breaks].
  destruct (is_linebreak c) eqn:Hbreak.
  - destruct s as [|c' s]; [cbn; by rewrite Hbreak|].
    rewrite Hc. cbn [andb length]. rewrite IH. done.
  - destruct s as [|c' s]; [cbn; by rewrite Hbreak|].
    pose proof (splitlines_nonempty (String c' s) ltac:(done)) as Hne.
    destruct (splitlines (String c' s)) as [|l ls]; [done|].
    cbn [length] in *. rewrite IH. done.
Qed.

Lemma breaks_app a b : breaks (a +:+ b) = (breaks a + breaks b)%nat.
Proof. induction a as [|c a IH]; [done|]. cbn. rewrite IH. lia. Qed.

Lemma no_cr_app a b : no_cr (a +:+ b) = no_cr a && no_cr b.
Proof. induction a as [|c a IH]; [done|]. cbn. by rewrite IH, andb_assoc. Qed.

Lemma ends_open_app a b : b <> "" -> ends_open (a +:+ b) = ends_open b.
Proof.
  intros Hb. induction a as [|c a IH]; [done|].
  change (String c a +:+ b) with (String c (a +:+ b)). cbn [ends_open].
  destruct (a +:+ b) eqn:Hab; [|done]. by destruct a, b.
Qed.

Lemma forallb_false {A} (f : A -> bool) l :
  forallb f l = false -> exists y, y ∈ l /\ f y = false.
Proof.
  induction l as [|x l IH]; [done|]. cbn. intros [Hx|Hl]%andb_false_iff.
  - exists x. split; [apply list_elem_of_here | done].
  - destruct (IH Hl) as (y & Hy & Hf). exists y. split; [by apply list_elem_of_further | done].
Qed.

Lemma string_app_nonempty a b : b <> "" -> a +:+ b <> "".
Proof. intros Hb. by destruct a, b. Qed.

Lemma no_cr_concat sep texts :
  no_cr sep = true -> Forall (fun t => no_cr t = true) texts ->
  no_cr (String.concat sep texts) = true.
Proof.
  intros Hsep. induction 1 as [|x texts Hx _ IH]; [done|].
  destruct texts as [|y texts]; [done|].
  by rewrite concat_cons2, !no_cr_app, Hx, Hsep, IH.
Qed.

Lemma no_break_no_cr s : no_break s = true -> no_cr s = true.
Proof.
  induction s as [|c s IH]; [done|]. cbn. intros [Hc Hs]%andb_true_iff.
  rewrite IH by done. destruct c as [[] [] [] [] [] [] [] []]; done.
Qed.

Lemma no_break_ends_open s : s <> "" -> no_break s = true -> ends_open s = true.
Proof.
  induction s as [|c s IH]; [done|]. intros _ [Hc Hs]%andb_true_iff.
  destruct s as [|c' s]; [done|]. by apply IH.
Qed.

Lemma no_cr_escape s : no_cr (escape s) = true.
Proof.
  induction s as [|c s IH]; [done|]. cbn [escape]. rewrite no_cr_app, IH, andb_true_r.
  destruct c as [[] [] [] [] [] [] [] []]; done.
Qed.

Lemma breaks_escape s : has_nel s = true -> (1 <= breaks (escape s))%nat.
Proof.
  unfold has_nel. induction s as [|c s IH]; [done|].
  cbn [String.list_ascii_of_string existsb escape]. rewrite breaks_app.
  intros [Hc|Hs]%orb_true_iff.
  - apply N.eqb_eq in Hc. assert (c = ascii_of_N 133) as ->.
    { by rewrite <- (ascii_N_embedding c), Hc. }
    change (breaks (escape_char (ascii_of_N 133))) with 1%nat. lia.
  - specialize (IH Hs). lia.
Qed.

Lemma breaks_concat_elem sep texts t :
  t ∈ texts -> (breaks t <= breaks (String.concat sep texts))%nat.
Proof.
  induction texts as [|x texts IH]; [by intros ?%elem_of_nil|].
  destruct texts as [|y texts].
  - by intros ->%list_elem_of_singleton.
  - rewrite concat_cons2, !breaks_app. intros [->|Hin]%elem_of_cons; [lia|].
    specialize (IH Hin). lia.
Qed.

Section Lines.
Variable float_repr : string -> string.
Abbreviation dumps := (json_dumps float_repr).

Lemma no_cr_dumps_string s : no_cr (dumps_string s) = true.
Proof. unfold dumps_string. cbn [no_cr]. by rewrite no_cr_app, no_cr_escape. Qed.

Lemma no_cr_dumps j : json_plain j = true -> no_cr (dumps j) = true.
Proof.
  induction j as [|b|lit|s|items IH|fields IH] using json_ind'; intros Hplain.
  - done.
  - by destruct b.
  - apply no_break_no_cr. by apply (no_break_dumps float_repr (JNumber lit)).
  - apply no_cr_dumps_string.
  - rewrite dumps_array, !no_cr_app. cbn [json_plain] in *.
    rewrite forallb_forall in Hplain. rewrite no_cr_concat; [done | done |].
    apply Forall_fmap, Forall_forall. intros y Hy. rewrite Forall_forall in IH.
    apply IH; [done|]. apply Hplain. by apply list_elem_of_In.
  - rewrite dumps_object, !no_cr_app. cbn [json_plain] in *.
    apply andb_true_iff in Hplain as [_ Hplain].
    rewrite forallb_forall in Hplain. rewrite no_cr_concat; [done | done |].
    apply Forall_fmap, Forall_forall. intros y Hy. rewrite Forall_forall in IH.
    change (no_cr (pair_text float_repr y) = true).
    unfold pair_text. rewrite !no_cr_app, no_cr_dumps_string.
    rewrite IH; [done | done |]. apply (Hplain y). by apply list_elem_of_In.
Qed.

Lemma ends_open_dumps j : json_plain j = true -> ends_open (dumps j) = true.
Proof.
  destruct j as [|[]|lit|s|items|fields]; intros Hplain; try done.
  - apply no_break_ends_open.
    + by apply (dumps_nonempty float_repr (JNumber lit)).
    + by apply (no_break_dumps float_repr (JNumber lit)).
  - cbn [json_dumps]. unfold dumps_string.
    change (ends_open (String dquote (escape s) +:+ String dquote "") = true).
    by rewrite ends_open_app.
  - rewrite dumps_array. by rewrite !ends_open_app by (try apply string_app_nonempty; done).
  - rewrite dumps_object. by rewrite !ends_open_app by (try apply string_app_nonempty; done).
Qed.

Lemma breaks_dumps j : nel_free j = false -> (1 <= breaks (dumps j))%nat.
Proof.
  induction j as [|b|lit|s|items IH|fields IH] using json_ind'; intros Hnel; try done.
  - cbn [nel_free] in Hnel. apply negb_false_iff in Hnel.
    cbn [json_dumps]. unfold dumps_string. cbn [breaks]. rewrite breaks_app.
    pose proof (breaks_escape s Hnel). lia.
  - rewrite dumps_array, !breaks_app. cbn [nel_free] in Hnel.
    apply forallb_false in Hnel as (y & Hy & Hnel).
    rewrite Forall_forall in IH. specialize (IH y Hy Hnel).
    pose proof (breaks_concat_elem ", " (map dumps items) (dumps y)
                  ltac:(apply list_elem_of_fmap; by exists y)). lia.
  - rewrite dumps_object, !breaks_app. cbn [nel_free] in Hnel.
    apply forallb_false in Hnel as (y & Hy & Hnel).
    rewrite Forall_forall in IH. specialize (IH y Hy).
    pose proof (breaks_concat_elem ", " (map (pair_text float_repr) fields)
                  (pair_text float_repr y) ltac:(apply list_elem_of_fmap; by exists y)) as Hle.
    assert (1 <= breaks (pair_text float_repr y))%nat; [|lia].
    unfold pair_text, dumps_string. rewrite !breaks_app. cbn [breaks]. rewrite !breaks_app.
    apply andb_false_iff in Hnel as [Hkey|Hval].
    + apply negb_false_iff in Hkey. pose proof (breaks_escape y.1 Hkey). lia.
    + specialize (IH Hval). lia.
Qed.

(** The text of [n] values has [n] lines and one more for every NEL. *)
Lemma download_lines js :
  Forall (fun j => json_plain j = true) js ->
  length (splitlines (download_data float_repr js))
  = (length js + list_sum (map (fun j => breaks (dumps j)) js))%nat.
Proof.
  intros Hplain. unfold download_data.
  assert (Forall (fun t => no_cr t = true /\ ends_open t = true) (map dumps js)) as Htexts.
  { apply Forall_fmap. eapply Forall_impl; [exact Hplain|]. intros j Hj.
    split; [by apply no_cr_dumps | by apply ends_open_dumps]. }
  rewrite splitlines_length.
  2: { apply no_cr_concat; [done|]. eapply Forall_impl; [exact Htexts|]. by intros t [? _]. }
  clear Hplain. induction js as [|j js IH]; [done|].
  cbn [map] in *. apply Forall_cons in Htexts as [[Hcr Hopen] Htexts].
  destruct js as [|j' js].
  - cbn [String.concat length map]. rewrite Hopen. unfold list_sum. cbn [fold_right foldr]. lia.
  - cbn [map] in *. rewrite concat_cons2, !breaks_app.
    assert (String.concat (String (ascii_of_N 10) "") (dumps j' :: map dumps js) <> "") as Hne.
    { apply Forall_cons in Htexts as [[_ Ho] _]. destruct (dumps j'); [done|].
      by destruct js. }
    rewrite !ends_open_app by (try apply string_app_nonempty; done).
    specialize (IH Htexts). cbn [length list_sum map] in *.
    change (breaks (String (ascii_of_N 10) "")) with 1%nat.
    unfold list_sum in *. cbn [fold_right foldr] in *. lia.
Qed.

End Lines.

(** A line feed at the end of a text that does not end with a boundary adds
    no line. *)
Lemma splitlines_final_newline s :
  ends_open s = true -> splitlines (s +:+ newline) = splitlines s.
Proof.
  induction s as [|c s IH]; [done|]. intros Hopen.
  destruct s as [|c' s].
  - cbn [ends_open] in Hopen. apply negb_true_iff in Hopen.
    change (String c "" +:+ newline) with (String c newline).
    cbn [splitlines]. rewrite Hopen. done.
  - specialize (IH Hopen).
    change (String c (String c' s) +:+ newline) with (String c (String c' s +:+ newline)).
    cbn [splitlines]. rewrite IH.
    change (String c' s +:+ newline) with (String c' (s +:+ newline)). done.
Qed.

(** ** The properties *)

(** X1. "Go" saves the edits of the active record and moves to the entry
    whose number the number field answers.  The field takes a number from 1
    to the number of entries; for any other it answers the number of the
    active entry.  So the new index is [goto - 1] for a [goto] in that
    range and the old index otherwise, and it is always a position of the
    list. *)
Theorem go_button_jumps_within_bounds w idx entries a e goto :
  record_at w entries idx a e -> 0 <= idx ->
  let n := Z.of_nat (length entries) in
  let target := if bool_decide (1 <= goto <= n) then goto - 1 else idx in
  go_button (Go goto) idx entries w
  = (Rerun, with_current_idx target (saved_world idx entries a e w)) /\
  0 <= target < n /\
  (1 <= goto <= n -> target = goto - 1) /\
  (goto < 1 \/ n < goto -> target = idx).
Proof.
  intros Hat Hidx n target.
  assert (idx < n) as Hlt.
  { destruct Hat as [(k & Hk & Ha) _]. unfold py_index in Hk. cbv zeta in Hk. subst n.
    repeat case_bool_decide; try done; lia. }
  split_and!.
  - rewrite (go_button_run w idx entries a e goto Hat). subst target n.
    case_bool_decide; [done|]. by replace (idx + 1 - 1) with idx by lia.
  - subst target. case_bool_decide; lia.
  - subst target. case_bool_decide; lia.
  - subst target. intros H. by rewrite bool_decide_eq_true_2.
  - subst target. intros H. by rewrite bool_decide_eq_false_2 by lia.
Qed.

(** X2. "Update PII list from context" saves the edits first and prunes
    against the edited context: the record it leaves has the context and
    the question of the widgets, and of the annotations exactly those whose
    key occurs in that context, in their order, with the type and the
    relevance of the widgets; it ends in a rerun. *)
Theorem update_button_prunes_saved w idx entries a e0 :
  record_at w entries idx a e0 ->
  dict_wf (piis e0) ->
  let W := ss_widgets (session w) in
  let ctx := default (context e0) (W !! context_key idx) in
  exists e',
    update_button UpdatePII idx entries a w
    = (Rerun,
       World (<[a := Rec e']> (heap w))
             (SessionState (Some entries) (ss_original_entries (session w))
                           (ss_current_idx (session w)) W)
             (shown w ++ [PIIsUpdated])) /\
    others e' = others e0 /\
    context e' = ctx /\
    question e' = default (question e0) (W !! question_key idx) /\
    piis e' = filter (fun kv => str_in kv.1 ctx = true) (saved_info W idx <$> piis e0) /\
    Forall (fun k => substring_of k ctx) (dict_keys (piis e')).
Proof.
  intros Hat Hwf W ctx.
  exists (refresh_pii_from_context (save_entry W idx e0)).
  assert (piis (refresh_pii_from_context (save_entry W idx e0))
          = filter (fun kv => str_in kv.1 ctx = true) (saved_info W idx <$> piis e0)) as Hpiis.
  { rewrite refresh_piis by apply save_entry_piis_wf. by rewrite save_entry_piis. }
  split_and!; try done.
  - rewrite (update_button_run w idx entries a e0 Hat).
    unfold with_shown, with_record, saved_world. cbn [heap session shown].
    by rewrite list_insert_insert_eq.
  - rewrite Hpiis, (dict_keys_filter (fun k => str_in k ctx)).
    apply Forall_forall. intros k [Hk _]%list_elem_of_filter. by apply str_in_spec.
Qed.

(** X3. With the page of a record open, a run with no button down already
    writes the values of the widgets into the record (the [data] of the
    download button is computed in every run): context and question as
    their fields hold them, and every annotation with the type and the
    relevance its select boxes hold, which are options of the boxes (a value
    under the key of a box that is none of its options was replaced by the
    last type, by "low"), and with no other field.  A click on "Save edits"
    or on the download button leaves the same heap and the same session
    state as such a run; it only adds its message to the page. *)
Theorem save_button_saves_nothing_more loads up w entries idx a e :
  ss_entries (session w) = Some entries ->
  ss_current_idx (session w) = Some idx ->
  record_at w entries idx a e ->
  let W := ss_widgets (session w) in
  let quiet := step loads (Run up NoClick) w in
  let saved := step loads (Run up SaveEdits) w in
  let download := step loads (Run up Download) w in
  heap quiet !! a = Some (Rec (save_entry (page_widgets idx e W) idx e)) /\
  (dict_wf (piis e) ->
     save_entry (page_widgets idx e W) idx e
     = Entry (others e) (default (context e) (W !! context_key idx))
         (default (question e) (W !! question_key idx))
         ((fun x => (x.1, Info (selected_type (default (type x.2) (W !! type_key idx x.1)))
                              (selected_rel (default (relevance x.2) (W !! rel_key idx x.1)))))
            <$> piis e) /\
     plain_entry (save_entry (page_widgets idx e W) idx e)) /\
  heap saved = heap quiet /\ session saved = session quiet /\
  shown saved = shown quiet ++ [EditsSaved] /\
  heap download = heap quiet /\ session download = session quiet /\
  shown download = shown quiet ++ [ReadyForDownload].
Proof.
  intros Hes Hidx Hat W quiet saved download. subst quiet saved download.
  cbn [step]. unfold run.
  assert (record_at (clear_page w) entries idx a e) as Hat' by done.
  rewrite !(script_page_body loads up _ (clear_page w) idx entries a Hes Hidx (proj1 Hat)).
  rewrite (page_body_noclick_run (clear_page w) idx entries a e Hes Hidx Hat').
  rewrite (page_body_save_run (clear_page w) idx entries a e Hes Hidx Hat').
  rewrite (page_body_download_run (clear_page w) idx entries a e Hes Hidx Hat').
  split_and!; try done.
  - cbn [drawn_world heap clear_page session ss_widgets].
    apply list_lookup_insert_eq. destruct Hat as [_ He]. by eapply lookup_lt_Some.
  - intros Hwf. pose proof (save_entry_page_widgets idx e W Hwf) as Heq. cbv zeta in Heq.
    split; [exact Heq|]. rewrite Heq. unfold plain_entry. cbn [piis].
    apply Forall_fmap, Forall_fmap, Forall_forall. intros x _. cbn.
    split_and!; [apply selected_type_in | apply selected_rel_in | done].
Qed.

(** X4. A pass of the script with no button down, with "Save edits" down
    or with the download button down never ends in [st.rerun()]: it ends
    normally or with an exception.  So the rerun a click asks for is the
    last pass of its run. *)
Theorem rerun_needs_its_button loads up c w :
  c = NoClick \/ c = SaveEdits \/ c = Download ->
  (script loads up c w).1 = Done tt \/ exists x, (script loads up c w).1 = Raised x.
Proof.
  intros Hc. pose proof (no_rerun_script loads up c Hc w) as H.
  destruct (script loads up c w) as [[[]| |x] w']; cbn in *; [by left | done | right; by exists x].
Qed.

(** X5. In a session that began with loading a file of at least one line,
    whatever happened since: the list of records and the original list have
    as many elements as the file had lines, the index is a position of the
    list, and [entries[idx]] does not raise. *)
Theorem current_index_in_range loads rs w :
  loaded_from loads rs w -> rs <> [] ->
  exists es os idx a,
    ss_entries (session w) = Some es /\
    ss_original_entries (session w) = Some os /\
    ss_current_idx (session w) = Some idx /\
    length es = length rs /\ length os = length rs /\
    0 <= idx < Z.of_nat (length rs) /\
    list_getitem es idx w = (Done a, w).
Proof.
  intros Hfrom Hne.
  destruct (loaded_from_range loads rs w Hfrom Hne)
    as (es & os & Hes & Hos & Hles & Hlos & idx & Hidx & Hr).
  assert (exists a, es !! Z.to_nat idx = Some a) as [a Ha].
  { apply lookup_lt_is_Some. lia. }
  exists es, os, idx, a. split_and!; try done; try lia.
  unfold list_getitem, py_index. rewrite bool_decide_eq_true_2 by lia.
  cbn [mbind option_bind]. by rewrite Ha.
Qed.

(** X6. In a session that began with loading a file of at least one line,
    every line of which decoded to a record (an object with a string
    [context], a string [question] and a [piis] of the expected shape), no
    statement of the script raises: no index is out of range, no key is
    missing, no field has the wrong shape.  Whatever file the uploader holds
    and whatever button is down, the run ends normally, after at most one
    rerun.  (What Streamlit does inside its widgets is not part of the
    model.) *)
Theorem loaded_records_never_raise loads rs w :
  loaded_from loads rs w -> rs <> [] -> Forall is_record rs ->
  forall up c, run_outcome loads up c w = Done tt.
Proof.
  intros Hfrom Hne Hrec up c.
  pose proof (loaded_from_sound loads rs w Hfrom Hne Hrec) as Hsound.
  by destruct (run_sound loads (length rs) up c w Hsound) as [H _].
Qed.

(** X7. When the active object is not an object with a [context] (the
    load checks no field), every pass of the script raises at the first read
    of the field, before it has written anything.  The session cannot leave
    that record: after any number of widget changes and runs the heap, both
    lists and the index are what they were; "Load Original" is never
    reached. *)
Theorem record_without_context_blocks loads w es idx a j :
  ss_entries (session w) = Some es ->
  ss_current_idx (session w) = Some idx ->
  at_index es idx a ->
  heap w !! a = Some (Raw j) ->
  (forall fields, j = JObject fields -> dict_get "context" fields = None) ->
  forall w', steps loads w w' ->
    same_records w w' /\
    forall up c, script loads up c (clear_page w') = (Raised ShapeError, clear_page w').
Proof.
  intros Hes Hidx Hat Hj _ w' Hsteps.
  set (P := fun w1 : world =>
              ss_entries (session w1) = Some es /\ ss_current_idx (session w1) = Some idx /\
              heap w1 !! a = Some (Raw j)).
  assert (forall w1, P w1 -> forall up c,
            script loads up c (clear_page w1) = (Raised ShapeError, clear_page w1)) as Hraise.
  { intros w1 (H1 & H2 & H3) up c. by apply (script_raw loads up c _ es idx a j). }
  assert (forall w1, P w1 -> forall ev,
            P (step loads ev w1) /\ same_records w1 (step loads ev w1)) as Hstep.
  { intros w1 Hw1 [values|up c]; cbn [step].
    - by destruct Hw1 as (? & ? & ?).
    - unfold run. rewrite (Hraise w1 Hw1 up c). by destruct Hw1 as (? & ? & ?). }
  destruct (steps_same_records loads P w Hstep (conj Hes (conj Hidx Hj)) w' Hsteps)
    as [HP Hsame].
  split; [done | by apply Hraise].
Qed.

(** X8. The upload of a file with no line stores two empty lists and the
    index 0.  From then on every pass of the script raises [IndexError] at
    [entries[idx]], whatever file the uploader holds, and nothing of the
    heap or of the lists changes: the session shows no record and takes no
    file. *)
Theorem empty_file_blocks loads w c :
  ss_entries (session w) = None ->
  let w1 := step loads (Run (Some []) c) w in
  heap w1 = heap w /\
  ss_entries (session w1) = Some [] /\ ss_original_entries (session w1) = Some [] /\
  ss_current_idx (session w1) = Some 0 /\
  forall w', steps loads w1 w' ->
    same_records w1 w' /\
    forall up c', script loads up c' (clear_page w') = (Raised IndexError, clear_page w').
Proof.
  intros Hes w1.
  assert (w1 = World (heap w) (SessionState (Some []) (Some []) (Some 0) (ss_widgets (session w))) [])
    as Hw1.
  { subst w1. cbn [step]. unfold run, script.
    rewrite (bind_done _ _ _ _ _ (load_block_ok loads [] [] (clear_page w) Hes eq_refl)).
    change (pyobj_of_json <$> []) with (@nil pyobj).
    assert (loaded_world [] (clear_page w)
            = World (heap w) (SessionState (Some []) (Some []) (Some 0) (ss_widgets (session w))) [])
      as ->.
    { unfold loaded_world. cbn. by rewrite app_nil_r. }
    by rewrite (page_raised_at_index c _ [] 0). }
  split_and!; try (by rewrite Hw1). intros w' Hsteps.
  set (P := fun w2 : world =>
              ss_entries (session w2) = Some [] /\ ss_current_idx (session w2) = Some 0).
  assert (forall w2, P w2 -> forall up c',
            script loads up c' (clear_page w2) = (Raised IndexError, clear_page w2)) as Hraise.
  { intros w2 [H1 H2] up c'. by apply script_empty. }
  assert (forall w2, P w2 -> forall ev,
            P (step loads ev w2) /\ same_records w2 (step loads ev w2)) as Hstep.
  { intros w2 Hw2 [values|up c']; cbn [step].
    - by destruct Hw2.
    - unfold run. rewrite (Hraise w2 Hw2 up c'). by destruct Hw2. }
  assert (P w1) as HP1 by (rewrite Hw1; by split).
  destruct (steps_same_records loads P w1 Hstep HP1 w' Hsteps) as [HP Hsame].
  split; [done | by apply Hraise].
Qed.

(** X9. Once a file is loaded the uploader is not read again: a run does
    the same whatever file it holds, or none.  (The records of another file
    can only be loaded in a new browser session.) *)
Theorem upload_ignored_once_loaded loads rs w up up' c :
  loaded_from loads rs w ->
  step loads (Run up c) w = step loads (Run up' c) w /\
  run_outcome loads up c w = run_outcome loads up' c w.
Proof.
  intros Hfrom. apply (loaded_from_live loads) in Hfrom.
  assert (forall w1 c1, live_session rs w1 ->
            script loads up c1 w1 = script loads up' c1 w1) as Hsame.
  { intros w1 c1 (es & os & Hes & _). unfold script.
    by rewrite !(bind_done _ _ w1 tt w1) by (apply load_block_skip; by rewrite Hes). }
  pose proof (clear_page_live rs w Hfrom) as Hl.
  pose proof (script_live loads rs up c (clear_page w) Hl) as Hl'.
  cbn [step]. unfold run, run_outcome. rewrite <- (Hsame _ c Hl).
  destruct (script loads up c (clear_page w)) as [[[]| |x] w1]; cbn in Hl'; try done.
  by rewrite (Hsame _ NoClick (clear_page_live rs w1 Hl')).
Qed.

(** X10. [highlight_pii] only inserts: the characters of the text are, in
    their order, among the characters of the result, whatever the
    annotations are (an empty key, a key that occurs in the markup of
    another).  When no key occurs in the text the result is the text. *)
Theorem highlight_pii_only_inserts text piis :
  chars text `sublist_of` chars (highlight_pii text piis) /\
  (String.length text <= String.length (highlight_pii text piis))%nat /\
  (Forall (fun k => ~ substring_of k text) (dict_keys piis) -> highlight_pii text piis = text).
Proof.
  pose proof (fold_highlight_inserts (sorted_by_key piis) text) as Hsub.
  split_and!; [done | |].
  - apply sublist_length in Hsub. by rewrite !chars_length in Hsub.
  - intros Habs. apply fold_highlight_absent.
    rewrite (sorted_by_key_perm piis). apply Forall_forall. intros x Hx.
    rewrite Forall_forall in Habs. apply Habs, list_elem_of_fmap. by exists x.
Qed.

(** X11. The body of a successful "Add PII" ([piis[v] = ..] and then
    [refresh_pii_from_context]) on a record whose context holds [v]: [v] is
    annotated with the type and the relevance given (an annotation [v]
    already there keeps its place and is overwritten, a new one goes last),
    every other annotation whose key occurs in the context is kept as it is,
    and every annotation whose key does not occur in the context is
    dropped. *)
Theorem add_pii_entry_prunes_the_rest v t r e :
  dict_wf (piis e) -> substring_of v (context e) ->
  let e' := add_pii_entry v t r e in
  others e' = others e /\ context e' = context e /\ question e' = question e /\
  dict_wf (piis e') /\
  (forall k, dict_get k (piis e')
             = if decide (k = v) then Some (Info t r)
               else if str_in k (context e) then dict_get k (piis e) else None) /\
  dict_keys (piis e')
  = filter (fun k => str_in k (context e) = true)
      (if decide (v ∈ dict_keys (piis e)) then dict_keys (piis e)
       else dict_keys (piis e) ++ [v]) /\
  Forall (fun k => substring_of k (context e)) (dict_keys (piis e')).
Proof.
  intros Hwf Hsub e'. apply str_in_spec in Hsub.
  pose proof (add_pii_entry_keys v t r e Hwf Hsub) as Hkeys. fold e' in Hkeys.
  split_and!; try done.
  - unfold e', add_pii_entry, refresh_pii_from_context. cbn [piis set_piis].
    apply dict_of_items_wf.
  - intros k. by apply add_pii_entry_get.
  - rewrite Hkeys. apply Forall_forall. intros k [Hk _]%list_elem_of_filter.
    by apply str_in_spec.
Qed.

(** X12. What the download button writes, the load block reads.  For a
    JSON value whose numbers are [int]s (or [NaN], [Infinity], [-Infinity])
    and whose objects have pairwise different keys, [json.loads] of
    [json.dumps(v, ensure_ascii=False)] is the value.  For a list of such
    values none of whose strings and keys holds the character NEL, the text
    of the download splits into one line for each value, and its upload
    into a new session loads the records of these values. *)
Theorem download_then_upload float_repr :
  (forall j, json_plain j = true -> json_loads (json_dumps float_repr j) = Some j) /\
  (forall js w,
     Forall (fun j => json_plain j = true /\ nel_free j = true) js ->
     ss_entries (session w) = None ->
     let text := download_data float_repr js in
     splitlines text = map (json_dumps float_repr) js /\
     mapM json_loads (splitlines text) = Some js /\
     load_block json_loads (Some (splitlines text)) w
     = (Done tt, loaded_world (pyobj_of_json <$> js) w)).
Proof.
  split; [apply json_loads_dumps|]. intros js w Hjs Hes text.
  pose proof (loads_download float_repr js Hjs) as Hloads.
  split_and!; [by apply splitlines_download | done |].
  by apply load_block_ok.
Qed.

(** X13. The character NEL (U+0085) is a line boundary for
    [str.splitlines] and [json.dumps(.., ensure_ascii=False)] writes it as
    it is.  So, when a string or a key of the records holds it, the text of
    the download has more lines than records and its upload does not give
    the records back.  Among the code points below 256, which are the
    characters of the strings here, NEL is the only one to do so: when no
    string and no key holds it, such a text has as many lines as records.
    (U+2028 and U+2029, beyond the strings of this model, are line
    boundaries too, and [json.dumps] writes them as they are.) *)
Theorem nel_splits_the_download float_repr js :
  Forall (fun j => json_plain j = true) js ->
  (Forall (fun j => nel_free j = true) js ->
     length (splitlines (download_data float_repr js)) = length js) /\
  (Exists (fun j => nel_free j = false) js ->
     (length js < length (splitlines (download_data float_repr js)))%nat /\
     mapM json_loads (splitlines (download_data float_repr js)) <> Some js).
Proof.
  intros Hplain. split.
  - intros Hnel. rewrite splitlines_download, length_map; [done|].
    apply Forall_forall. intros j Hj. rewrite Forall_forall in Hplain, Hnel. auto.
  - intros Hnel.
    assert (length js < length (splitlines (download_data float_repr js)))%nat as Hlt.
    { rewrite download_lines by done.
      apply Exists_exists in Hnel as (j & Hj & Hnel).
      apply (breaks_dumps float_repr) in Hnel.
      assert (breaks (json_dumps float_repr j)
              <= list_sum (map (fun j => breaks (json_dumps float_repr j)) js))%nat; [|lia].
      clear Hplain. induction js as [|j' js IH]; [by apply elem_of_nil in Hj|].
      unfold list_sum. cbn [map fold_right foldr]. fold (list_sum (map (fun j => breaks (json_dumps float_repr j)) js)).
      apply elem_of_cons in Hj as [->|Hj]; [lia|]. specialize (IH Hj). lia. }
    split; [done|]. intros Hsome. apply mapM_Some, Forall2_length in Hsome. lia.
Qed.

(** X14. The lines of the uploaded text: a text with an empty line in it
    (two line feeds in a row, also at the end) has the empty string among
    its lines, [json.loads] raises on it, and the load stores nothing; one
    line feed at the end of a text adds no line. *)
Theorem blank_line_aborts_load pre post w :
  ss_entries (session w) = None ->
  let text := pre +:+ newline +:+ newline +:+ post in
  "" ∈ splitlines text /\
  json_loads "" = None /\
  (exists more,
     load_block json_loads (Some (splitlines text)) w
     = (Raised JSONDecodeError, World (heap w ++ more) (session w) (shown w))) /\
  (forall s, ends_open s = true -> splitlines (s +:+ newline) = splitlines s).
Proof.
  intros Hes text. destruct (splitlines_blank pre post) as (l & ls & Hl & Hin).
  assert ("" ∈ splitlines text) as Hblank.
  { subst text. rewrite Hl. by apply list_elem_of_further. }
  split_and!; [done | done | | apply splitlines_final_newline].
  apply load_block_fail; [done|]. apply mapM_None, Exists_exists.
  by exists "".
Qed.

(** X15. The edges of [save_current_edits].  With an index outside the
    list ([idx < -len] or [len <= idx]) it raises [IndexError] at
    [entries[idx]]; on an object that has no [context] it raises at the
    first field it reads.  In both cases it has written nothing: the heap
    and the session state are as before.  On a record it ends normally, with
    the values of the widgets written into the record. *)
Theorem save_current_edits_raises_before_writing idx entries w :
  let len := Z.of_nat (length entries) in
  (idx < - len \/ len <= idx -> save_current_edits idx entries w = (Raised IndexError, w)) /\
  (forall a j, at_index entries idx a -> heap w !! a = Some (Raw j) ->
     (forall fields, j = JObject fields -> dict_get "context" fields = None) ->
     save_current_edits idx entries w = (Raised ShapeError, w)) /\
  (forall a e, record_at w entries idx a e ->
     save_current_edits idx entries w = (Done tt, saved_world idx entries a e w)).
Proof.
  intros len. split_and!.
  - intros Hout. unfold save_current_edits, list_getitem, py_index.
    rewrite !bool_decide_eq_false_2 by (subst len; lia). done.
  - intros a j Hat Hj _. by apply (save_current_edits_raw w idx entries a j).
  - intros a e. apply save_current_edits_run.
Qed.

(* ===================================================================== *)
(** * Part 8: the properties of Part 7 at work                          *)
(* ===================================================================== *)

(** In the three worlds of the example the session state holds the list
    [2; 3] and the index 0. *)
Lemma edited_world_session :
  ss_entries (session edited_world) = Some [2; 3]%nat /\
  ss_current_idx (session edited_world) = Some 0.
Proof. split; vm_compute; reflexivity. Defined.

(** X1 at work: with two records and record 0 open, "Go" to entry 2 lands
    on index 1, and "Go" to entry 7 stays on index 0. *)
Lemma go_button_jumps_within_bounds_witness :
  record_at example_world [2; 3]%nat 0 2%nat record0 /\
  go_button (Go 2) 0 [2; 3]%nat example_world
  = (Rerun, with_current_idx 1 (saved_world 0 [2; 3]%nat 2%nat record0 example_world)) /\
  go_button (Go 7) 0 [2; 3]%nat example_world
  = (Rerun, with_current_idx 0 (saved_world 0 [2; 3]%nat 2%nat record0 example_world)).
Proof.
  assert (0 <= 0) as H0 by lia.
  split; [exact record_at_example|]. split.
  - exact (proj1 (go_button_jumps_within_bounds example_world 0 [2; 3]%nat 2%nat record0 2
                    record_at_example H0)).
  - exact (proj1 (go_button_jumps_within_bounds example_world 0 [2; 3]%nat 2%nat record0 7
                    record_at_example H0)).
Defined.

(** X2 at work: the context of record 0 was edited to "John lives in
    Smith"; "Update" leaves the edited context and the annotation "Smith"
    only. *)
Lemma update_button_prunes_saved_witness :
  record_at edited_world [2; 3]%nat 0 2%nat record0 /\
  dict_wf (piis record0) /\
  exists e',
    update_button UpdatePII 0 [2; 3]%nat 2%nat edited_world
    = (Rerun,
       World (<[2%nat := Rec e']> (heap edited_world))
             (SessionState (Some [2; 3]%nat) (ss_original_entries (session edited_world))
                           (ss_current_idx (session edited_world))
                           (ss_widgets (session edited_world)))
             (shown edited_world ++ [PIIsUpdated])) /\
    context e' = "John lives in Smith" /\
    piis e' = [("Smith", Info "name" "high")].
Proof.
  split; [exact record_at_edited|]. split; [exact dict_wf_john_smith|].
  destruct (update_button_prunes_saved edited_world 0 [2; 3]%nat 2%nat record0
              record_at_edited dict_wf_john_smith) as (e' & Hrun & _ & Hctx & _ & Hpiis & _).
  exists e'. split; [exact Hrun|]. split.
  - rewrite Hctx. vm_compute. reflexivity.
  - rewrite Hpiis. vm_compute. reflexivity.
Defined.

(** X3 at work.  After the edit of record 0 a click on "Save edits" leaves
    what a run with no button down leaves.  And the run that draws the page
    of the record with the type "person" and the relevance "medium" for the
    first time leaves it with the last type and the relevance "low". *)
Lemma save_button_saves_nothing_more_witness :
  ss_entries (session edited_world) = Some [2; 3]%nat /\
  ss_current_idx (session edited_world) = Some 0 /\
  record_at edited_world [2; 3]%nat 0 2%nat record0 /\
  heap (step json_loads (Run None SaveEdits) edited_world)
  = heap (step json_loads (Run None NoClick) edited_world) /\
  session (step json_loads (Run None SaveEdits) edited_world)
  = session (step json_loads (Run None NoClick) edited_world) /\
  record_at person_loaded [1]%nat 0 1%nat record_person /\
  heap (step json_loads (Run None NoClick) person_loaded) !! 1%nat
  = Some (Rec record_person_drawn).
Proof.
  split; [exact (proj1 edited_world_session)|].
  split; [exact (proj2 edited_world_session)|].
  split; [exact record_at_edited|].
  destruct (save_button_saves_nothing_more json_loads None edited_world [2; 3]%nat 0 2%nat record0
              (proj1 edited_world_session) (proj2 edited_world_session) record_at_edited)
    as (_ & _ & Hheap & Hsession & _).
  split; [exact Hheap|]. split; [exact Hsession|].
  assert (record_at person_loaded [1]%nat 0 1%nat record_person) as Hat.
  { split; [exists 0%nat; split; reflexivity | reflexivity]. }
  split; [exact Hat|].
  destruct (save_button_saves_nothing_more json_loads None person_loaded [1]%nat 0 1%nat
              record_person eq_refl eq_refl Hat) as (Hquiet & _).
  rewrite Hquiet. vm_compute. reflexivity.
Defined.

(** X4 at work. *)
Lemma rerun_needs_its_button_witness :
  (NoClick = NoClick \/ NoClick = SaveEdits \/ NoClick = Download) /\
  ((script json_loads None NoClick example_world).1 = Done tt \/
   exists x, (script json_loads None NoClick example_world).1 = Raised x).
Proof.
  split; [by left|].
  exact (rerun_needs_its_button json_loads None NoClick example_world (or_introl eq_refl)).
Defined.

(** X5 at work. *)
Lemma current_index_in_range_witness :
  loaded_from json_loads [Rec record0; Rec record1] updated_world /\
  [Rec record0; Rec record1] <> [] /\
  exists es os idx a,
    ss_entries (session updated_world) = Some es /\
    ss_original_entries (session updated_world) = Some os /\
    ss_current_idx (session updated_world) = Some idx /\
    length es = 2%nat /\ length os = 2%nat /\ 0 <= idx < 2 /\
    list_getitem es idx updated_world = (Done a, updated_world).
Proof.
  split; [exact loaded_from_updated|]. split; [discriminate|].
  exact (current_index_in_range json_loads [Rec record0; Rec record1] updated_world
           loaded_from_updated ltac:(discriminate)).
Defined.

(** X6 at work: in the session of the example a click on "Load Original"
    ends normally. *)
Lemma loaded_records_never_raise_witness :
  loaded_from json_loads [Rec record0; Rec record1] updated_world /\
  Forall is_record [Rec record0; Rec record1] /\
  run_outcome json_loads None LoadOriginal updated_world = Done tt.
Proof.
  assert (Forall is_record [Rec record0; Rec record1]) as Hrec by (repeat constructor).
  split; [exact loaded_from_updated|]. split; [exact Hrec|].
  exact (loaded_records_never_raise json_loads [Rec record0; Rec record1] updated_world
           loaded_from_updated ltac:(discriminate) Hrec None LoadOriginal).
Defined.

(** X7 at work: a file of one line with no [context]; a click on "Next"
    changes nothing, and a run with "Load Original" down raises like any
    other. *)
Lemma record_without_context_blocks_witness :
  json_loads line_without_context = Some json_without_context /\
  ss_entries (session blocked_world) = Some [1%nat] /\
  ss_current_idx (session blocked_world) = Some 0 /\
  heap blocked_world !! 1%nat = Some (Raw json_without_context) /\
  same_records blocked_world (step json_loads (Run None Next) blocked_world) /\
  script json_loads None LoadOriginal
    (clear_page (step json_loads (Run None Next) blocked_world))
  = (Raised ShapeError, clear_page (step json_loads (Run None Next) blocked_world)).
Proof.
  split; [vm_compute; reflexivity|]. split; [vm_compute; reflexivity|].
  split; [vm_compute; reflexivity|]. split; [vm_compute; reflexivity|].
  assert (at_index [1%nat] 0 1%nat) as Hat by (exists 0%nat; split; reflexivity).
  assert (forall fields, json_without_context = JObject fields ->
            dict_get "context" fields = None) as Hno.
  { intros fields [= <-]. reflexivity. }
  assert (steps json_loads blocked_world (step json_loads (Run None Next) blocked_world))
    as Hsteps.
  { apply rtc_once. by exists (Run None Next). }
  destruct (record_without_context_blocks json_loads blocked_world [1%nat] 0 1%nat
              json_without_context eq_refl eq_refl Hat eq_refl Hno _ Hsteps) as [Hsame Hraise].
  split; [exact Hsame | exact (Hraise None LoadOriginal)].
Defined.

(** X8 at work, from a new browser session. *)
Lemma empty_file_blocks_witness :
  ss_entries (session initial_world) = None /\
  ss_entries (session (step json_loads (Run (Some []) NoClick) initial_world)) = Some [] /\
  script json_loads (Some [line0; line1]) NoClick
    (clear_page (step json_loads (Run (Some []) NoClick) initial_world))
  = (Raised IndexError, clear_page (step json_loads (Run (Some []) NoClick) initial_world)).
Proof.
  split; [reflexivity|].
  destruct (empty_file_blocks json_loads initial_world NoClick eq_refl)
    as (_ & Hes & _ & _ & Hsteps).
  split; [exact Hes|].
  destruct (Hsteps _ (rtc_refl _ _)) as [_ Hraise].
  exact (Hraise (Some [line0; line1]) NoClick).
Defined.

(** X9 at work. *)
Lemma upload_ignored_once_loaded_witness :
  loaded_from json_loads [Rec record0; Rec record1] updated_world /\
  step json_loads (Run (Some [line1]) Next) updated_world
  = step json_loads (Run None Next) updated_world.
Proof.
  split; [exact loaded_from_updated|].
  exact (proj1 (upload_ignored_once_loaded json_loads [Rec record0; Rec record1] updated_world
                  (Some [line1]) None Next loaded_from_updated)).
Defined.

(** X11 at work: "John" is added to the edited record 0; "John Smith" is
    no longer in the context and goes. *)
Lemma add_pii_entry_prunes_the_rest_witness :
  dict_wf (piis record0_edited) /\
  substring_of "John" (context record0_edited) /\
  dict_keys (piis (add_pii_entry "John" "name" "low" record0_edited)) = ["Smith"; "John"] /\
  dict_get "John" (piis (add_pii_entry "John" "name" "low" record0_edited))
  = Some (Info "name" "low").
Proof.
  assert (substring_of "John" (context record0_edited)) as Hsub.
  { by exists "", " lives in Smith". }
  split; [exact dict_wf_john_smith|]. split; [exact Hsub|].
  destruct (add_pii_entry_prunes_the_rest "John" "name" "low" record0_edited
              dict_wf_john_smith Hsub) as (_ & _ & _ & _ & Hget & Hkeys & _).
  split.
  - rewrite Hkeys. vm_compute. reflexivity.
  - rewrite (Hget "John"). vm_compute. reflexivity.
Defined.

(** X12 at work: line 0 of the example is what [json.dumps] writes for its
    value, and it is read back. *)
Lemma download_then_upload_witness :
  json_plain json0 = true /\
  json_dumps (fun lit => lit) json0 = line0 /\
  json_loads (json_dumps (fun lit => lit) json0) = Some json0.
Proof.
  split; [vm_compute; reflexivity|]. split; [vm_compute; reflexivity|].
  apply (proj1 (download_then_upload (fun lit => lit)) json0). vm_compute. reflexivity.
Defined.

(** X13 at work: one record, two lines. *)
Lemma nel_splits_the_download_witness :
  Forall (fun j => json_plain j = true) [json_nel] /\
  Exists (fun j => nel_free j = false) [json_nel] /\
  (length [json_nel] < length (splitlines (download_data (fun lit => lit) [json_nel])))%nat.
Proof.
  assert (Forall (fun j => json_plain j = true) [json_nel]) as Hplain.
  { constructor; [vm_compute; reflexivity | constructor]. }
  assert (Exists (fun j => nel_free j = false) [json_nel]) as Hnel.
  { constructor. vm_compute. reflexivity. }
  split; [exact Hplain|]. split; [exact Hnel|].
  exact (proj1 (proj2 (nel_splits_the_download (fun lit => lit) [json_nel] Hplain) Hnel)).
Defined.

(** X14 at work: a file of one line that ends with two line feeds. *)
Lemma blank_line_aborts_load_witness :
  ss_entries (session initial_world) = None /\
  splitlines (line1 +:+ newline +:+ newline +:+ "") = [line1; ""] /\
  exists more,
    load_block json_loads (Some (splitlines (line1 +:+ newline +:+ newline +:+ ""))) initial_world
    = (Raised JSONDecodeError,
       World (heap initial_world ++ more) (session initial_world) (shown initial_world)).
Proof.
  split; [reflexivity|]. split; [vm_compute; reflexivity|].
  exact (proj1 (proj2 (proj2 (blank_line_aborts_load line1 "" initial_world eq_refl)))).
Defined.
